(** * The batch background-filter pipeline of demo_Ring_CNN.ipynb

    A shallow embedding of the two notebook cells that stream the movie
    through the ring model in batches (cell 19) and rebuild a memory-mapped
    movie from the batch files (cell 20), with the Python and numpy
    operations they are written with. *)

From Stdlib Require Import ZArith Lia SpecFloat Ascii.
From stdpp Require Import gmap strings list sorting.

(** ** Python built-ins: [range], [format(i, '05d')], [os.path.join] *)

Module Py.
Local Open Scope Z_scope.

(** The exceptions that can leave the two cells. *)
Inductive exn : Type :=
| ValueError
| IndexError
| SourceReadError
| ModelInferenceError
| PersistenceError
| ShapeMismatchError.

(** [len(range(start, stop, step))] for a non-zero step. *)
Definition range_length (start stop step : Z) : Z :=
  if 0 <? step
  then (if start <? stop then (stop - start - 1) / step + 1 else 0)
  else (if stop <? start then (start - stop - 1) / (- step) + 1 else 0).

(** [range(start, stop, step)]; [None] is the [ValueError] of a zero step. *)
Definition range (start stop step : Z) : option (list Z) :=
  if step =? 0 then None
  else Some (map (fun k => start + Z.of_nat k * step)
                 (seq 0 (Z.to_nat (range_length start stop step)))).

Definition ceil_div (a b : Z) : Z := (a + b - 1) / b.

(** The multiples of [step] below [T]: what [range(0, T, step)] runs
    through when [step] is positive. *)
Definition starts (T step : Z) : list Z :=
  map (fun k => Z.of_nat k * step) (seq 0 (Z.to_nat (ceil_div T step))).

(** Decimal digits. [fixed k n] is [n] written with exactly [k] digits. *)
Definition digit (d : Z) : ascii := ascii_of_nat (48 + Z.to_nat d).

Fixpoint fixed (k : nat) (n : Z) : string :=
  match k with
  | O => ""
  | S k' => String (digit (n / 10 ^ Z.of_nat k')) (fixed k' (n mod 10 ^ Z.of_nat k'))
  end.

(** Number of decimal digits of [n >= 0] (1 for 0). *)
Fixpoint ndigits_aux (fuel : nat) (n : Z) : nat :=
  match fuel with
  | O => 1
  | S f => if n <? 10 then 1%nat else S (ndigits_aux f (n / 10))
  end.

Definition ndigits (n : Z) : nat := ndigits_aux (Z.to_nat (Z.log2 n)) n.

(** [format(i, '05d')]: sign-aware zero padding to a minimum width of 5. *)
Definition format_05d (i : Z) : string :=
  if i <? 0 then String "-"%char (fixed (Nat.max 4 (ndigits (- i))) (- i))
  else fixed (Nat.max 5 (ndigits i)) i.

(** [posixpath.join(a, b)]. *)
Definition startswith_sep (s : string) : bool :=
  match s with
  | String c _ => Ascii.eqb c "/"%char
  | EmptyString => false
  end.

Fixpoint endswith_sep (s : string) : bool :=
  match s with
  | EmptyString => false
  | String c EmptyString => Ascii.eqb c "/"%char
  | String _ s' => endswith_sep s'
  end.

Definition os_path_join (a b : string) : string :=
  if startswith_sep b then b
  else if String.eqb a "" || endswith_sep a then a +:+ b
  else a +:+ "/" +:+ b.

(** Reading a decimal numeral back, most significant digit first. *)
Fixpoint parse (s : string) (acc : Z) : Z :=
  match s with
  | EmptyString => acc
  | String c s' => parse s' (10 * acc + (Z.of_nat (nat_of_ascii c) - 48))
  end.

End Py.

(** ** numpy arrays: a shape and the elements in row-major order *)

Module Np.

(** Movies are [float32] arrays ([cm.load] converts to [np.float32]). *)
Definition pixel : Type := spec_float.
Definition prec : Z := 24.
Definition emax : Z := 128.

Definition fsub (x y : pixel) : pixel := SFsub prec emax x y.

Definition is_nan (x : pixel) : bool :=
  match x with S754_nan => true | _ => false end.

(** The inner loop of [np.maximum] on floats:
    [(in1 >= in2 || npy_isnan(in1)) ? in1 : in2]. *)
Definition fmax (x y : pixel) : pixel :=
  if SFleb y x || is_nan x then x else y.

Definition fzero : pixel := S754_zero false.

(** [x >= 0] as numpy evaluates it on floats (false on NaN). *)
Definition ge0 (x : pixel) : bool := SFleb fzero x.

Record ndarray : Type := mk_ndarray { shape : list nat; data : list pixel }.

Definition size_of (sh : list nat) : nat := foldr Nat.mul 1%nat sh.

Definition wf (a : ndarray) : Prop := length (data a) = size_of (shape a).

(** Flat position of an index, row-major (C) and column-major (F). *)
Fixpoint ravel (sh idx : list nat) : nat :=
  match sh, idx with
  | _ :: sh', i :: idx' => i * size_of sh' + ravel sh' idx'
  | _, _ => 0
  end.

Fixpoint ravel_F (sh idx : list nat) : nat :=
  match sh, idx with
  | d :: sh', i :: idx' => i + d * ravel_F sh' idx'
  | _, _ => 0
  end.

Fixpoint unravel_F (sh : list nat) (k : nat) : list nat :=
  match sh with
  | [] => []
  | d :: sh' => (k mod d) :: unravel_F sh' (k / d)
  end.

(** The index at a row-major flat position ([np.unravel_index]), and all
    indices of a shape, last axis fastest ([np.ndindex]). *)
Fixpoint unravel (sh : list nat) (k : nat) : list nat :=
  match sh with
  | [] => []
  | _ :: sh' => (k / size_of sh') :: unravel sh' (k mod size_of sh')
  end.

Definition ndindex (sh : list nat) : list (list nat) :=
  map (unravel sh) (seq 0 (size_of sh)).

(** [idx] is a valid index of an array of shape [sh]. *)
Definition in_bounds (sh idx : list nat) : Prop := Forall2 lt idx sh.

Definition item (a : ndarray) (idx : list nat) : pixel :=
  nth (ravel (shape a) idx) (data a) S754_nan.

Definition build (sh : list nat) (f : list nat -> pixel) : ndarray :=
  mk_ndarray sh (map f (ndindex sh)).

(** A 0-d array holding one scalar. *)
Definition scalar (x : pixel) : ndarray := mk_ndarray [] [x].

(** [np.expand_dims(a, axis=-1)] and [np.squeeze(a)]. *)
Definition expand_dims_last (a : ndarray) : ndarray :=
  mk_ndarray (shape a ++ [1%nat]) (data a).

Definition squeeze (a : ndarray) : ndarray :=
  mk_ndarray (List.filter (fun d => negb (d =? 1)%nat) (shape a)) (data a).

(** Broadcasting: shapes are aligned on their last axes; an axis of
    length 1 is stretched; anything else that differs is a [ValueError]. *)
Fixpoint broadcast_rev (r1 r2 : list nat) : option (list nat) :=
  match r1, r2 with
  | [], r => Some r
  | r, [] => Some r
  | a :: r1', b :: r2' =>
      if (a =? b)%nat then cons a <$> broadcast_rev r1' r2'
      else if (a =? 1)%nat then cons b <$> broadcast_rev r1' r2'
      else if (b =? 1)%nat then cons a <$> broadcast_rev r1' r2'
      else None
  end.

Definition broadcast_shapes (s1 s2 : list nat) : option (list nat) :=
  reverse <$> broadcast_rev (reverse s1) (reverse s2).

(** The index into an operand of shape [s] read for result index [j]. *)
Definition bidx (s j : list nat) : list nat :=
  zip_with (fun d i => if (d =? 1)%nat then 0%nat else i) s
           (drop (length j - length s) j).

Definition broadcast2 (f : pixel -> pixel -> pixel) (a b : ndarray)
  : option ndarray :=
  match broadcast_shapes (shape a) (shape b) with
  | Some sh =>
      Some (build sh (fun j => f (item a (bidx (shape a) j))
                                 (item b (bidx (shape b) j))))
  | None => None
  end.

Definition subtract : ndarray -> ndarray -> option ndarray := broadcast2 fsub.
Definition maximum : ndarray -> ndarray -> option ndarray := broadcast2 fmax.

(** [a[start:stop]] on the first axis, with Python's clamping of the
    bounds; [None] is the [IndexError] of slicing a 0-d array. *)
Definition slice_bound (len x : Z) : Z :=
  (if x <? 0 then Z.max (x + len) 0 else Z.min x len)%Z.

Definition slice0 (a : ndarray) (start stop : Z) : option ndarray :=
  match shape a with
  | [] => None
  | d :: sh =>
      let lo := slice_bound (Z.of_nat d) start in
      let hi := slice_bound (Z.of_nat d) stop in
      let n := Z.to_nat (hi - lo) in
      Some (mk_ndarray (n :: sh)
              (take (n * size_of sh) (drop (Z.to_nat lo * size_of sh) (data a))))
  end.

(** [np.concatenate(l, axis=0)]. *)
Definition concat2 (a b : ndarray) : option ndarray :=
  match shape a, shape b with
  | d1 :: s1, d2 :: s2 =>
      if decide (s1 = s2)
      then Some (mk_ndarray ((d1 + d2)%nat :: s1) (data a ++ data b))
      else None
  | _, _ => None
  end.

Fixpoint concatenate0 (l : list ndarray) : option ndarray :=
  match l with
  | [] => None
  | [a] => match shape a with [] => None | _ => Some a end
  | a :: l' =>
      match concatenate0 l' with
      | Some b => concat2 a b
      | None => None
      end
  end.

(** [a.transpose(axes)]: result axis [m] is source axis [axes[m]]. *)
Fixpoint position (k : nat) (axes : list nat) : nat :=
  match axes with
  | [] => 0
  | x :: axes' => if (x =? k)%nat then 0%nat else S (position k axes')
  end.

Definition transpose (a : ndarray) (axes : list nat) : ndarray :=
  build (map (fun k => nth k (shape a) 0%nat) axes)
        (fun j => item a (map (fun k => nth (position k axes) j 0%nat)
                              (seq 0 (length axes)))).

(** [a.T] reverses the axes. *)
Definition T_ (a : ndarray) : ndarray :=
  transpose a (reverse (seq 0 (length (shape a)))).

Inductive order : Type := C | F.

(** [a.reshape(sh, order=o)]: the elements are read and written in the
    index order [o]; [None] is the [ValueError] of a size mismatch. *)
Definition reshape (a : ndarray) (sh : list nat) (o : order) : option ndarray :=
  if (size_of sh =? size_of (shape a))%nat then
    Some match o with
         | C => mk_ndarray sh (data a)
         | F => build sh (fun j => item a (unravel_F (shape a) (ravel_F sh j)))
         end
  else None.

(** The element sequence of an array as laid out in a file in order [o],
    and the array read back from such a sequence. *)
Definition tofile (o : order) (a : ndarray) : list pixel :=
  match o with
  | C => data a
  | F => map (fun k => item a (unravel_F (shape a) k))
             (seq 0 (size_of (shape a)))
  end.

Definition fromfile (o : order) (sh : list nat) (raw : list pixel) : ndarray :=
  match o with
  | C => mk_ndarray sh raw
  | F => build sh (fun j => nth (ravel_F sh j) raw S754_nan)
  end.

(** Number of frames: the length of the first axis. *)
Definition frames (a : ndarray) : nat := hd 0%nat (shape a).

(** A float32 holding a small integer. *)
Definition of_Z (z : Z) : pixel := binary_normalize prec emax z 0 false.

End Np.

(** ** The notebook cells *)

Module Pipeline.
Import Py Np.

(** What a file holds: the array of a [.h5] batch file, or a memory map
    with its metadata and its element sequence in the declared order. *)
Inductive file : Type :=
| H5 (mov : ndarray)
| Mmap (o : order) (dims : list nat) (T : nat) (raw : list pixel).

(** The statements of interest executed so far, tagged with the loop
    index of the iteration (ghost state). *)
Inductive event : Type :=
| EvLoad (i : Z)
| EvPredict (i : Z)
| EvRecord (i : Z)
| EvSave (i : Z)
| EvSaveMemmap
| EvLoadMemmap.

#[global] Instance event_eq_dec : EqDecision event.
Proof. solve_decision. Defined.

(** Everything the cells take from their environment: the movie stored
    under ['Y'] in [fnames], the folder of the model, the ring model's
    [predict] ([None] when it raises), and whether a read or a write
    goes through. *)
Record world : Type := mk_world {
  source : ndarray;
  fld_name : string;
  predict : ndarray -> option ndarray;
  load_ok : Z -> Z -> bool;
  save_ok : gmap string file -> string -> bool;
  mmap_name : string
}.

(** The notebook's globals that the cells change, and the file system. *)
Record state : Type := mk_state {
  fs : gmap string file;
  saved_files : list string;
  trace : list event
}.

(** Statements: they change the state and return or raise. The state
    reached when an exception is raised is kept (the kernel's globals and
    the disk survive a failed cell). *)
Definition M (A : Type) : Type := state -> state * (exn + A).

Definition ret {A} (x : A) : M A := fun st => (st, inr x).

Definition raise {A} (e : exn) : M A := fun st => (st, inl e).

Definition bind {A B} (m : M A) (k : A -> M B) : M B :=
  fun st =>
    match m st with
    | (st', inr x) => k x st'
    | (st', inl e) => (st', inl e)
    end.

Notation "'let!' x ':=' m 'in' k" := (bind m (fun x => k))
  (at level 10, x pattern, m at level 100, k at level 200).

Definition lift {A} (e : exn) (o : option A) : M A :=
  match o with Some x => ret x | None => raise e end.

Definition log (ev : event) : M unit :=
  fun st => (mk_state (fs st) (saved_files st) (trace st ++ [ev]), inr tt).

Definition set_saved_files (l : list string) : M unit :=
  fun st => (mk_state (fs st) l (trace st), inr tt).

Definition get_saved_files : M (list string) :=
  fun st => (st, inr (saved_files st)).

(** [T]: the frame count of the source ([get_file_size], summed). *)
Definition T_total (w : world) : Z := Z.of_nat (frames (source w)).

(** Modelled from the spec: [cm.load(fnames, var_name_hdf5='Y',
    subindices=slice(i, j))] (caiman/base/movies.py is not part of the
    notebook) loads exactly the frames [i, min(j, T)) of the source as a
    (batch_frames, rows, cols) array, or fails with a source read error. *)
Definition cm_load (w : world) (i j : Z) : M ndarray :=
  let! _ := log (EvLoad i) in
  if load_ok w i j then lift IndexError (slice0 (source w) i j)
  else raise SourceReadError.

(** [model_LN.predict(x)] in iteration [i]. *)
Definition model_predict (w : world) (i : Z) (x : ndarray) : M ndarray :=
  let! _ := log (EvPredict i) in
  lift ModelInferenceError (predict w x).

(** [saved_files.append(p)] in iteration [i]. *)
Definition append_saved (i : Z) (p : string) : M unit :=
  let! _ := log (EvRecord i) in
  fun st => (mk_state (fs st) (saved_files st ++ [p]) (trace st), inr tt).

(** Modelled from the spec: [cm.movie(a)] wraps the array unchanged. *)
Definition cm_movie (a : ndarray) : ndarray := a.

(** Modelled from the spec: [m.save(p)] (caiman/base/timeseries.py is not
    part of the notebook) writes the array to [p], replacing what is
    there, or fails with a persistence error and leaves no file behind. *)
Definition write_file (w : world) (p : string) (f : file) : M unit :=
  fun st =>
    if save_ok w (fs st) p
    then (mk_state (<[p := f]> (fs st)) (saved_files st) (trace st), inr tt)
    else (st, inl PersistenceError).

Definition movie_save (w : world) (i : Z) (m : ndarray) (p : string) : M unit :=
  let! _ := log (EvSave i) in
  write_file w p (H5 m).

(** [for x in l: body(x)]. *)
Fixpoint for_ {X} (l : list X) (body : X -> M unit) : M unit :=
  match l with
  | [] => ret tt
  | x :: l' => let! _ := body x in for_ l' body
  end.

(** [os.path.join(fld_name, 'pfc_back_removed_' + format(i, '05d') + '.h5')]. *)
Definition batch_name (fld : string) (i : Z) : string :=
  os_path_join fld ("pfc_back_removed_" +:+ format_05d i +:+ ".h5").

Definition temp_file (w : world) (i : Z) : string := batch_name (fld_name w) i.

(** The file name of a batch: a prefix that only depends on the folder,
    the formatted index, and the extension. *)
Definition name_prefix (d : string) : string :=
  if String.eqb d "" || endswith_sep d then d +:+ "pfc_back_removed_"
  else d +:+ "/" +:+ "pfc_back_removed_".

(** The body of the loop of cell 19, statement by statement. *)
Definition body (w : world) (batch_length i : Z) : M unit :=
  let! images := cm_load w i (i + batch_length) in
  let! y := model_predict w i (expand_dims_last images) in
  let images_filt := squeeze y in
  let temp_file := temp_file w i in
  let! _ := append_saved i temp_file in
  let! d := lift ValueError (subtract images images_filt) in
  let! mx := lift ValueError (maximum d (scalar fzero)) in
  let m := cm_movie mx in
  movie_save w i m temp_file.

(** Cell 19 with [save_file = True]; [batch_length] is 256 there. *)
Definition cell19 (w : world) (batch_length : Z) : M unit :=
  let! _ := set_saved_files [] in
  let! r := lift ValueError (range 0 (T_total w) batch_length) in
  for_ r (body w batch_length).

(** What iteration [i] computes and saves, as a function of its inputs. *)
Definition filtered (w : world) (batch_length i : Z) : option ndarray :=
  match slice0 (source w) i (i + batch_length) with
  | Some images =>
      match predict w (expand_dims_last images) with
      | Some y =>
          match subtract images (squeeze y) with
          | Some d => maximum d (scalar fzero)
          | None => None
          end
      | None => None
      end
  | None => None
  end.

Definition read_h5 (p : string) : M ndarray :=
  fun st =>
    match fs st !! p with
    | Some (H5 a) => (st, inr a)
    | _ => (st, inl SourceReadError)
    end.

Fixpoint read_all (ps : list string) : M (list ndarray) :=
  match ps with
  | [] => ret []
  | p :: ps' =>
      let! a := read_h5 p in
      let! l := read_all ps' in
      ret (a :: l)
  end.

(** Modelled from the spec: [cm.save_memmap(filenames, order=o,
    border_to_0=0)] (caiman/mmapping.py is not part of the notebook)
    concatenates all batch files into one array of shape
    (pixels, total_frames), pixels = rows * cols, and stores it in a
    file in the declared order [o], with [dims] and [total_frames] as
    metadata. The mapped array is the one that the spec's invariant
    fixes: reshaped by [dims + (total_frames,)] in the declared order,
    with the frame axis moved to the front, it gives the frames back. *)
Definition cm_save_memmap (w : world) (filenames : list (list string))
    (o : order) : M string :=
  let! _ := log EvSaveMemmap in
  let! movs := read_all (concat filenames) in
  let! mov := lift ShapeMismatchError (concatenate0 movs) in
  match shape mov with
  | [T; d1; d2] =>
      let! Yr := lift ValueError
                   (reshape (transpose mov [1; 2; 0]%nat) [(d1 * d2)%nat; T] o) in
      let! _ := write_file w (mmap_name w) (Mmap o [d1; d2] T (tofile o Yr)) in
      ret (mmap_name w)
  | _ => raise ShapeMismatchError
  end.

(** Modelled from the spec: [cm.load_memmap(fname)] returns the mapped
    (pixels, total_frames) array with [dims] and [total_frames]. *)
Definition cm_load_memmap (w : world) (fname : string)
  : M (ndarray * list nat * nat) :=
  let! _ := log EvLoadMemmap in
  fun st =>
    match fs st !! fname with
    | Some (Mmap o dims T raw) =>
        (st, inr (fromfile o [size_of dims; T] raw, dims, T))
    | _ => (st, inl SourceReadError)
    end.

(** Cell 20, for a declared storage order [o] (the notebook passes 'C'):
    it returns [Yr], [dims], [T] and [images_mmap]. *)
Definition materialize (w : world) (o : order)
  : M (ndarray * list nat * nat * ndarray) :=
  let! files := get_saved_files in
  let! fname_mmap := cm_save_memmap w [files] o in
  let! (Yr, dims, T) := cm_load_memmap w fname_mmap in
  let! images_mmap := lift ValueError (reshape (T_ Yr) (T :: dims) F) in
  ret (Yr, dims, T, images_mmap).

Definition cell20 (w : world) : M (ndarray * list nat * nat * ndarray) :=
  materialize w C.

(** The two cells run one after the other; an exception stops the run. *)
Definition notebook (w : world) (batch_length : Z)
  : M (ndarray * list nat * nat * ndarray) :=
  let! _ := cell19 w batch_length in
  cell20 w.

(** The read-back as the specification words it: reshape the mapped array
    by [dims + (total_frames,)] in order [o], frame axis to the front. *)
Definition readback_spec (Yr : ndarray) (dims : list nat) (T : nat) (o : order)
  : option ndarray :=
  match reshape Yr (dims ++ [T]) o with
  | Some a => Some (transpose a [2; 0; 1]%nat)
  | None => None
  end.

(** The concatenation of the arrays held by the batch files [ps]. *)
Definition batches_of (st : state) (ps : list string) : list ndarray :=
  omap (fun p => match fs st !! p with Some (H5 a) => Some a | _ => None end) ps.

Definition init_state : state := mk_state ∅ [] [].

(** The statement that every recorded path names a file that was
    written, in the state a run of cell 19 ends in. *)
Definition recorded_paths_written (w : world) (batch_length : Z) (st : state)
  : Prop :=
  let st' := fst (cell19 w batch_length st) in
  forall p, p ∈ saved_files st' -> is_Some (fs st' !! p).

(** The statement that the file names in folder [fld] sort like the
    start indices of the batches of a movie of [T] frames. *)
Definition names_sort_chronologically (fld : string) (T batch_length : Z)
  : Prop :=
  forall i j, i ∈ starts T batch_length -> j ∈ starts T batch_length ->
    (i < j)%Z -> String.ltb (batch_name fld i) (batch_name fld j) = true.

(** The (pixels, frames) array of a movie with the pixels of each frame
    numbered column-major: pixel [r + d1 * c] of frame [t]. *)
Definition Yr_of (mov : ndarray) (T d1 d2 : nat) : ndarray :=
  build [d1 * d2; T]
    (fun j => item (transpose mov [1; 2; 0])
                (unravel_F [d1; d2; T] (ravel_F [d1 * d2; T] j))).

(** The array that [cm_save_memmap] maps for a movie and a declared
    order: the (rows, cols, frames) array reshaped to (pixels, frames)
    in that order. *)
Definition mapped (o : order) (mov : ndarray) (T d1 d2 : nat) : ndarray :=
  match o with
  | C => mk_ndarray [d1 * d2; T] (data (transpose mov [1; 2; 0]))
  | F => Yr_of mov T d1 d2
  end.

(** A rank-3 array of [T] frames of [R] rows and [C] columns. *)
Definition is_movie (a : ndarray) (T R C : nat) : Prop :=
  shape a = [T; R; C] /\ wf a.

(** The contract of the ring model: the estimated background has the
    shape of the batch it is given. *)
Definition model_ok (w : world) : Prop :=
  forall x y, predict w x = Some y -> shape y = shape x.

(** Frames in [i, min(i + batch_length, T)). *)
Definition batch_len (T batch_length i : Z) : nat :=
  Z.to_nat (Z.min (i + batch_length) T - i).

(** Iteration [i] can read its frames and computes a batch to save. *)
Definition good_batch (w : world) (batch_length i : Z) : Prop :=
  is_Some (filtered w batch_length i) /\
  load_ok w i (i + batch_length) = true.

(** The four statements of one complete iteration. *)
Definition batch_events (i : Z) : list event :=
  [EvLoad i; EvPredict i; EvRecord i; EvSave i].

(** The file system after the iterations [l] have saved their batches. *)
Definition written (w : world) (batch_length : Z) (l : list Z)
    (fs0 : gmap string file) : gmap string file :=
  foldl (fun f i => match filtered w batch_length i with
                    | Some a => <[temp_file w i := H5 a]> f
                    | None => f
                    end) fs0 l.

End Pipeline.

(** ** Small worlds to run the cells in *)

Module Demo.
Import Py Np Pipeline.

(** A movie whose pixels count up from 0. *)
Definition ramp (T R C : nat) : ndarray :=
  mk_ndarray [T; R; C]
    (map (fun k => of_Z (Z.of_nat k)) (seq 0 (T * R * C))).

(** A model that estimates a constant background [b]. *)
Definition const_model (b : pixel) (x : ndarray) : option ndarray :=
  Some (mk_ndarray (shape x) (map (fun _ => b) (data x))).

Definition demo_world (Y : ndarray) (b : pixel) : world :=
  mk_world Y "out" (const_model b) (fun _ _ => true) (fun _ _ => true)
           "out/Yr.mmap".

Definition w_small : world := demo_world (ramp 3 2 2) (of_Z 2).

(** The value a statement returned, [d] if it raised. *)
Definition result_of {A} (d : A) (r : state * (exn + A)) : A :=
  match snd r with inr x => x | inl _ => d end.

Definition returned {A} (r : state * (exn + A)) : bool :=
  match snd r with inr _ => true | inl _ => false end.

Definition no_result : ndarray * list nat * nat * ndarray :=
  (scalar fzero, [], 0%nat, scalar fzero).

(** One frame of 2 x 2 pixels, the first of them NaN. *)
Definition w_nan : world :=
  demo_world (mk_ndarray [1; 2; 2]%nat [S754_nan; of_Z 1; of_Z 2; of_Z 3]) fzero.

(** A disk that refuses every write. *)
Definition w_full : world :=
  mk_world (ramp 1 2 2) "out" (const_model fzero) (fun _ _ => true)
           (fun _ _ => false) "out/Yr.mmap".

(** A model that raises on the batch whose first pixel is [bad]. *)
Definition failing_model (bad b : pixel) (x : ndarray) : option ndarray :=
  match data x with
  | v :: _ => if SFeqb v bad then None else const_model b x
  | [] => const_model b x
  end.

(** 1000 frames of 2 x 2 pixels; inference fails on the batch that
    starts at frame 512 (pixel 2048). *)
Definition w_fail512 : world :=
  mk_world (ramp 1000 2 2) "out" (failing_model (of_Z 2048) fzero)
           (fun _ _ => true) (fun _ _ => true) "out/Yr.mmap".

(** 1000 frames of 2 x 2 pixels and a model that never fails. *)
Definition w_1000 : world := demo_world (ramp 1000 2 2) fzero.


(** Two frames of a single row of three pixels. *)
Definition w_row : world := demo_world (ramp 2 1 3) fzero.

End Demo.

(** ** The other branch of cell 19: listing the batch files of an earlier run *)

Module Listing.
Import Py Np Pipeline.

Fixpoint has_sep (s : string) : bool :=
  match s with
  | EmptyString => false
  | String c s' => Ascii.eqb c "/"%char || has_sep s'
  end.

(** [posixpath.split(p)]: with [i = p.rfind('/') + 1], the head is
    [p[:i]] without its trailing separators (unless it consists of
    separators only) and the tail is [p[i:]]. *)
Fixpoint tail_of (p : string) : string :=
  match p with
  | EmptyString => ""
  | String c p' =>
      if has_sep p' then tail_of p'
      else if Ascii.eqb c "/"%char then p' else p
  end.

Fixpoint head_of (p : string) : string :=
  match p with
  | EmptyString => ""
  | String c p' =>
      if has_sep p' then String c (head_of p')
      else if Ascii.eqb c "/"%char then "/" else ""
  end.

Fixpoint rstrip_sep (s : string) : string :=
  match s with
  | EmptyString => ""
  | String c s' =>
      match rstrip_sep s' with
      | EmptyString => if Ascii.eqb c "/"%char then "" else String c ""
      | r => String c r
      end
  end.

Definition os_path_split (p : string) : string * string :=
  let head := head_of p in
  (if String.eqb (rstrip_sep head) "" then head else rstrip_sep head,
   tail_of p).

(** [os.path.dirname(p)]. *)
Definition os_path_dirname (p : string) : string := fst (os_path_split p).

(** [glob.has_magic]: one of the characters [*], [?] and [[]. *)
Fixpoint has_magic (s : string) : bool :=
  match s with
  | EmptyString => false
  | String c s' =>
      Ascii.eqb c "*"%char || Ascii.eqb c "?"%char || Ascii.eqb c "["%char
      || has_magic s'
  end.

(** [s] without the prefix [p]; [None] when [s] does not start with [p]. *)
Fixpoint strip_prefix (p s : string) : option string :=
  match p, s with
  | EmptyString, _ => Some s
  | String a p', String b s' =>
      if Ascii.eqb a b then strip_prefix p' s' else None
  | String _ _, EmptyString => None
  end.

(** The first component of a relative path. *)
Fixpoint upto_sep (s : string) : string :=
  match s with
  | EmptyString => ""
  | String c s' => if Ascii.eqb c "/"%char then "" else String c (upto_sep s')
  end.

(** [p] without its last character. *)
Fixpoint init (p : string) : string :=
  match p with
  | EmptyString => ""
  | String c EmptyString => ""
  | String c p' => String c (init p')
  end.

(** The names in directory [dirname] ([os.listdir]); [""] is the working
    directory. Files are identified by their path strings: the entries
    are the first components of what follows [dirname/] in the paths on
    disk. The order of a directory listing is not specified. *)
Definition dir_prefix (dirname : string) : string :=
  if String.eqb dirname "" || endswith_sep dirname then dirname
  else dirname +:+ "/".

Definition entry (dirname path : string) : option string :=
  if String.eqb dirname "" && startswith_sep path then None
  else match strip_prefix (dir_prefix dirname) path with
       | Some rest =>
           if String.eqb (upto_sep rest) "" then None else Some (upto_sep rest)
       | None => None
       end.

Definition listdir (disk : gmap string file) (dirname : string) : list string :=
  remove_dups (omap (entry dirname) (map fst (map_to_list disk))).

Definition ishidden (name : string) : bool :=
  match name with
  | String c _ => Ascii.eqb c "."%char
  | EmptyString => false
  end.

(** [glob.glob(pattern)] for a pattern whose only metacharacter is a
    ['*'] that ends its last component, as in cell 19: the entries of
    the directory part whose name starts with the literal part of the
    last component (and is not hidden, unless the pattern is), each
    joined to the directory part. *)
Definition glob (disk : gmap string file) (pattern : string) : list string :=
  let dirname := fst (os_path_split pattern) in
  let base := snd (os_path_split pattern) in
  let names :=
    List.filter
      (fun n => String.prefix (init base) n && (ishidden base || negb (ishidden n)))
      (listdir disk dirname) in
  if String.eqb dirname "" then names
  else map (os_path_join dirname) names.

(** [l.sort()] on strings: ascending code-point order, equal elements in
    their original order. *)
Fixpoint insert_sorted {A} (leb : A -> A -> bool) (x : A) (l : list A) : list A :=
  match l with
  | [] => [x]
  | y :: l' => if leb x y then x :: l else y :: insert_sorted leb x l'
  end.

Definition sort_by {A} (leb : A -> A -> bool) (l : list A) : list A :=
  foldr (insert_sorted leb) [] l.

Definition sort (l : list string) : list string := sort_by String.leb l.

(** [a <= b] on strings. *)
Definition leb_rel (a b : string) : Prop := String.leb a b = true.

(** Cell 19 with [save_file = False]. *)
Definition cell19_reuse (w : world) : M unit :=
  fun st =>
    set_saved_files
      (sort (glob (fs st) (os_path_join (fld_name w) "pfc_back_removed_*"))) st.

(** No path on disk continues the prefix of the batch files of [fld]. *)
Definition no_batch_files (disk : gmap string file) (fld : string) : Prop :=
  forall p, is_Some (disk !! p) -> strip_prefix (name_prefix fld) p = None.

(** A movie of 100097 frames of 2 x 2 pixels. *)
Definition w_long : world :=
  Demo.demo_world (Demo.ramp (Z.to_nat 100097) 2 2) fzero.

End Listing.

(** ** Component images and the movie of the estimated components *)

Module Movie.
Import Py Np Pipeline.

(** [A.reshape(dims + (-1,), order='F').transpose(2, 0, 1)]: the columns
    of [A] as images. The length of the last axis is inferred; [None] is
    the [ValueError] of a size that [dims] does not divide, or of axes
    that do not match when [dims] is not a pair. *)
Definition infer_last (size : nat) (dims : list nat) : option nat :=
  if (size_of dims =? 0)%nat then None
  else if (size mod size_of dims =? 0)%nat then Some (size / size_of dims)%nat
  else None.

Definition footprints (A : ndarray) (dims : list nat) : option ndarray :=
  match infer_last (size_of (shape A)) dims with
  | Some K =>
      match reshape A (dims ++ [K]) F with
      | Some a =>
          if (length dims =? 2)%nat then Some (transpose a [2; 0; 1]%nat)
          else None
      | None => None
      end
  | None => None
  end.

(** [cm.movie(AC).reshape(dims + (T,)).transpose(2, 0, 1)]: the movie of
    the estimated components; [reshape] is called with its default
    order, 'C'. *)
Definition components_movie (AC : ndarray) (dims : list nat) (T : nat)
  : option ndarray :=
  match reshape (cm_movie AC) (dims ++ [T]) C with
  | Some a =>
      if (length dims =? 2)%nat then Some (transpose a [2; 0; 1]%nat)
      else None
  | None => None
  end.

End Movie.

(** ** The timing plots *)

Module Timing.
Import Py Np.
Local Open Scope Z_scope.

(** Timings are [float64] values. *)
Definition f64 : Type := spec_float.
Definition mul64 (x y : f64) : f64 := SFmul 53 1024 x y.
Definition add64 (x y : f64) : f64 := SFadd 53 1024 x y.
Definition sub64 (x y : f64) : f64 := SFsub 53 1024 x y.
Definition div64 (x y : f64) : f64 := SFdiv 53 1024 x y.
Definition of_int (z : Z) : f64 := binary_normalize 53 1024 z 0 false.
Definition zero64 : f64 := S754_zero false.

(** A 1-d array. *)
Definition array1 (l : list f64) : ndarray := mk_ndarray [length l] l.

(** [1e3 * np.hstack((np.zeros(init_batch), t))]. *)
Definition padded_ms (init_batch : nat) (t : list f64) : ndarray :=
  array1 (map (mul64 (of_int 1000)) (replicate init_batch zero64 ++ t)).

(** The three arrays of the first plot: [T_detect], [T_shapes] and
    [T_online]; [None] is the [ValueError] of operands that cannot be
    broadcast. *)
Definition T_detect (init_batch : nat) (t_detect : list f64) : ndarray :=
  padded_ms init_batch t_detect.

Definition T_shapes (init_batch : nat) (t_shapes : list f64) : ndarray :=
  padded_ms init_batch t_shapes.

Definition T_online (init_batch : nat) (t_detect t_shapes t_online : list f64)
  : option ndarray :=
  match broadcast2 sub64 (padded_ms init_batch t_online)
                         (T_detect init_batch t_detect) with
  | Some d => broadcast2 sub64 d (T_shapes init_batch t_shapes)
  | None => None
  end.

(** [np.cumsum(a)] of a 1-d array: the running sums, left to right. *)
Fixpoint cumsum_from (acc : f64) (l : list f64) : list f64 :=
  match l with
  | [] => []
  | x :: l' => add64 acc x :: cumsum_from (add64 acc x) l'
  end.

Definition cumsum (l : list f64) : list f64 :=
  match l with
  | [] => []
  | x :: l' => x :: cumsum_from x l'
  end.

(** [np.cumsum(a)/1000]. *)
Definition cumulative_s (a : ndarray) : ndarray :=
  array1 (map (fun x => div64 x (of_int 1000)) (cumsum (data a))).

(** [t_init * np.ones(n)]; [None] is the [ValueError] of a negative [n]. *)
Definition tc_init (t_init : f64) (n : Z) : option ndarray :=
  if n <? 0 then None
  else Some (array1 (map (mul64 t_init) (replicate (Z.to_nat n) (of_int 1)))).

(** [a[k]] on a 1-d array, negative indices counting from the end. *)
Definition getitem (a : ndarray) (k : Z) : exn + f64 :=
  let n := Z.of_nat (length (data a)) in
  if (0 <=? k) && (k <? n) then inr (nth (Z.to_nat k) (data a) S754_nan)
  else if (- n <=? k) && (k <? 0) then inr (nth (Z.to_nat (n + k)) (data a) S754_nan)
  else inl IndexError.

(** The argument of the last timing cell,
    [tc_prc[T] + tc_det[T] + tc_shp[T] + tc_init[T]]. *)
Definition first_epoch_cost (tc_prc tc_det tc_shp tc_ini : ndarray) (T : Z)
  : exn + f64 :=
  match getitem tc_prc T with
  | inl e => inl e
  | inr a =>
      match getitem tc_det T with
      | inl e => inl e
      | inr b =>
          match getitem tc_shp T with
          | inl e => inl e
          | inr c =>
              match getitem tc_ini T with
              | inl e => inl e
              | inr d => inr (add64 (add64 (add64 a b) c) d)
              end
          end
      end
  end.

(** [a[::ds]]: every [ds]-th element from the first on for a positive
    step, from the last on backwards for a negative one; [None] is the
    [ValueError] of a zero step. *)
Definition slice_step {A} (l : list A) (ds : Z) : option (list A) :=
  if ds =? 0 then None
  else if 0 <? ds then
    Some (omap (fun k => l !! (k * Z.to_nat ds)%nat)
               (seq 0 (Z.to_nat (ceil_div (Z.of_nat (length l)) ds))))
  else
    Some (omap (fun k => l !! (length l - 1 - k * Z.to_nat (- ds))%nat)
               (seq 0 (Z.to_nat (ceil_div (Z.of_nat (length l)) (- ds))))).

(** [np.arange(n)]. *)
Definition arange (n : nat) : list Z := map Z.of_nat (seq 0 n).

End Timing.

Import Py Np Pipeline Demo.

(** ** Facts about [range] *)

Module PyFacts.
Local Open Scope Z_scope.

Lemma range_length_up (T step : Z) :
  0 < step -> 0 <= T -> range_length 0 T step = ceil_div T step.
Proof.
  intros Hs HT. unfold range_length, ceil_div.
  destruct (Z.ltb_spec 0 step); [|lia].
  destruct (Z.ltb_spec 0 T).
  - replace (T - 0 - 1) with (T - 1) by lia.
    replace (T + step - 1) with (T - 1 + 1 * step) by lia.
    rewrite Z.div_add by lia. reflexivity.
  - assert (T = 0) by lia. subst T.
    symmetry. apply Z.div_small. lia.
Qed.

Lemma range_up (T step : Z) :
  0 < step -> 0 <= T -> range 0 T step = Some (starts T step).
Proof.
  intros Hs HT. unfold range, starts.
  destruct (Z.eqb_spec step 0); [lia|].
  rewrite range_length_up by assumption. reflexivity.
Qed.

Lemma range_down (T step : Z) :
  step < 0 -> 0 <= T -> range 0 T step = Some [].
Proof.
  intros Hs HT. unfold range, range_length.
  destruct (Z.eqb_spec step 0); [lia|].
  destruct (Z.ltb_spec 0 step); [lia|].
  destruct (Z.ltb_spec T 0); [lia|]. reflexivity.
Qed.

Lemma ceil_div_nonneg (T step : Z) : 0 < step -> 0 <= T -> 0 <= ceil_div T step.
Proof. intros. unfold ceil_div. apply Z.div_pos; lia. Qed.

Lemma ceil_div_bounds (T step : Z) :
  0 < step -> 0 <= T ->
  (ceil_div T step - 1) * step < T <= ceil_div T step * step \/ (T = 0 /\ ceil_div T step = 0).
Proof.
  intros Hs HT. unfold ceil_div.
  pose proof (Z.div_mod (T + step - 1) step ltac:(lia)) as E.
  pose proof (Z.mod_pos_bound (T + step - 1) step Hs) as B.
  destruct (Z.eq_dec T 0) as [->|].
  - right. split; [reflexivity|]. apply Z.div_small. lia.
  - left. nia.
Qed.

Lemma elem_of_starts (T step i : Z) :
  0 < step -> 0 <= T ->
  i ∈ starts T step <-> (0 <= i < T /\ i mod step = 0).
Proof.
  intros Hs HT. unfold starts. rewrite list_elem_of_fmap.
  pose proof (ceil_div_bounds T step Hs HT) as B.
  pose proof (ceil_div_nonneg T step Hs HT) as N.
  split.
  - intros (k & -> & Hk). apply elem_of_seq in Hk.
    split; [|apply Z.mod_mul; lia]. nia.
  - intros [Hi Hm]. exists (Z.to_nat (i / step)).
    assert (i = step * (i / step)) as E.
    { pose proof (Z.div_mod i step ltac:(lia)). lia. }
    assert (0 <= i / step) by (apply Z.div_pos; lia).
    split; [rewrite Z2Nat.id by lia; lia|].
    apply elem_of_seq. split; [lia|]. simpl.
    apply Nat2Z.inj_lt. rewrite !Z2Nat.id by lia. nia.
Qed.

Lemma starts_length (T step : Z) :
  length (starts T step) = Z.to_nat (ceil_div T step).
Proof. unfold starts. rewrite length_map, length_seq. reflexivity. Qed.

Lemma starts_lookup (T step : Z) (k : nat) (i : Z) :
  starts T step !! k = Some i ->
  i = Z.of_nat k * step /\ (k < Z.to_nat (ceil_div T step))%nat.
Proof.
  unfold starts. rewrite list_lookup_fmap. intros H.
  destruct (seq 0 (Z.to_nat (ceil_div T step)) !! k) as [k'|] eqn:E; [|discriminate].
  apply lookup_seq in E as [-> ?]. simpl in H. inversion H. split; [reflexivity|lia].
Qed.

Lemma starts_NoDup (T step : Z) : 0 < step -> NoDup (starts T step).
Proof.
  intros Hs. unfold starts. apply NoDup_fmap_2; [|apply NoDup_seq].
  intros a b E. nia.
Qed.

End PyFacts.

Import PyFacts.

Module FormatFacts.
Local Open Scope Z_scope.

Lemma digit_val (d : Z) :
  0 <= d < 10 -> Z.of_nat (nat_of_ascii (digit d)) - 48 = d.
Proof.
  intros H. unfold digit. rewrite nat_ascii_embedding; lia.
Qed.

Lemma pow10_pos (k : nat) : 0 < 10 ^ Z.of_nat k.
Proof. apply Z.pow_pos_nonneg; lia. Qed.

Lemma pow10_succ (k : nat) : 10 ^ Z.of_nat (S k) = 10 * 10 ^ Z.of_nat k.
Proof. rewrite Nat2Z.inj_succ, Z.pow_succ_r; lia. Qed.

Lemma lead_digit (k : nat) (n : Z) :
  0 <= n < 10 ^ Z.of_nat (S k) -> 0 <= n / 10 ^ Z.of_nat k < 10.
Proof.
  intros H. rewrite pow10_succ in H. pose proof (pow10_pos k).
  split; [apply Z.div_pos; lia|]. apply Z.div_lt_upper_bound; lia.
Qed.

Lemma parse_fixed (k : nat) : forall n acc,
  0 <= n < 10 ^ Z.of_nat k ->
  parse (fixed k n) acc = acc * 10 ^ Z.of_nat k + n.
Proof.
  induction k as [|k IH]; intros n acc H.
  - simpl in *. lia.
  - cbn [fixed parse].
    rewrite digit_val by (apply lead_digit; assumption).
    pose proof (pow10_pos k) as P.
    rewrite IH by (apply Z.mod_pos_bound; lia).
    rewrite pow10_succ.
    pose proof (Z.div_mod n (10 ^ Z.of_nat k) ltac:(lia)). nia.
Qed.

Lemma append_nil (b : string) : "" +:+ b = b.
Proof. reflexivity. Qed.

Lemma append_cons (x : ascii) (a b : string) :
  String x a +:+ b = String x (a +:+ b).
Proof. reflexivity. Qed.

Lemma parse_app (a b : string) : forall acc,
  parse (a +:+ b) acc = parse b (parse a acc).
Proof.
  induction a as [|c a IH]; intros acc; [reflexivity|].
  rewrite append_cons. cbn [parse]. apply IH.
Qed.

Lemma length_fixed (k : nat) (n : Z) : String.length (fixed k n) = k.
Proof. revert n. induction k as [|k IH]; intros n; simpl; [reflexivity|]. f_equal. apply IH. Qed.

Lemma ndigits_aux_le (fuel : nat) : forall (k : nat) n,
  (1 <= k)%nat -> n < 10 ^ Z.of_nat k -> (ndigits_aux fuel n <= k)%nat.
Proof.
  induction fuel as [|f IH]; intros k n Hk Hn; simpl; [lia|].
  destruct (Z.ltb_spec n 10); [lia|].
  destruct k as [|k]; [lia|]. rewrite pow10_succ in Hn.
  destruct k as [|k]; [simpl in Hn; lia|].
  apply le_n_S, IH; [lia|].
  apply Z.div_lt_upper_bound; lia.
Qed.

Lemma ndigits_aux_bound (fuel : nat) : forall n,
  0 <= n < 2 ^ (Z.of_nat fuel + 1) -> n < 10 ^ Z.of_nat (ndigits_aux fuel n).
Proof.
  induction fuel as [|f IH]; intros n Hn.
  - simpl in *. lia.
  - cbn [ndigits_aux]. destruct (Z.ltb_spec n 10); [simpl; lia|].
    rewrite pow10_succ.
    assert (0 <= n / 10 < 2 ^ (Z.of_nat f + 1)) as B.
    { split; [apply Z.div_pos; lia|].
      apply Z.div_lt_upper_bound; [lia|].
      rewrite Nat2Z.inj_succ in Hn.
      replace (Z.succ (Z.of_nat f) + 1) with (Z.succ (Z.of_nat f + 1)) in Hn by lia.
      rewrite Z.pow_succ_r in Hn by lia. lia. }
    specialize (IH _ B).
    pose proof (Z.div_mod n 10 ltac:(lia)).
    pose proof (Z.mod_pos_bound n 10 ltac:(lia)). lia.
Qed.

Lemma ndigits_bound (n : Z) : 0 <= n -> n < 10 ^ Z.of_nat (ndigits n).
Proof.
  intros Hn. unfold ndigits. apply ndigits_aux_bound.
  split; [assumption|].
  destruct (Z.eq_dec n 0) as [->|]; [simpl; lia|].
  rewrite Z2Nat.id by apply Z.log2_nonneg.
  pose proof (Z.log2_spec n ltac:(lia)). 
  replace (Z.log2 n + 1) with (Z.succ (Z.log2 n)) by lia. lia.
Qed.

Lemma pow10_mono (a b : nat) : (a <= b)%nat -> 10 ^ Z.of_nat a <= 10 ^ Z.of_nat b.
Proof. intros. apply Z.pow_le_mono_r; lia. Qed.

(** A non-negative index is printed with at least five digits, all of
    its own. *)
Lemma format_05d_nonneg (n : Z) :
  0 <= n ->
  exists k : nat, (5 <= k)%nat /\ n < 10 ^ Z.of_nat k /\ format_05d n = fixed k n.
Proof.
  intros Hn. unfold format_05d. destruct (Z.ltb_spec n 0); [lia|].
  exists (Nat.max 5 (ndigits n)). split; [lia|]. split; [|reflexivity].
  eapply Z.lt_le_trans; [apply ndigits_bound; assumption|].
  apply pow10_mono. lia.
Qed.

Lemma format_05d_small (n : Z) :
  0 <= n < 10 ^ 5 -> format_05d n = fixed 5 n.
Proof.
  intros Hn. unfold format_05d. destruct (Z.ltb_spec n 0); [lia|].
  replace (Nat.max 5 (ndigits n)) with 5%nat; [reflexivity|].
  pose proof (ndigits_aux_le (Z.to_nat (Z.log2 n)) 5 n ltac:(lia) ltac:(simpl; lia)).
  unfold ndigits. lia.
Qed.

Lemma parse_format_05d (n acc : Z) :
  0 <= n ->
  exists k : nat,
    parse (format_05d n) acc = acc * 10 ^ Z.of_nat k + n /\
    n < 10 ^ Z.of_nat k /\
    String.length (format_05d n) = k.
Proof.
  intros Hn. destruct (format_05d_nonneg n Hn) as (k & _ & Hk & ->).
  exists k. rewrite parse_fixed by lia. rewrite length_fixed. auto.
Qed.

Lemma format_05d_inj (i j : Z) :
  0 <= i -> 0 <= j -> format_05d i = format_05d j -> i = j.
Proof.
  intros Hi Hj E.
  destruct (parse_format_05d i 0 Hi) as (k & Pi & _ & Li).
  destruct (parse_format_05d j 0 Hj) as (k' & Pj & _ & Lj).
  rewrite E in Pi. lia.
Qed.

Lemma string_app_assoc (a b c : string) : (a +:+ b) +:+ c = a +:+ (b +:+ c).
Proof.
  induction a as [|x a IH]; [reflexivity|].
  rewrite !append_cons. f_equal. apply IH.
Qed.

Lemma string_app_inv_tail (t : string) : forall a b : string,
  String.length a = String.length b -> a +:+ t = b +:+ t -> a = b.
Proof.
  induction a as [|x a IH]; intros [|y b] L E; simpl in L; try discriminate; [reflexivity|].
  rewrite !append_cons in E. inversion E. f_equal. apply IH; [lia|assumption].
Qed.

Lemma string_length_app (a b : string) :
  String.length (a +:+ b) = (String.length a + String.length b)%nat.
Proof.
  induction a as [|x a IH]; [reflexivity|].
  rewrite append_cons. simpl. f_equal. apply IH.
Qed.

Lemma temp_file_eq (w : world) (i : Z) :
  temp_file w i = name_prefix (fld_name w) +:+ format_05d i +:+ ".h5".
Proof.
  unfold temp_file, batch_name, os_path_join, name_prefix.
  cbn [startswith_sep String.append Ascii.eqb].
  simpl. destruct (String.eqb (fld_name w) "" || endswith_sep (fld_name w)).
  - rewrite string_app_assoc. reflexivity.
  - rewrite !string_app_assoc. reflexivity.
Qed.

Lemma temp_file_inj (w : world) (i j : Z) :
  0 <= i -> 0 <= j -> temp_file w i = temp_file w j -> i = j.
Proof.
  intros Hi Hj E. rewrite !temp_file_eq in E.
  apply String.app_inj in E.
  apply format_05d_inj; [assumption..|].
  apply (string_app_inv_tail ".h5"); [|assumption].
  apply (f_equal String.length) in E. rewrite !string_length_app in E. lia.
Qed.

End FormatFacts.

Import FormatFacts.

Module OrderFacts.
Local Open Scope Z_scope.

Lemma ascii_compare_refl (c : ascii) : Ascii.compare c c = Eq.
Proof. unfold Ascii.compare. apply N.compare_refl. Qed.

Lemma string_compare_refl (s : string) : String.compare s s = Eq.
Proof.
  induction s as [|c s IH]; [reflexivity|].
  cbn [String.compare]. rewrite ascii_compare_refl. exact IH.
Qed.

Lemma string_compare_app (p a b : string) :
  String.compare (p +:+ a) (p +:+ b) = String.compare a b.
Proof.
  induction p as [|c p IH]; [reflexivity|].
  rewrite !append_cons. cbn [String.compare].
  rewrite ascii_compare_refl. exact IH.
Qed.

Lemma digit_compare (x y : Z) :
  0 <= x < 10 -> 0 <= y < 10 -> Ascii.compare (digit x) (digit y) = (x ?= y).
Proof.
  intros Hx Hy. unfold Ascii.compare.
  assert (forall d, 0 <= d < 10 -> N_of_ascii (digit d) = Z.to_N (48 + d)) as E.
  { intros d Hd. rewrite <- (N2Nat.id (N_of_ascii (digit d))).
    change (N.to_nat (N_of_ascii (digit d))) with (nat_of_ascii (digit d)).
    pose proof (digit_val d Hd) as V.
    apply N2Z.inj. rewrite nat_N_Z, Z2N.id by lia.
    revert V. generalize (nat_of_ascii (digit d)). intros n V. lia. }
  rewrite !E by assumption.
  rewrite Z2N.inj_compare by lia.
  apply Z.add_compare_mono_l.
Qed.

Lemma fixed_compare_lt (k : nat) : forall (a b : Z) (s t : string),
  0 <= a -> a < b -> b < 10 ^ Z.of_nat k ->
  String.compare (fixed k a +:+ s) (fixed k b +:+ t) = Lt.
Proof.
  induction k as [|k IH]; intros a b s t Ha Hab Hb.
  - simpl in Hb. lia.
  - cbn [fixed]. rewrite !append_cons. cbn [String.compare].
    pose proof (pow10_pos k) as P.
    pose proof (lead_digit k a ltac:(lia)) as Da.
    pose proof (lead_digit k b ltac:(lia)) as Db.
    rewrite digit_compare by assumption.
    pose proof (Z.div_mod a (10 ^ Z.of_nat k) ltac:(lia)) as Ea.
    pose proof (Z.div_mod b (10 ^ Z.of_nat k) ltac:(lia)) as Eb.
    pose proof (Z.mod_pos_bound a (10 ^ Z.of_nat k) P) as Ba.
    pose proof (Z.mod_pos_bound b (10 ^ Z.of_nat k) P) as Bb.
    destruct (Z.compare_spec (a / 10 ^ Z.of_nat k) (b / 10 ^ Z.of_nat k)) as [E|L|G].
    + apply IH; [lia| |lia]. rewrite E in Ea. lia.
    + reflexivity.
    + exfalso. nia.
Qed.

(** Below 100000 the names are five digits wide and sort like the
    indices. *)
Lemma temp_file_ltb (w : world) (i j : Z) :
  0 <= i -> i < j -> j < 10 ^ 5 ->
  String.ltb (temp_file w i) (temp_file w j) = true.
Proof.
  intros Hi Hij Hj. unfold String.ltb. rewrite !temp_file_eq.
  rewrite string_compare_app, !format_05d_small by lia.
  rewrite (fixed_compare_lt 5) by (simpl; lia). reflexivity.
Qed.

End OrderFacts.

Import OrderFacts.

(** ** Facts about indices and arrays *)

Module NpFacts.

Lemma size_of_cons (d : nat) (sh : list nat) : size_of (d :: sh) = d * size_of sh.
Proof. reflexivity. Qed.

Lemma ravel_lt (sh j : list nat) : in_bounds sh j -> ravel sh j < size_of sh.
Proof.
  unfold in_bounds. induction 1 as [|i d j sh Hi _ IH]; [simpl; lia|].
  rewrite size_of_cons. simpl. nia.
Qed.

Lemma unravel_ravel (sh j : list nat) :
  in_bounds sh j -> unravel sh (ravel sh j) = j.
Proof.
  unfold in_bounds. induction 1 as [|i d j sh Hi Hj IH]; [reflexivity|].
  cbn [ravel unravel].
  pose proof (ravel_lt sh j Hj) as L.
  rewrite Nat.div_add_l by lia. rewrite Nat.div_small by assumption.
  rewrite (Nat.add_comm (i * _)), Nat.Div0.mod_add, Nat.mod_small by assumption.
  rewrite IH. f_equal. lia.
Qed.

Lemma ravel_unravel (sh : list nat) : forall k,
  k < size_of sh -> ravel sh (unravel sh k) = k.
Proof.
  induction sh as [|d sh IH]; intros k Hk; [simpl in *; lia|].
  rewrite size_of_cons in Hk. cbn [ravel unravel].
  assert (size_of sh <> 0) as P by nia.
  rewrite IH by (apply Nat.mod_upper_bound; assumption).
  pose proof (Nat.div_mod_eq k (size_of sh)). lia.
Qed.

Lemma in_bounds_unravel (sh : list nat) : forall k,
  k < size_of sh -> in_bounds sh (unravel sh k).
Proof.
  unfold in_bounds.
  induction sh as [|d sh IH]; intros k Hk; [constructor|].
  rewrite size_of_cons in Hk. cbn [unravel].
  assert (size_of sh <> 0) as P by nia.
  constructor.
  - apply Nat.Div0.div_lt_upper_bound. lia.
  - apply IH, Nat.mod_upper_bound; assumption.
Qed.

Lemma in_bounds_length (sh j : list nat) : in_bounds sh j -> length j = length sh.
Proof. apply Forall2_length. Qed.

Lemma length_ndindex (sh : list nat) : length (ndindex sh) = size_of sh.
Proof. unfold ndindex. rewrite length_map, length_seq. reflexivity. Qed.

Lemma lookup_ndindex (sh : list nat) (k : nat) :
  k < size_of sh -> ndindex sh !! k = Some (unravel sh k).
Proof.
  intros Hk. unfold ndindex. rewrite list_lookup_fmap, lookup_seq_lt by assumption.
  reflexivity.
Qed.

Lemma elem_of_ndindex (sh j : list nat) : j ∈ ndindex sh <-> in_bounds sh j.
Proof.
  unfold ndindex. rewrite list_elem_of_fmap. split.
  - intros (k & -> & Hk). apply elem_of_seq in Hk. apply in_bounds_unravel. lia.
  - intros H. exists (ravel sh j). split; [symmetry; apply unravel_ravel; assumption|].
    apply elem_of_seq. pose proof (ravel_lt sh j H). lia.
Qed.

Lemma wf_build (sh : list nat) (f : list nat -> pixel) : wf (build sh f).
Proof. unfold wf, build. simpl. rewrite length_map. apply length_ndindex. Qed.

Lemma data_build_lookup (sh : list nat) (f : list nat -> pixel) (k : nat) :
  k < size_of sh -> data (build sh f) !! k = Some (f (unravel sh k)).
Proof.
  intros Hk. unfold build. simpl.
  rewrite list_lookup_fmap, lookup_ndindex by assumption. reflexivity.
Qed.

Lemma item_build (sh : list nat) (f : list nat -> pixel) (j : list nat) :
  in_bounds sh j -> item (build sh f) j = f j.
Proof.
  intros H. unfold item. rewrite nth_lookup.
  change (shape (build sh f)) with sh.
  rewrite data_build_lookup by (apply ravel_lt; assumption).
  simpl. rewrite unravel_ravel by assumption. reflexivity.
Qed.

(** The elements of an array are its items in index order. *)
Lemma data_item (a : ndarray) :
  wf a -> data a = map (item a) (ndindex (shape a)).
Proof.
  intros W. apply list_eq. intros k.
  rewrite list_lookup_fmap.
  destruct (decide (k < size_of (shape a))) as [Hk|Hk].
  - rewrite lookup_ndindex by assumption. simpl.
    unfold item. rewrite ravel_unravel by assumption.
    rewrite nth_lookup.
    destruct (data a !! k) eqn:E; [reflexivity|].
    apply lookup_ge_None in E. unfold wf in W. lia.
  - rewrite (proj2 (lookup_ge_None _ _)) by (unfold wf in W; lia).
    rewrite (proj2 (lookup_ge_None (ndindex (shape a)) k)) by (rewrite length_ndindex; lia).
    reflexivity.
Qed.

(** Two arrays of one shape with the same items are the same array. *)
Lemma ndarray_ext (a b : ndarray) :
  wf a -> wf b -> shape a = shape b ->
  (forall j, in_bounds (shape a) j -> item a j = item b j) ->
  a = b.
Proof.
  intros Wa Wb S H. destruct a as [sa da], b as [sb db]. simpl in S. subst sb.
  f_equal. pose proof (data_item _ Wa) as Ea. pose proof (data_item _ Wb) as Eb.
  simpl in Ea, Eb. rewrite Ea, Eb.
  apply map_ext_in. intros j Hj. apply H. simpl.
  apply elem_of_ndindex, list_elem_of_In. assumption.
Qed.

Lemma in_bounds3 (n R C t r c : nat) :
  (t < n)%nat -> (r < R)%nat -> (c < C)%nat -> in_bounds [n; R; C] [t; r; c].
Proof. intros. repeat constructor; assumption. Qed.

Lemma in_bounds3_inv (n R C : nat) (j : list nat) :
  in_bounds [n; R; C] j ->
  exists t r c, j = [t; r; c] /\ (t < n)%nat /\ (r < R)%nat /\ (c < C)%nat.
Proof.
  intros H. unfold in_bounds in H.
  inversion H as [|t ? j1 ? Ht H1]; subst.
  inversion H1 as [|r ? j2 ? Hr H2]; subst.
  inversion H2 as [|c ? j3 ? Hc H3]; subst.
  inversion H3; subst. eauto 10.
Qed.

(** Column-major positions. *)
Lemma ravel_F_lt (sh j : list nat) : in_bounds sh j -> ravel_F sh j < size_of sh.
Proof.
  unfold in_bounds. induction 1 as [|i d j sh Hi _ IH]; [simpl; lia|].
  rewrite size_of_cons. simpl. nia.
Qed.

Lemma unravel_F_ravel_F (sh j : list nat) :
  in_bounds sh j -> unravel_F sh (ravel_F sh j) = j.
Proof.
  unfold in_bounds. induction 1 as [|i d j sh Hi Hj IH]; [reflexivity|].
  cbn [ravel_F unravel_F].
  rewrite (Nat.mul_comm d), Nat.Div0.mod_add, Nat.mod_small by assumption.
  rewrite Nat.div_add by lia. rewrite Nat.div_small by assumption.
  simpl. rewrite IH. reflexivity.
Qed.

Lemma in_bounds_unravel_F (sh : list nat) : forall k,
  k < size_of sh -> in_bounds sh (unravel_F sh k).
Proof.
  unfold in_bounds.
  induction sh as [|d sh IH]; intros k Hk; [constructor|].
  rewrite size_of_cons in Hk. cbn [unravel_F].
  assert (d <> 0) as P by nia.
  constructor.
  - apply Nat.mod_upper_bound; assumption.
  - apply IH. apply Nat.Div0.div_lt_upper_bound. lia.
Qed.

End NpFacts.

Import NpFacts.

(** ** Facts about broadcasting, [np.maximum] and slicing *)

Module BroadcastFacts.

Lemma bidx_same_length (s j : list nat) :
  length j = length s ->
  bidx s j = zip_with (fun d i => if (d =? 1)%nat then 0 else i) s j.
Proof. intros E. unfold bidx. rewrite E, Nat.sub_diag. reflexivity. Qed.

Lemma bidx_self (s j : list nat) : in_bounds s j -> bidx s j = j.
Proof.
  intros H. rewrite bidx_same_length by (apply in_bounds_length; assumption).
  unfold in_bounds in H. induction H as [|i d j s Hi _ IH]; [reflexivity|].
  simpl. rewrite IH. destruct (Nat.eqb_spec d 1); [f_equal; lia|reflexivity].
Qed.

Lemma bidx_cons (s : list nat) (i : nat) (j : list nat) :
  length s <= length j -> bidx s (i :: j) = bidx s j.
Proof.
  intros L. unfold bidx. simpl length.
  replace (S (length j) - length s) with (S (length j - length s)) by lia.
  reflexivity.
Qed.

Lemma broadcast_rev_same (r : list nat) : broadcast_rev r r = Some r.
Proof.
  induction r as [|a r IH]; [reflexivity|].
  simpl. rewrite Nat.eqb_refl, IH. reflexivity.
Qed.

Lemma broadcast_rev_nil_r (r : list nat) : broadcast_rev r [] = Some r.
Proof. destruct r; reflexivity. Qed.

Lemma broadcast_rev_app (r x : list nat) : broadcast_rev (r ++ x) r = Some (r ++ x).
Proof.
  induction r as [|a r IH]; [apply broadcast_rev_nil_r|].
  simpl. rewrite Nat.eqb_refl, IH. reflexivity.
Qed.

Lemma broadcast_shapes_same (s : list nat) : broadcast_shapes s s = Some s.
Proof.
  unfold broadcast_shapes. rewrite broadcast_rev_same. simpl.
  rewrite reverse_involutive. reflexivity.
Qed.

Lemma broadcast_shapes_scalar (s : list nat) : broadcast_shapes s [] = Some s.
Proof.
  unfold broadcast_shapes. rewrite reverse_nil, broadcast_rev_nil_r. simpl.
  rewrite reverse_involutive. reflexivity.
Qed.

Lemma broadcast_shapes_lead (s : list nat) (d : nat) :
  broadcast_shapes (d :: s) s = Some (d :: s).
Proof.
  unfold broadcast_shapes. rewrite reverse_cons, broadcast_rev_app. simpl.
  rewrite <- reverse_cons, reverse_involutive. reflexivity.
Qed.

Lemma shape_broadcast2 f (a b c : ndarray) :
  broadcast2 f a b = Some c -> broadcast_shapes (shape a) (shape b) = Some (shape c) /\ wf c.
Proof.
  unfold broadcast2. destruct (broadcast_shapes (shape a) (shape b)); [|discriminate].
  intros E. inversion E. split; [reflexivity|apply wf_build].
Qed.

Lemma item_broadcast2 f (a b c : ndarray) (j : list nat) :
  broadcast2 f a b = Some c -> in_bounds (shape c) j ->
  item c j = f (item a (bidx (shape a) j)) (item b (bidx (shape b) j)).
Proof.
  unfold broadcast2. destruct (broadcast_shapes (shape a) (shape b)); [|discriminate].
  intros E H. inversion E. subst c. simpl in H. apply item_build. assumption.
Qed.

(** [np.maximum(d, 0)] keeps the shape and clamps every element. *)
Lemma maximum_scalar (d : ndarray) (z : pixel) :
  maximum d (scalar z) =
  Some (build (shape d) (fun j => fmax (item d (bidx (shape d) j)) z)).
Proof.
  unfold maximum, broadcast2. simpl shape. rewrite broadcast_shapes_scalar.
  reflexivity.
Qed.

Lemma item_maximum_scalar (d : ndarray) (z : pixel) (m : ndarray) (j : list nat) :
  maximum d (scalar z) = Some m -> in_bounds (shape d) j ->
  shape m = shape d /\ item m j = fmax (item d j) z.
Proof.
  rewrite maximum_scalar. intros E H. inversion E. subst m. split; [reflexivity|].
  rewrite item_build by assumption. rewrite bidx_self by assumption. reflexivity.
Qed.

(** Clamping at zero: the result is the operand when that is NaN or not
    below zero, and zero otherwise. *)
Lemma fmax_zero (x : pixel) :
  (is_nan (fmax x fzero) = true /\ is_nan x = true) \/
  (is_nan (fmax x fzero) = false /\ ge0 (fmax x fzero) = true).
Proof.
  destruct x as [[]|[]| |[] m e]; cbv; auto.
Qed.

Lemma maximum_zero_data (d m : ndarray) :
  maximum d (scalar fzero) = Some m ->
  Forall (fun v => is_nan v = true \/ ge0 v = true) (data m).
Proof.
  rewrite maximum_scalar. intros E. inversion E. subst m. unfold build. simpl.
  apply Forall_fmap, Forall_forall. intros j _. simpl.
  destruct (fmax_zero (item d (bidx (shape d) j))) as [[? _]|[_ ?]]; auto.
Qed.

(** The first axis survives the subtraction of the squeezed model output:
    whatever [np.squeeze] removes, a result that broadcasts has as many
    frames as the batch. *)
Lemma broadcast_squeeze_frames (n R C : nat) (s : list nat) :
  broadcast_shapes [n; R; C]
    (List.filter (fun d => negb (d =? 1)%nat) [n; R; C; 1]) = Some s ->
  hd 0 s = n.
Proof.
  unfold broadcast_shapes. cbn [List.filter].
  destruct (Nat.eqb_spec n 1), (Nat.eqb_spec R 1), (Nat.eqb_spec C 1);
    change (1 =? 1)%nat with true;
    cbn [negb reverse rev_append broadcast_rev]; subst;
    repeat (rewrite ?Nat.eqb_refl;
            try match goal with
            | |- context [(?a =? ?b)%nat] =>
                destruct (Nat.eqb_spec a b); try lia; subst
            end;
            cbn [negb reverse rev_append broadcast_rev fmap option_fmap option_map]);
    intros E; try discriminate; inversion E; reflexivity.
Qed.

(** With at least two rows and two columns the shapes line up. *)
Lemma broadcast_squeeze_shape (n R C : nat) :
  1 <= n -> 2 <= R -> 2 <= C ->
  broadcast_shapes [n; R; C]
    (List.filter (fun d => negb (d =? 1)%nat) [n; R; C; 1]) = Some [n; R; C].
Proof.
  intros Hn HR HC. cbn [List.filter].
  destruct (Nat.eqb_spec R 1); [lia|]. destruct (Nat.eqb_spec C 1); [lia|].
  change (1 =? 1)%nat with true.
  destruct (Nat.eqb_spec n 1); subst; cbn [negb].
  - apply broadcast_shapes_lead.
  - apply broadcast_shapes_same.
Qed.

End BroadcastFacts.

Import BroadcastFacts.

(** ** Facts about the cells *)

Module CellFacts.
Local Open Scope Z_scope.

Lemma slice0_movie (Y : ndarray) (T R C : nat) (i bl : Z) :
  is_movie Y T R C -> 0 <= i <= Z.of_nat T -> 0 <= bl ->
  exists a, slice0 Y i (i + bl) = Some a /\
            is_movie a (batch_len (Z.of_nat T) bl i) R C.
Proof.
  intros [S W] Hi Hbl. unfold slice0. rewrite S.
  unfold slice_bound.
  destruct (Z.ltb_spec i 0); [lia|]. destruct (Z.ltb_spec (i + bl) 0); [lia|].
  rewrite (Z.min_l i) by lia.
  eexists. split; [reflexivity|]. split; [reflexivity|].
  unfold wf, batch_len in *. simpl shape. simpl data.
  rewrite length_take, length_drop, W, S, !size_of_cons.
  change (size_of []) with 1%nat.
  set (P := (R * (C * 1))%nat).
  set (n := Z.to_nat (Z.min (i + bl) (Z.of_nat T) - i)).
  assert (Z.to_nat i + n <= T)%nat by lia.
  clearbody P n. apply Nat.min_l. nia.
Qed.

(** The shape of what an iteration saves. *)
Lemma filtered_shape (w : world) (T R C : nat) (bl i : Z) (a : ndarray) :
  is_movie (source w) T R C -> model_ok w -> 0 <= i <= Z.of_nat T -> 0 <= bl ->
  filtered w bl i = Some a ->
  wf a /\ frames a = batch_len (Z.of_nat T) bl i /\
  broadcast_shapes [batch_len (Z.of_nat T) bl i; R; C]
    (List.filter (fun d => negb (d =? 1)%nat) [batch_len (Z.of_nat T) bl i; R; C; 1%nat])
  = Some (shape a).
Proof.
  intros HY HM Hi Hbl. unfold filtered.
  destruct (slice0_movie _ _ _ _ i bl HY Hi Hbl) as (images & -> & [S W]).
  destruct (predict w (expand_dims_last images)) as [y|] eqn:P; [|discriminate].
  apply HM in P. simpl in P. rewrite S in P.
  destruct (subtract images (squeeze y)) as [d|] eqn:D; [|discriminate].
  rewrite maximum_scalar. intros E. inversion E. clear E.
  apply shape_broadcast2 in D as [D _].
  unfold squeeze in D. simpl shape in D. rewrite S, P in D. simpl app in D.
  split; [apply wf_build|]. simpl shape.
  split; [|exact D].
  unfold frames. simpl shape. apply (broadcast_squeeze_frames _ R C). exact D.
Qed.

(** *** One iteration *)

Ltac elem_here := repeat first [apply list_elem_of_here | apply list_elem_of_further].

Ltac elem_absurd :=
  let H := fresh in
  intros H; repeat (apply elem_of_cons in H as [H|H]; [discriminate|]);
  apply elem_of_nil in H; exact H.

Ltac unfold_body :=
  unfold body, cm_load, model_predict, append_saved, movie_save,
    write_file, cm_movie, bind, log, lift, ret, raise; simpl.

Lemma body_ok (w : world) (bl i : Z) (st st' : state) :
  body w bl i st = (st', inr tt) ->
  exists a, filtered w bl i = Some a /\
    load_ok w i (i + bl) = true /\
    save_ok w (fs st) (temp_file w i) = true /\
    st' = mk_state (<[temp_file w i := H5 a]> (fs st))
                   (saved_files st ++ [temp_file w i])
                   (trace st ++ batch_events i).
Proof.
  unfold filtered. unfold_body.
  destruct (load_ok w i (i + bl)); simpl; [|discriminate].
  destruct (slice0 (source w) i (i + bl)) as [images|]; simpl; [|discriminate].
  destruct (predict w (expand_dims_last images)) as [y|]; simpl; [|discriminate].
  destruct (subtract images (squeeze y)) as [d|]; simpl; [|discriminate].
  destruct (maximum d (scalar fzero)) as [m|]; simpl; [|discriminate].
  destruct (save_ok w (fs st) (temp_file w i)); simpl; [|discriminate].
  intros E. inversion E. exists m. repeat split.
  rewrite <- !app_assoc. reflexivity.
Qed.

Lemma body_run (w : world) (bl i : Z) (st : state) (a : ndarray) :
  filtered w bl i = Some a ->
  load_ok w i (i + bl) = true ->
  save_ok w (fs st) (temp_file w i) = true ->
  body w bl i st =
    (mk_state (<[temp_file w i := H5 a]> (fs st))
              (saved_files st ++ [temp_file w i])
              (trace st ++ batch_events i), inr tt).
Proof.
  unfold filtered. unfold_body.
  intros F L S. rewrite L. simpl.
  destruct (slice0 (source w) i (i + bl)) as [images|]; simpl; [|discriminate].
  destruct (predict w (expand_dims_last images)) as [y|]; simpl; [|discriminate].
  destruct (subtract images (squeeze y)) as [d|]; simpl; [|discriminate].
  rewrite F. simpl. rewrite S. rewrite <- !app_assoc. reflexivity.
Qed.

(** A failed iteration: nothing is written; the statements executed are
    the first ones of the iteration, each once; the path is on the list
    as soon as the append has run. *)
Lemma body_fail (w : world) (bl i : Z) (st st' : state) (e : exn) :
  body w bl i st = (st', inl e) ->
  fs st' = fs st /\
  exists evs, trace st' = trace st ++ evs /\
    evs `prefix_of` batch_events i /\ evs <> [] /\
    saved_files st' =
      saved_files st ++ (if decide (EvRecord i ∈ evs) then [temp_file w i] else []).
Proof.
  unfold batch_events. unfold_body.
  destruct (load_ok w i (i + bl)); simpl.
  2:{ intros E; inversion E; subst; simpl. split; [reflexivity|].
      exists [EvLoad i]. split; [reflexivity|]. split; [by eexists|].
      split; [discriminate|]. rewrite decide_False by elem_absurd.
      rewrite app_nil_r. reflexivity. }
  destruct (slice0 (source w) i (i + bl)) as [images|]; simpl.
  2:{ intros E; inversion E; subst; simpl. split; [reflexivity|].
      exists [EvLoad i]. split; [reflexivity|]. split; [by eexists|].
      split; [discriminate|]. rewrite decide_False by elem_absurd.
      rewrite app_nil_r. reflexivity. }
  destruct (predict w (expand_dims_last images)) as [y|]; simpl.
  2:{ intros E; inversion E; subst; simpl. split; [reflexivity|].
      exists [EvLoad i; EvPredict i]. rewrite <- app_assoc.
      split; [reflexivity|]. split; [by eexists|].
      split; [discriminate|]. rewrite decide_False by elem_absurd.
      rewrite app_nil_r. reflexivity. }
  destruct (subtract images (squeeze y)) as [d|]; simpl.
  2:{ intros E; inversion E; subst; simpl. split; [reflexivity|].
      exists [EvLoad i; EvPredict i; EvRecord i]. rewrite <- !app_assoc.
      split; [reflexivity|]. split; [by eexists|].
      split; [discriminate|]. rewrite decide_True by elem_here.
      reflexivity. }
  destruct (maximum d (scalar fzero)) as [m|]; simpl.
  2:{ intros E; inversion E; subst; simpl. split; [reflexivity|].
      exists [EvLoad i; EvPredict i; EvRecord i]. rewrite <- !app_assoc.
      split; [reflexivity|]. split; [by eexists|].
      split; [discriminate|]. rewrite decide_True by elem_here.
      reflexivity. }
  destruct (save_ok w (fs st) (temp_file w i)); simpl; [discriminate|].
  intros E; inversion E; subst; simpl. split; [reflexivity|].
  exists [EvLoad i; EvPredict i; EvRecord i; EvSave i]. rewrite <- !app_assoc.
  split; [reflexivity|]. split; [by exists []|].
  split; [discriminate|]. rewrite decide_True by elem_here. reflexivity.
Qed.

(** *** The loop *)

Lemma written_snoc (w : world) (bl : Z) (l : list Z) (i : Z) fs0 :
  written w bl (l ++ [i]) fs0 =
  match filtered w bl i with
  | Some a => <[temp_file w i := H5 a]> (written w bl l fs0)
  | None => written w bl l fs0
  end.
Proof. unfold written. rewrite foldl_app. reflexivity. Qed.

Lemma for_ok (w : world) (bl : Z) (l : list Z) : forall st st',
  for_ l (body w bl) st = (st', inr tt) ->
  Forall (fun i => is_Some (filtered w bl i) /\ load_ok w i (i + bl) = true) l /\
  st' = mk_state (written w bl l (fs st))
                 (saved_files st ++ map (temp_file w) l)
                 (trace st ++ flat_map batch_events l).
Proof.
  induction l as [|i l IH]; intros st st' H.
  - inversion H. subst st'. split; [constructor|].
    destruct st; simpl. rewrite !app_nil_r. reflexivity.
  - cbn [for_] in H. unfold bind at 1 in H.
    destruct (body w bl i st) as [st1 [e|[]]] eqn:B; [discriminate|].
    apply body_ok in B as (a & Fa & La & Sa & ->).
    apply IH in H as [Hall ->]. split.
    + constructor; [split; [by eexists|assumption]|assumption].
    + simpl. unfold written at 2. simpl. rewrite Fa.
      rewrite <- !app_assoc. reflexivity.
Qed.

Lemma for_fail {X} (body : X -> M unit) (l : list X) : forall st st' e,
  for_ l body st = (st', inl e) ->
  exists l1 x l2 st1,
    l = l1 ++ x :: l2 /\
    for_ l1 body st = (st1, inr tt) /\
    body x st1 = (st', inl e).
Proof.
  induction l as [|x l IH]; intros st st' e H.
  - discriminate.
  - cbn [for_] in H. unfold bind at 1 in H.
    destruct (body x st) as [st1 [e1|[]]] eqn:B.
    + inversion H. subst. exists [], x, l, st. repeat split. assumption.
    + apply IH in H as (l1 & y & l2 & st2 & -> & H1 & H2).
      exists (x :: l1), y, l2, st2. split; [reflexivity|]. split; [|assumption].
      cbn [for_]. unfold bind at 1. rewrite B. assumption.
Qed.

(** What the batch files hold after the loop. *)
Lemma written_other (w : world) (bl : Z) (l : list Z) fs0 (p : string) :
  p ∉ map (temp_file w) l -> written w bl l fs0 !! p = fs0 !! p.
Proof.
  induction l as [|i l IH] using rev_ind; intros Hp; [reflexivity|].
  rewrite map_app in Hp. apply not_elem_of_app in Hp as [Hp1 Hp2].
  rewrite written_snoc.
  destruct (filtered w bl i).
  - rewrite lookup_insert_ne by (intros <-; apply Hp2; apply list_elem_of_here).
    apply IH. assumption.
  - apply IH. assumption.
Qed.

Lemma written_lookup (w : world) (bl : Z) (l : list Z) fs0 (i : Z) (a : ndarray) :
  Forall (fun i => 0 <= i) l -> NoDup l -> i ∈ l ->
  filtered w bl i = Some a ->
  written w bl l fs0 !! temp_file w i = Some (H5 a).
Proof.
  induction l as [|j l IH] using rev_ind; intros Hnn Hnd Hi Fa;
    [apply elem_of_nil in Hi; contradiction|].
  apply Forall_app in Hnn as [Hnn Hj]. rewrite Forall_singleton in Hj.
  apply NoDup_app in Hnd as (Hnd & Hdisj & _).
  rewrite written_snoc.
  apply elem_of_app in Hi as [Hi|Hi].
  - assert (temp_file w j <> temp_file w i) as Hne.
    { intros E.
      assert (0 <= i) as Hi0 by (rewrite Forall_forall in Hnn; apply (Hnn i); assumption).
      apply temp_file_inj in E; try lia.
      subst j. apply (Hdisj i Hi). apply list_elem_of_here. }
    destruct (filtered w bl j); [rewrite lookup_insert_ne by assumption|]; apply IH; assumption.
  - apply list_elem_of_singleton in Hi. subst j. rewrite Fa. apply lookup_insert_eq.
Qed.

End CellFacts.

Import CellFacts.

Module RunFacts.
Local Open Scope Z_scope.

Lemma T_total_nonneg (w : world) : 0 <= T_total w.
Proof. unfold T_total. lia. Qed.

Lemma T_total_movie (w : world) (T R C : nat) :
  is_movie (source w) T R C -> T_total w = Z.of_nat T.
Proof. intros [S _]. unfold T_total, frames. rewrite S. reflexivity. Qed.

(** Cell 19 is the loop over the multiples of [batch_length] below [T],
    started with an empty list. *)
Lemma cell19_eq (w : world) (bl : Z) (st : state) :
  0 < bl ->
  cell19 w bl st =
  for_ (starts (T_total w) bl) (body w bl) (mk_state (fs st) [] (trace st)).
Proof.
  intros Hbl. unfold cell19, bind, set_saved_files, lift.
  rewrite range_up by (auto using T_total_nonneg). reflexivity.
Qed.

Lemma starts_nonneg (T bl : Z) : 0 < bl -> Forall (fun i => 0 <= i) (starts T bl).
Proof.
  intros Hbl. apply Forall_forall. intros i Hi. unfold starts in Hi.
  apply list_elem_of_fmap in Hi as (k & -> & _). nia.
Qed.

Lemma starts_in_range (T bl i : Z) :
  0 < bl -> 0 <= T -> i ∈ starts T bl -> 0 <= i < T.
Proof. intros Hbl HT Hi. apply elem_of_starts in Hi; tauto. Qed.

Lemma cell19_ok (w : world) (bl : Z) (st st' : state) :
  0 < bl ->
  cell19 w bl st = (st', inr tt) ->
  Forall (fun i => is_Some (filtered w bl i) /\ load_ok w i (i + bl) = true)
         (starts (T_total w) bl) /\
  st' = mk_state (written w bl (starts (T_total w) bl) (fs st))
                 (map (temp_file w) (starts (T_total w) bl))
                 (trace st ++ flat_map batch_events (starts (T_total w) bl)).
Proof.
  intros Hbl H. rewrite cell19_eq in H by assumption.
  apply for_ok in H. exact H.
Qed.

Lemma omap_cons {A B} (f : A -> option B) (x : A) (l : list A) :
  omap f (x :: l) = match f x with Some y => y :: omap f l | None => omap f l end.
Proof. reflexivity. Qed.

(** The arrays read back from the batch files are the filtered batches,
    in loop order. *)
Lemma batches_written (w : world) (bl : Z) (l : list Z) fs0 tr :
  Forall (fun i => 0 <= i) l -> NoDup l ->
  Forall (fun i => is_Some (filtered w bl i)) l ->
  batches_of (mk_state (written w bl l fs0) (map (temp_file w) l) tr)
             (map (temp_file w) l)
  = omap (filtered w bl) l.
Proof.
  intros Hnn Hnd Hs. unfold batches_of. simpl fs.
  assert (forall l', l' ⊆ l ->
    omap (fun p => match written w bl l fs0 !! p with
                   | Some (H5 a) => Some a | _ => None end)
         (map (temp_file w) l') = omap (filtered w bl) l') as G.
  { induction l' as [|i l' IH]; intros Hsub; [reflexivity|].
    assert (i ∈ l) as Hi by (apply Hsub, list_elem_of_here).
    rewrite Forall_forall in Hs. destruct (Hs i Hi) as [a Fa].
    cbn [map]. rewrite !omap_cons.
    rewrite (written_lookup w bl l fs0 i a Hnn Hnd Hi Fa), Fa.
    rewrite IH by (intros x Hx; apply Hsub, list_elem_of_further, Hx).
    reflexivity. }
  apply G. reflexivity.
Qed.

Lemma length_omap_all {A B} (f : A -> option B) (l : list A) :
  Forall (fun x => is_Some (f x)) l -> length (omap f l) = length l.
Proof.
  induction 1 as [|x l [y Hy] _ IH]; [reflexivity|].
  rewrite omap_cons, Hy. simpl. f_equal. exact IH.
Qed.

(** *** Frame accounting *)

Lemma sum_batch_len (T bl : Z) (n : nat) :
  0 < bl -> 0 <= T -> Z.of_nat n <= ceil_div T bl ->
  Z.of_nat (sum_list (map (fun k => batch_len T bl (Z.of_nat k * bl)) (seq 0 n)))
  = Z.min (Z.of_nat n * bl) T.
Proof.
  intros Hbl HT. induction n as [|n IH]; intros Hn.
  - simpl. lia.
  - rewrite seq_S, map_app, sum_list_with_app. cbn [map sum_list_with].
    rewrite Nat.add_0_r, Nat2Z.inj_add, IH by lia.
    destruct (ceil_div_bounds T bl Hbl HT) as [B|[-> B]]; [|lia].
    unfold batch_len. simpl (0 + n)%nat.
    assert (Z.of_nat n * bl < T) by nia. unfold id.
    replace (Z.of_nat (S n) * bl) with (Z.of_nat n * bl + bl) by lia.
    generalize dependent (Z.of_nat n * bl). intros; lia.
Qed.

Lemma sum_batch_len_total (T bl : Z) :
  0 < bl -> 0 <= T ->
  Z.of_nat (sum_list (map (batch_len T bl) (starts T bl))) = T.
Proof.
  intros Hbl HT. unfold starts. rewrite map_map.
  pose proof (ceil_div_nonneg T bl Hbl HT).
  rewrite sum_batch_len by lia.
  destruct (ceil_div_bounds T bl Hbl HT) as [B|[-> B]]; [|rewrite B; reflexivity].
  rewrite Z2Nat.id by lia. lia.
Qed.

Lemma frames_outputs (w : world) (T R C : nat) (bl : Z) (l : list Z) :
  is_movie (source w) T R C -> model_ok w -> 0 <= bl ->
  Forall (fun i => 0 <= i <= Z.of_nat T) l ->
  Forall (fun i => is_Some (filtered w bl i)) l ->
  map frames (omap (filtered w bl) l) = map (batch_len (Z.of_nat T) bl) l.
Proof.
  intros HY HM Hbl Hr Hs. induction l as [|i l IH]; [reflexivity|].
  inversion Hr; inversion Hs; subst.
  match goal with H : is_Some _ |- _ => destruct H as [a Fa] end.
  rewrite omap_cons, Fa. cbn [map].
  destruct (filtered_shape w T R C bl i a HY HM ltac:(assumption) Hbl Fa) as (_ & -> & _).
  f_equal. apply IH; assumption.
Qed.

Lemma const_model_ok (Y : ndarray) (b : pixel) : model_ok (demo_world Y b).
Proof. intros x y H. inversion H. reflexivity. Qed.

Lemma starts_ascending (T bl : Z) (a b : nat) (i j : Z) :
  0 < bl -> (a < b)%nat ->
  starts T bl !! a = Some i -> starts T bl !! b = Some j -> i < j.
Proof.
  intros Hbl Hab Ha Hb.
  apply starts_lookup in Ha as [-> _]. apply starts_lookup in Hb as [-> _]. nia.
Qed.

End RunFacts.

Import RunFacts.

Module FailFacts.
Local Open Scope Z_scope.

(** A run of cell 19 that raises: the batches before the failing one are
    saved, the failing iteration stops at its first failing statement,
    and no later iteration starts. *)
Lemma cell19_fail (w : world) (bl : Z) (st st' : state) (e : exn) :
  0 < bl ->
  cell19 w bl st = (st', inl e) ->
  exists l1 i l2 evs,
    starts (T_total w) bl = l1 ++ i :: l2 /\
    Forall (good_batch w bl) l1 /\
    fs st' = written w bl l1 (fs st) /\
    saved_files st' =
      map (temp_file w) l1 ++
      (if decide (EvRecord i ∈ evs) then [temp_file w i] else []) /\
    trace st' = trace st ++ flat_map batch_events l1 ++ evs /\
    evs `prefix_of` batch_events i /\ evs <> [].
Proof.
  intros Hbl H. rewrite cell19_eq in H by assumption.
  apply for_fail in H as (l1 & i & l2 & st1 & E & H1 & H2).
  apply for_ok in H1 as [Hall ->].
  apply body_fail in H2 as (Hfs & evs & Htr & Hpre & Hne & Hsv).
  exists l1, i, l2, evs. simpl in *.
  split; [assumption|]. split; [exact Hall|]. split; [assumption|].
  split; [assumption|]. split; [rewrite Htr, <- app_assoc; reflexivity|].
  split; assumption.
Qed.

Lemma notebook_fail (w : world) (bl : Z) (st st' : state) (e : exn) :
  cell19 w bl st = (st', inl e) -> notebook w bl st = (st', inl e).
Proof. intros H. unfold notebook, bind. rewrite H. reflexivity. Qed.

Lemma written_files (w : world) (bl : Z) (l : list Z) fs0 :
  Forall (fun i => 0 <= i) l -> NoDup l ->
  Forall (good_batch w bl) l ->
  Forall (fun j => exists a, filtered w bl j = Some a /\
                             written w bl l fs0 !! temp_file w j = Some (H5 a)) l.
Proof.
  intros Hnn Hnd Hall. apply Forall_forall. intros j Hj.
  rewrite Forall_forall in Hall. destruct (Hall j Hj) as [[a Fa] _].
  exists a. split; [assumption|]. apply written_lookup; assumption.
Qed.

(** In a trace of complete iterations followed by the beginning of one,
    every save comes after the append of the same iteration. *)
Lemma record_before_save (l : list Z) (i : Z) (evs : list event) :
  evs `prefix_of` batch_events i ->
  forall j t1 t2,
    flat_map batch_events l ++ evs = t1 ++ EvSave j :: t2 ->
    EvRecord j ∈ t1.
Proof.
  intros [rest Hevs]. induction l as [|k l IH]; intros j t1 t2 E.
  - simpl in E. subst evs. unfold batch_events in Hevs.
    rewrite <- app_assoc in Hevs.
    destruct t1 as [|e1 [|e2 [|e3 [|e4 t1]]]]; simpl in Hevs; inversion Hevs; subst.
    + apply list_elem_of_further, list_elem_of_further, list_elem_of_here.
    + destruct t1; discriminate.
  - cbn [flat_map] in E. rewrite <- app_assoc in E. unfold batch_events at 1 in E.
    destruct t1 as [|e1 [|e2 [|e3 [|e4 t1]]]]; simpl in E; inversion E; subst.
    + apply list_elem_of_further, list_elem_of_further, list_elem_of_here.
    + do 4 apply list_elem_of_further. eapply IH. eassumption.
Qed.


Lemma for_run' (w : world) (bl : Z) (l : list Z) : forall st,
  Forall (fun i => good_batch w bl i /\ forall f, save_ok w f (temp_file w i) = true) l ->
  for_ l (body w bl) st =
    (mk_state (written w bl l (fs st))
              (saved_files st ++ map (temp_file w) l)
              (trace st ++ flat_map batch_events l), inr tt).
Proof.
  intros st H. revert st. induction H as [|i l [[[a Fa] La] Sa] _ IH]; intros st.
  - destruct st. simpl. rewrite !app_nil_r. reflexivity.
  - cbn [for_]. unfold bind at 1.
    rewrite (body_run w bl i st a Fa La (Sa _)).
    rewrite IH. simpl. unfold written at 2. simpl. rewrite Fa.
    rewrite <- !app_assoc. reflexivity.
Qed.

Lemma for_app {X} (body : X -> M unit) (l1 l2 : list X) (st : state) :
  for_ (l1 ++ l2) body st =
  match for_ l1 body st with
  | (st1, inr _) => for_ l2 body st1
  | (st1, inl e) => (st1, inl e)
  end.
Proof.
  revert st. induction l1 as [|x l1 IH]; intros st; [reflexivity|].
  cbn [for_ app]. unfold bind.
  destruct (body x st) as [st1 [e|u]]; [reflexivity|apply IH].
Qed.

(** Inference raising in iteration [i]. *)
Lemma body_predict_fails (w : world) (bl i : Z) (st : state) (images : ndarray) :
  load_ok w i (i + bl) = true ->
  slice0 (source w) i (i + bl) = Some images ->
  predict w (expand_dims_last images) = None ->
  body w bl i st =
    (mk_state (fs st) (saved_files st) (trace st ++ [EvLoad i; EvPredict i]),
     inl ModelInferenceError).
Proof.
  intros L S P. unfold_body. rewrite L. simpl. rewrite S. simpl. rewrite P. simpl.
  rewrite <- app_assoc. reflexivity.
Qed.

(** The exception tells on which side of the append an iteration failed:
    the subtraction, the maximum and the write raise after it, the read
    and the model before it. *)
Lemma body_fail_kind (w : world) (bl i : Z) (st st' : state) (e : exn) :
  body w bl i st = (st', inl e) ->
  exists evs, trace st' = trace st ++ evs /\
    (EvRecord i ∈ evs <-> e = ValueError \/ e = PersistenceError) /\
    saved_files st' =
      saved_files st ++ (if decide (EvRecord i ∈ evs) then [temp_file w i] else []).
Proof.
  unfold_body.
  destruct (load_ok w i (i + bl)); simpl.
  2:{ intros E; inversion E; subst; simpl.
      exists [EvLoad i]. split; [reflexivity|]. split.
      - split; [intros H; exfalso; revert H; elem_absurd|intros [H|H]; discriminate].
      - rewrite decide_False by elem_absurd. rewrite app_nil_r. reflexivity. }
  destruct (slice0 (source w) i (i + bl)) as [images|]; simpl.
  2:{ intros E; inversion E; subst; simpl.
      exists [EvLoad i]. split; [reflexivity|]. split.
      - split; [intros H; exfalso; revert H; elem_absurd|intros [H|H]; discriminate].
      - rewrite decide_False by elem_absurd. rewrite app_nil_r. reflexivity. }
  destruct (predict w (expand_dims_last images)) as [y|]; simpl.
  2:{ intros E; inversion E; subst; simpl.
      exists [EvLoad i; EvPredict i]. rewrite <- app_assoc.
      split; [reflexivity|]. split.
      - split; [intros H; exfalso; revert H; elem_absurd|intros [H|H]; discriminate].
      - rewrite decide_False by elem_absurd. rewrite app_nil_r. reflexivity. }
  destruct (subtract images (squeeze y)) as [d|]; simpl.
  2:{ intros E; inversion E; subst; simpl.
      exists [EvLoad i; EvPredict i; EvRecord i]. rewrite <- !app_assoc.
      split; [reflexivity|]. split.
      - split; [intros _; left; reflexivity|intros _; elem_here].
      - rewrite decide_True by elem_here. reflexivity. }
  destruct (maximum d (scalar fzero)) as [m|]; simpl.
  2:{ intros E; inversion E; subst; simpl.
      exists [EvLoad i; EvPredict i; EvRecord i]. rewrite <- !app_assoc.
      split; [reflexivity|]. split.
      - split; [intros _; left; reflexivity|intros _; elem_here].
      - rewrite decide_True by elem_here. reflexivity. }
  destruct (save_ok w (fs st) (temp_file w i)); simpl; [discriminate|].
  intros E; inversion E; subst; simpl.
  exists [EvLoad i; EvPredict i; EvRecord i; EvSave i]. rewrite <- !app_assoc.
  split; [reflexivity|]. split.
  - split; [intros _; right; reflexivity|intros _; elem_here].
  - rewrite decide_True by elem_here. reflexivity.
Qed.

(** A failed run of cell 19: the batches before the failing one are
    complete, the trace ends inside the failing iteration, and the list
    ends with its path exactly when the append is on the trace, that is,
    when the exception is one raised after the append. *)
Lemma cell19_fail_kind (w : world) (bl : Z) (st st' : state) (e : exn) :
  0 < bl ->
  cell19 w bl st = (st', inl e) ->
  exists l1 i l2 evs,
    starts (T_total w) bl = l1 ++ i :: l2 /\
    Forall (good_batch w bl) l1 /\
    fs st' = written w bl l1 (fs st) /\
    saved_files st' =
      map (temp_file w) l1 ++
      (if decide (EvRecord i ∈ evs) then [temp_file w i] else []) /\
    trace st' = trace st ++ flat_map batch_events l1 ++ evs /\
    evs `prefix_of` batch_events i /\ evs <> [] /\
    (EvRecord i ∈ evs <-> e = ValueError \/ e = PersistenceError).
Proof.
  intros Hbl H. rewrite cell19_eq in H by assumption.
  apply for_fail in H as (l1 & i & l2 & st1 & E & H1 & H2).
  apply for_ok in H1 as [Hall ->].
  pose proof (body_fail_kind _ _ _ _ _ _ H2) as (evs' & Htr' & Hk & _).
  apply body_fail in H2 as (Hfs & evs & Htr & Hpre & Hne & Hsv).
  assert (evs' = evs) as -> by (rewrite Htr' in Htr; apply app_inv_head in Htr; exact Htr).
  exists l1, i, l2, evs. simpl in *.
  split; [assumption|]. split; [exact Hall|]. split; [assumption|].
  split; [assumption|]. split; [rewrite Htr, <- app_assoc; reflexivity|].
  split; [assumption|]. split; assumption.
Qed.

End FailFacts.

Import FailFacts.

(** ** Facts about the batches *)

Module BatchFacts.
Local Open Scope Z_scope.

Lemma batch_len_pos (T bl i : Z) :
  0 <= i < T -> 1 <= bl -> (1 <= batch_len T bl i)%nat.
Proof. intros. unfold batch_len. lia. Qed.

Lemma fmax_zero_nan (x : pixel) : is_nan (fmax x fzero) = is_nan x.
Proof. destruct x as [[]|[]| |[] m e]; reflexivity. Qed.

(** The squeezed model output read at a batch index, rows and columns
    both at least 2. *)
Lemma item_squeeze (y : ndarray) (n R C t r c : nat) :
  shape y = [n; R; C; 1%nat] -> (1 <= n)%nat -> (2 <= R)%nat -> (2 <= C)%nat ->
  (t < n)%nat -> (r < R)%nat -> (c < C)%nat ->
  item (squeeze y) (bidx (shape (squeeze y)) [t; r; c]) = item y [t; r; c; 0%nat].
Proof.
  intros S Hn HR HC Ht Hr Hc. unfold squeeze, item. simpl shape. simpl data.
  rewrite S. cbn [List.filter].
  destruct (Nat.eqb_spec R 1); [lia|]. destruct (Nat.eqb_spec C 1); [lia|].
  change (1 =? 1)%nat with true. cbn [negb].
  destruct (Nat.eqb_spec n 1) as [->|Hn1]; cbn [negb].
  - assert (t = 0)%nat as -> by lia.
    rewrite bidx_cons by (simpl; lia).
    rewrite bidx_self by (repeat constructor; assumption).
    f_equal; simpl; lia.
  - rewrite bidx_self by (repeat constructor; assumption).
    f_equal; simpl; lia.
Qed.

(** What an iteration saves, element by element. *)
Lemma filtered_items (w : world) (T R C : nat) (bl i : Z) (a : ndarray) :
  is_movie (source w) T R C -> model_ok w ->
  0 <= i < Z.of_nat T -> 1 <= bl ->
  filtered w bl i = Some a ->
  exists images y d,
    slice0 (source w) i (i + bl) = Some images /\
    is_movie images (batch_len (Z.of_nat T) bl i) R C /\
    predict w (expand_dims_last images) = Some y /\
    subtract images (squeeze y) = Some d /\
    maximum d (scalar fzero) = Some a /\
    Forall (fun v => is_nan v = true \/ ge0 v = true) (data a) /\
    ((2 <= R)%nat -> (2 <= C)%nat ->
     shape a = shape images /\
     forall t r c, (t < batch_len (Z.of_nat T) bl i)%nat -> (r < R)%nat -> (c < C)%nat ->
       item a [t; r; c] =
       fmax (fsub (item images [t; r; c]) (item y [t; r; c; 0%nat])) fzero).
Proof.
  intros HY HM Hi Hbl. unfold filtered.
  destruct (slice0_movie _ _ _ _ i bl HY ltac:(lia) ltac:(lia)) as (images & E1 & [S W]).
  rewrite E1.
  destruct (predict w (expand_dims_last images)) as [y|] eqn:P; [|discriminate].
  destruct (subtract images (squeeze y)) as [d|] eqn:D; [|discriminate].
  intros Mx. exists images, y, d.
  split; [reflexivity|]. split; [split; assumption|]. split; [assumption|].
  split; [assumption|]. split; [assumption|].
  split; [eapply maximum_zero_data; eassumption|].
  intros HR HC.
  pose proof (HM _ _ P) as Sy. simpl in Sy. rewrite S in Sy. simpl in Sy.
  pose proof (batch_len_pos (Z.of_nat T) bl i Hi Hbl) as Hn.
  set (n := batch_len (Z.of_nat T) bl i) in *.
  pose proof (shape_broadcast2 _ _ _ _ D) as [Sd _].
  unfold squeeze in Sd. simpl shape in Sd. rewrite S, Sy in Sd.
  rewrite (broadcast_squeeze_shape n R C Hn HR HC) in Sd. inversion Sd as [Sd'].
  assert (shape a = shape d) as Sa.
  { rewrite maximum_scalar in Mx. inversion Mx. reflexivity. }
  split; [congruence|].
  intros t r c Ht Hr Hc.
  pose proof (in_bounds3 n R C t r c Ht Hr Hc) as Hin.
  destruct (item_maximum_scalar d fzero a [t; r; c] Mx) as [_ ->];
    [rewrite <- Sd'; assumption|].
  rewrite (item_broadcast2 _ _ _ _ _ D) by (rewrite <- Sd'; assumption).
  rewrite S, bidx_self by assumption.
  rewrite (item_squeeze y n R C t r c Sy) by assumption.
  reflexivity.
Qed.

(** With rows and columns to spare and a model that answers, every
    iteration has a batch to save; if the reads and writes go through as
    well, cell 19 returns. *)
Lemma filtered_some (w : world) (T R C : nat) (bl i : Z) :
  is_movie (source w) T R C -> model_ok w ->
  (forall x, is_Some (predict w x)) ->
  (2 <= R)%nat -> (2 <= C)%nat ->
  0 <= i < Z.of_nat T -> 1 <= bl ->
  is_Some (filtered w bl i).
Proof.
  intros HY HM HP HR HC Hi Hbl. unfold filtered.
  destruct (slice0_movie _ _ _ _ i bl HY ltac:(lia) ltac:(lia)) as (images & -> & [S W]).
  destruct (HP (expand_dims_last images)) as [y P]. rewrite P.
  pose proof (HM _ _ P) as Sy. simpl in Sy. rewrite S in Sy. simpl in Sy.
  pose proof (batch_len_pos (Z.of_nat T) bl i Hi Hbl) as Hn.
  unfold subtract, broadcast2, squeeze. simpl shape. rewrite S, Sy.
  rewrite (broadcast_squeeze_shape _ R C Hn HR HC).
  rewrite maximum_scalar. eexists. reflexivity.
Qed.

Lemma cell19_returns (w : world) (T R C : nat) (bl : Z) (st : state) :
  is_movie (source w) T R C -> model_ok w ->
  (forall x, is_Some (predict w x)) ->
  (forall i j, load_ok w i j = true) ->
  (forall f p, save_ok w f p = true) ->
  (2 <= R)%nat -> (2 <= C)%nat -> 1 <= bl ->
  exists st', cell19 w bl st = (st', inr tt).
Proof.
  intros HY HM HP HL HS HR HC Hbl.
  rewrite cell19_eq by lia. eexists. apply for_run'.
  apply Forall_forall. intros i Hi.
  rewrite (T_total_movie w T R C HY) in Hi.
  apply starts_in_range in Hi; [|lia..].
  split; [split|]; auto.
  apply (filtered_some w T R C); assumption.
Qed.

(** Every batch file of a completed run holds the filtered batch. *)
Lemma cell19_files (w : world) (T R C : nat) (bl : Z) (st st' : state) (i : Z) :
  is_movie (source w) T R C -> 0 < bl ->
  cell19 w bl st = (st', inr tt) ->
  i ∈ starts (Z.of_nat T) bl ->
  0 <= i < Z.of_nat T /\
  exists a, filtered w bl i = Some a /\ fs st' !! temp_file w i = Some (H5 a).
Proof.
  intros HY Hbl H Hi.
  apply cell19_ok in H as [Hall ->]; [|assumption].
  rewrite (T_total_movie w T R C HY) in *.
  split; [apply starts_in_range in Hi; lia|].
  rewrite Forall_forall in Hall. destruct (Hall i Hi) as [[a Fa] _].
  exists a. split; [assumption|]. simpl fs.
  apply written_lookup; auto using starts_nonneg, starts_NoDup.
Qed.

(** The final batch. *)
Lemma last_batch_len (T bl : Z) :
  1 <= T -> 1 <= bl ->
  last (map (batch_len T bl) (starts T bl)) =
  Some (Z.to_nat (if T mod bl =? 0 then bl else T mod bl)).
Proof.
  intros HT Hbl. unfold starts.
  pose proof (ceil_div_nonneg T bl ltac:(lia) ltac:(lia)) as Hn.
  destruct (ceil_div_bounds T bl ltac:(lia) ltac:(lia)) as [B|[? _]]; [|lia].
  assert (1 <= ceil_div T bl) as Hn1 by nia.
  set (n := ceil_div T bl) in *. clearbody n.
  replace (Z.to_nat n) with (S (Z.to_nat (n - 1))) by lia.
  rewrite seq_S, !map_app. cbn [map]. rewrite last_snoc. f_equal.
  rewrite Nat.add_0_l.
  unfold batch_len. rewrite Z2Nat.id by lia.
  set (d := T - (n - 1) * bl).
  assert (0 < d <= bl) as Hd by (unfold d; lia).
  replace (((n - 1) * bl + bl) `min` T - (n - 1) * bl) with d by (unfold d; lia).
  f_equal.
  destruct (Z.eq_dec d bl) as [E|NE].
  - assert (T mod bl = 0) as ->.
    { symmetry. apply (Z.mod_unique T bl n 0); [lia|unfold d in E; lia]. }
    simpl. lia.
  - assert (T mod bl = d) as ->.
    { symmetry. apply (Z.mod_unique T bl (n - 1) d); [lia|unfold d; lia]. }
    destruct (Z.eqb_spec d 0); [lia|reflexivity].
Qed.

End BatchFacts.

Import BatchFacts.

(** ** Facts about the memory map *)

Module MmapFacts.

Lemma read_all_ok (ps : list string) : forall st st' movs,
  read_all ps st = (st', inr movs) ->
  st' = st /\ movs = batches_of st ps /\
  Forall (fun p => exists a, fs st !! p = Some (H5 a)) ps.
Proof.
  induction ps as [|p ps IH]; intros st st' movs H.
  - inversion H. subst. repeat split. constructor.
  - cbn [read_all] in H. unfold bind at 1, read_h5 at 1 in H.
    destruct (fs st !! p) as [[a|]|] eqn:E; try discriminate.
    unfold bind at 1 in H.
    destruct (read_all ps st) as [st1 [e|l]] eqn:R; [discriminate|].
    apply IH in R as (-> & -> & Hall). inversion H. subst.
    split; [reflexivity|]. split.
    + unfold batches_of. rewrite omap_cons, E. reflexivity.
    + constructor; [eauto|assumption].
Qed.

Lemma concat2_spec (a b m : ndarray) :
  concat2 a b = Some m ->
  shape m = (frames a + frames b) :: tl (shape a) /\
  (wf a -> wf b -> wf m).
Proof.
  unfold concat2, frames, wf.
  destruct (shape a) as [|d1 s1] eqn:Sa; [discriminate|].
  destruct (shape b) as [|d2 s2] eqn:Sb; [discriminate|].
  destruct (decide (s1 = s2)) as [<-|]; [|discriminate].
  intros E. inversion E. subst m. cbn [shape data hd tl].
  split; [reflexivity|].
  intros Wa Wb. rewrite length_app, Wa, Wb, !size_of_cons. lia.
Qed.

Lemma concatenate0_cons (a b : ndarray) (l : list ndarray) :
  concatenate0 (a :: b :: l) =
  match concatenate0 (b :: l) with Some c => concat2 a c | None => None end.
Proof. reflexivity. Qed.

Lemma concatenate0_spec (l : list ndarray) : forall m,
  concatenate0 l = Some m ->
  frames m = sum_list (map frames l) /\ shape m <> [] /\
  (Forall wf l -> wf m).
Proof.
  induction l as [|a l IH]; intros m H; [discriminate|].
  destruct l as [|b l].
  - simpl in H. destruct (shape a) eqn:Sa; [discriminate|]. inversion H. subst m.
    simpl. split; [lia|]. split; [congruence|].
    intros W. inversion W; assumption.
  - rewrite concatenate0_cons in H.
    destruct (concatenate0 (b :: l)) as [c|] eqn:Ec; [|discriminate].
    destruct (IH c eq_refl) as (Fc & _ & Wc).
    apply concat2_spec in H as (Sm & Wm).
    split; [|split].
    + unfold frames at 1. rewrite Sm, Fc. reflexivity.
    + rewrite Sm. discriminate.
    + intros W. inversion W; subst. auto.
Qed.

(** The two transpositions used. *)
Lemma item_transpose_120 (mov : ndarray) (T d1 d2 r c t : nat) :
  shape mov = [T; d1; d2] -> r < d1 -> c < d2 -> t < T ->
  item (transpose mov [1; 2; 0]) [r; c; t] = item mov [t; r; c].
Proof.
  intros S Hr Hc Ht. unfold transpose. rewrite S. simpl map at 1.
  rewrite item_build by (repeat constructor; assumption). reflexivity.
Qed.

Lemma item_transpose_201 (a : ndarray) (T d1 d2 r c t : nat) :
  shape a = [d1; d2; T] -> r < d1 -> c < d2 -> t < T ->
  item (transpose a [2; 0; 1]) [t; r; c] = item a [r; c; t].
Proof.
  intros S Hr Hc Ht. unfold transpose. rewrite S. simpl map at 1.
  rewrite item_build by (repeat constructor; assumption). reflexivity.
Qed.

Lemma item_T2 (a : ndarray) (P T p t : nat) :
  shape a = [P; T] -> p < P -> t < T ->
  item (T_ a) [t; p] = item a [p; t].
Proof.
  intros S Hp Ht. unfold T_, transpose. rewrite S. simpl.
  rewrite item_build by (repeat constructor; assumption). reflexivity.
Qed.

(** What is read from a file is what was written to it, in either
    order. *)
Lemma fromfile_tofile (o : order) (a : ndarray) :
  wf a -> fromfile o (shape a) (tofile o a) = a.
Proof.
  intros W. destruct o; [destruct a; reflexivity|].
  unfold fromfile, tofile. apply ndarray_ext; [apply wf_build|assumption|reflexivity|].
  simpl shape. intros j Hj. rewrite item_build by assumption.
  rewrite nth_lookup, list_lookup_fmap.
  rewrite lookup_seq_lt by (apply ravel_F_lt; assumption).
  simpl. rewrite unravel_F_ravel_F by assumption. reflexivity.
Qed.

Lemma pixel_lt (d1 d2 r c : nat) : r < d1 -> c < d2 -> r + d1 * c < d1 * d2.
Proof. nia. Qed.

Lemma item_Yr_of (mov : ndarray) (T d1 d2 r c t : nat) :
  shape mov = [T; d1; d2] -> r < d1 -> c < d2 -> t < T ->
  item (Yr_of mov T d1 d2) [r + d1 * c; t] = item mov [t; r; c].
Proof.
  intros S Hr Hc Ht. unfold Yr_of.
  pose proof (pixel_lt d1 d2 r c Hr Hc).
  rewrite item_build by (repeat constructor; assumption).
  replace (ravel_F [d1 * d2; T] [r + d1 * c; t])
    with (ravel_F [d1; d2; T] [r; c; t]) by (simpl; nia).
  rewrite unravel_F_ravel_F by (repeat constructor; assumption).
  apply (item_transpose_120 mov T d1 d2); assumption.
Qed.

(** Reading the map back frame by frame. *)
Theorem readback_roundtrip (mov : ndarray) (T d1 d2 : nat) (o : order) :
  wf mov -> shape mov = [T; d1; d2] ->
  let Yr := fromfile o [size_of [d1; d2]; T] (tofile o (Yr_of mov T d1 d2)) in
  Yr = Yr_of mov T d1 d2 /\
  reshape (T_ Yr) (T :: [d1; d2]) F = Some mov /\
  readback_spec Yr [d1; d2] T F = Some mov.
Proof.
  intros W S.
  assert (size_of [d1; d2] = d1 * d2) as EP by (simpl; lia).
  rewrite EP. simpl.
  assert (fromfile o [d1 * d2; T] (tofile o (Yr_of mov T d1 d2)) = Yr_of mov T d1 d2) as E.
  { apply (fromfile_tofile o (Yr_of mov T d1 d2)). apply wf_build. }
  rewrite E. split; [reflexivity|].
  assert (size_of [T; d1; d2] = size_of [d1 * d2; T]) as ES by (simpl; lia).
  split.
  - unfold reshape.
    assert (shape (T_ (Yr_of mov T d1 d2)) = [T; d1 * d2]) as ST by reflexivity.
    rewrite ST.
    replace (size_of [T; d1; d2] =? size_of [T; d1 * d2]) with true
      by (symmetry; apply Nat.eqb_eq; simpl; lia).
    f_equal. apply ndarray_ext; [apply wf_build|assumption|simpl; congruence|].
    simpl shape. intros j Hj.
    apply in_bounds3_inv in Hj as (t & r & c & -> & Ht & Hr & Hc).
    pose proof (pixel_lt d1 d2 r c Hr Hc).
    rewrite item_build by (repeat constructor; assumption).
    replace (ravel_F [T; d1; d2] [t; r; c])
      with (ravel_F [T; d1 * d2] [t; r + d1 * c]) by (simpl; nia).
    rewrite unravel_F_ravel_F by (repeat constructor; assumption).
    rewrite (item_T2 _ (d1 * d2) T) by (try reflexivity; assumption).
    apply item_Yr_of; assumption.
  - unfold readback_spec, reshape. simpl app.
    change (shape (Yr_of mov T d1 d2)) with [d1 * d2; T].
    replace (size_of [d1; d2; T] =? size_of [d1 * d2; T]) with true
      by (symmetry; apply Nat.eqb_eq; simpl; lia).
    f_equal. apply ndarray_ext; [apply wf_build|assumption|simpl; congruence|].
    simpl shape. intros j Hj.
    apply in_bounds3_inv in Hj as (t & r & c & -> & Ht & Hr & Hc).
    pose proof (pixel_lt d1 d2 r c Hr Hc).
    rewrite (item_transpose_201 _ T d1 d2) by (try reflexivity; assumption).
    rewrite item_build by (repeat constructor; assumption).
    replace (ravel_F [d1; d2; T] [r; c; t])
      with (ravel_F [d1 * d2; T] [r + d1 * c; t]) by (simpl; nia).
    rewrite unravel_F_ravel_F by (repeat constructor; assumption).
    apply item_Yr_of; assumption.
Qed.

(** Moving the frame axis to the back and to the front again. *)
Lemma transpose_back (mov : ndarray) (T d1 d2 : nat) :
  wf mov -> shape mov = [T; d1; d2] ->
  transpose (transpose mov [1; 2; 0]) [2; 0; 1] = mov.
Proof.
  intros W S.
  assert (shape (transpose mov [1; 2; 0]) = [d1; d2; T]) as S1.
  { unfold transpose. simpl shape. rewrite S. reflexivity. }
  assert (forall r c t, r < d1 -> c < d2 -> t < T ->
            item (transpose mov [1; 2; 0]) [r; c; t] = item mov [t; r; c]) as HX.
  { intros r c t Hr Hc Ht. apply (item_transpose_120 mov T d1 d2); assumption. }
  generalize dependent (transpose mov [1; 2; 0]). intros X S1 HX.
  assert (shape (transpose X [2; 0; 1]) = [T; d1; d2]) as S2.
  { unfold transpose. simpl shape. rewrite S1. reflexivity. }
  apply ndarray_ext; [apply wf_build|assumption|congruence|].
  rewrite S2. intros j Hj.
  apply in_bounds3_inv in Hj as (t & r & c & -> & Ht & Hr & Hc).
  rewrite (item_transpose_201 X T d1 d2) by assumption.
  apply HX; assumption.
Qed.

Lemma mapped_shape (o : order) (mov : ndarray) (T d1 d2 : nat) :
  shape (mapped o mov T d1 d2) = [d1 * d2; T].
Proof. destruct o; reflexivity. Qed.

Lemma mapped_wf (o : order) (mov : ndarray) (T d1 d2 : nat) :
  shape mov = [T; d1; d2] -> wf (mapped o mov T d1 d2).
Proof.
  intros S. destruct o; [|apply wf_build].
  unfold wf, mapped. cbn [data shape].
  pose proof (wf_build (map (fun k => nth k (shape mov) 0) [1; 2; 0])
    (fun j => item mov (map (fun k => nth (position k [1; 2; 0]) j 0)
                            (seq 0 (length [1; 2; 0]))))) as Wb.
  unfold wf in Wb. unfold transpose. rewrite Wb. cbn [shape].
  rewrite S. simpl. lia.
Qed.

(** The array that [cm_save_memmap] computes is [mapped]. *)
Lemma reshape_mapped (o : order) (mov : ndarray) (T d1 d2 : nat) :
  shape mov = [T; d1; d2] ->
  reshape (transpose mov [1; 2; 0]) [d1 * d2; T] o = Some (mapped o mov T d1 d2).
Proof.
  intros S. unfold reshape.
  replace (size_of [d1 * d2; T] =? size_of (shape (transpose mov [1; 2; 0])))
    with true
    by (symmetry; apply Nat.eqb_eq; unfold transpose; simpl shape;
        rewrite S; simpl; lia).
  f_equal. destruct o; [reflexivity|].
  unfold mapped, Yr_of, transpose. simpl shape. rewrite S. reflexivity.
Qed.

(** The round trip in the declared order: what is written to the file
    in order [o] and mapped again, reshaped by [dims + (T,)] in order [o]
    with the frame axis moved to the front, is the movie. *)
Theorem readback_declared (mov : ndarray) (T d1 d2 : nat) (o : order) :
  wf mov -> shape mov = [T; d1; d2] ->
  let Yr := fromfile o [size_of [d1; d2]; T] (tofile o (mapped o mov T d1 d2)) in
  Yr = mapped o mov T d1 d2 /\
  readback_spec Yr [d1; d2] T o = Some mov.
Proof.
  intros W S. destruct o.
  - assert (size_of [d1; d2] = d1 * d2) as EP by (simpl; lia).
    rewrite EP. cbn [fromfile tofile mapped data].
    split; [reflexivity|].
    assert (shape (transpose mov [1; 2; 0]) = [d1; d2; T]) as S1.
    { unfold transpose. simpl shape. rewrite S. reflexivity. }
    unfold readback_spec, reshape. cbn [shape app].
    replace (size_of [d1; d2; T] =? size_of [d1 * d2; T]) with true
      by (symmetry; apply Nat.eqb_eq; simpl; lia).
    f_equal. rewrite <- S1.
    replace (mk_ndarray (shape (transpose mov [1; 2; 0]))
                        (data (transpose mov [1; 2; 0])))
      with (transpose mov [1; 2; 0])
      by (destruct (transpose mov [1; 2; 0]); reflexivity).
    apply (transpose_back mov T d1 d2); assumption.
  - destruct (readback_roundtrip mov T d1 d2 F W S) as (E & _ & E2).
    split; assumption.
Qed.

End MmapFacts.

Import MmapFacts.

Module MaterializeFacts.

Lemma bind_ok {A B} (m : M A) (k : A -> M B) (st st' : state) (r : B) :
  bind m k st = (st', inr r) ->
  exists st1 x, m st = (st1, inr x) /\ k x st1 = (st', inr r).
Proof.
  unfold bind. destruct (m st) as [st1 [e|x]]; [discriminate|]. eauto.
Qed.

Lemma result_of_ok {A} (d : A) (r : state * (exn + A)) :
  returned r = true -> r = (fst r, inr (result_of d r)).
Proof.
  unfold returned, result_of. destruct r as [st [e|x]]; [discriminate|reflexivity].
Qed.

Lemma tuple4_eta {A B C D} (x : A * B * C * D) :
  x = (x.1.1.1, x.1.1.2, x.1.2, x.2).
Proof. destruct x as [[[a b] c] d]. reflexivity. Qed.

Lemma batches_of_fs (st st' : state) (ps : list string) :
  fs st' = fs st -> batches_of st' ps = batches_of st ps.
Proof. intros E. unfold batches_of. rewrite E. reflexivity. Qed.

Lemma materialize_ok (w : world) (o : order) (st st2 : state)
    (Yr : ndarray) (dims : list nat) (T : nat) (img : ndarray) :
  materialize w o st = (st2, inr (Yr, dims, T, img)) ->
  exists mov d1 d2,
    Forall (fun p => exists a, fs st !! p = Some (H5 a)) (saved_files st) /\
    concatenate0 (batches_of st (saved_files st)) = Some mov /\
    shape mov = [T; d1; d2] /\ dims = [d1; d2] /\
    Yr = fromfile o [size_of [d1; d2]; T] (tofile o (mapped o mov T d1 d2)) /\
    reshape (T_ Yr) (T :: dims) F = Some img /\
    fs st2 = <[mmap_name w := Mmap o [d1; d2] T (tofile o (mapped o mov T d1 d2))]> (fs st) /\
    saved_files st2 = saved_files st.
Proof.
  intros H. unfold materialize in H.
  apply bind_ok in H as (s0 & files & H0 & H).
  unfold get_saved_files in H0. inversion H0. subst s0 files. clear H0.
  apply bind_ok in H as (s1 & fname & Hsave & H).
  apply bind_ok in H as (s2 & [[Yr' dims'] T'] & Hload & H).
  apply bind_ok in H as (s3 & im & Hre & H).
  unfold ret in H. inversion H. subst s3 Yr' dims' T' im. clear H.
  (* cm.save_memmap *)
  unfold cm_save_memmap in Hsave.
  apply bind_ok in Hsave as (t0 & [] & Hlog & Hsave).
  unfold log in Hlog. inversion Hlog. subst t0. clear Hlog.
  apply bind_ok in Hsave as (t1 & movs & Hread & Hsave).
  simpl concat in Hread. rewrite app_nil_r in Hread. cbn [saved_files] in Hread.
  apply read_all_ok in Hread as (-> & -> & Hall).
  rewrite (batches_of_fs st) in Hsave by reflexivity.
  cbn [fs] in Hall.
  apply bind_ok in Hsave as (t2 & mov & Hcat & Hsave).
  unfold lift in Hcat.
  destruct (concatenate0 (batches_of st (saved_files st))) as [mov'|] eqn:Ec;
    [|discriminate].
  unfold ret in Hcat. inversion Hcat. subst t2 mov'. clear Hcat.
  destruct (shape mov) as [|T0 [|d1 [|d2 [|]]]] eqn:S; try discriminate.
  apply bind_ok in Hsave as (t3 & Yr0 & Hresh & Hsave).
  unfold lift in Hresh.
  rewrite (reshape_mapped o mov T0 d1 d2 S) in Hresh.
  unfold ret in Hresh. inversion Hresh. subst t3 Yr0. clear Hresh.
  apply bind_ok in Hsave as (t4 & [] & Hwrite & Hsave).
  unfold ret in Hsave. inversion Hsave. subst t4 fname. clear Hsave.
  unfold write_file in Hwrite. cbn [fs saved_files trace] in Hwrite.
  destruct (save_ok w (fs st) (mmap_name w)); [|discriminate].
  inversion Hwrite. subst s1. clear Hwrite.
  (* cm.load_memmap *)
  unfold cm_load_memmap in Hload.
  apply bind_ok in Hload as (u0 & [] & Hlog & Hload).
  unfold log in Hlog. inversion Hlog. subst u0. clear Hlog.
  cbn [fs saved_files trace] in Hload. rewrite lookup_insert_eq in Hload.
  inversion Hload. subst s2 Yr dims T. clear Hload.
  (* the reshape *)
  unfold lift in Hre.
  destruct (reshape _ _ F) as [im|] eqn:EI; [|discriminate].
  unfold ret in Hre. inversion Hre. subst st2 im. clear Hre.
  exists mov, d1, d2. cbn [fs saved_files]. repeat split; assumption.
Qed.

Lemma notebook_ok (w : world) (bl : Z) (st st2 : state) r :
  notebook w bl st = (st2, inr r) ->
  exists st1, cell19 w bl st = (st1, inr tt) /\ cell20 w st1 = (st2, inr r).
Proof.
  unfold notebook, bind.
  destruct (cell19 w bl st) as [st1 [e|[]]]; [discriminate|]. eauto.
Qed.

Lemma filtered_wf (w : world) (bl i : Z) (a : ndarray) :
  filtered w bl i = Some a -> wf a.
Proof.
  unfold filtered.
  destruct (slice0 _ _ _); [|discriminate].
  destruct (predict _ _); [|discriminate].
  destruct (subtract _ _); [|discriminate].
  rewrite maximum_scalar. intros E. inversion E. apply wf_build.
Qed.

Lemma omap_filtered_wf (w : world) (bl : Z) (l : list Z) :
  Forall wf (omap (filtered w bl) l).
Proof.
  induction l as [|i l IH]; [constructor|].
  rewrite omap_cons. destruct (filtered w bl i) eqn:E; [|assumption].
  constructor; [eapply filtered_wf; eassumption|assumption].
Qed.

(** After cell 19 the batch files hold well-formed arrays, the filtered
    batches in loop order. *)
Lemma cell19_batches (w : world) (bl : Z) (st st1 : state) :
  (0 < bl)%Z -> cell19 w bl st = (st1, inr tt) ->
  saved_files st1 = map (temp_file w) (starts (T_total w) bl) /\
  batches_of st1 (saved_files st1) = omap (filtered w bl) (starts (T_total w) bl) /\
  Forall (fun i => is_Some (filtered w bl i)) (starts (T_total w) bl).
Proof.
  intros Hbl H. apply cell19_ok in H as [Hall ->]; [|assumption].
  assert (Forall (fun i => is_Some (filtered w bl i)) (starts (T_total w) bl)) as Hs.
  { eapply Forall_impl; [exact Hall|]. simpl. tauto. }
  split; [reflexivity|]. split; [|assumption].
  cbn [saved_files]. apply batches_written; auto using starts_nonneg, starts_NoDup.
Qed.

(** *** The run returns *)

Lemma read_all_run (ps : list string) (st : state) :
  Forall (fun p => exists a, fs st !! p = Some (H5 a)) ps ->
  read_all ps st = (st, inr (batches_of st ps)).
Proof.
  induction 1 as [|p ps [a Ha] _ IH]; [reflexivity|].
  cbn [read_all]. unfold bind at 1, read_h5 at 1. rewrite Ha.
  unfold bind at 1. rewrite IH. unfold ret, batches_of.
  rewrite omap_cons, Ha. reflexivity.
Qed.

Lemma concatenate0_movies (R C : nat) (l : list ndarray) :
  l <> [] ->
  Forall (fun a => shape a = [frames a; R; C]) l ->
  exists m, concatenate0 l = Some m /\
            shape m = [sum_list (map frames l); R; C].
Proof.
  induction l as [|a l IH]; intros Hne Hall; [congruence|].
  inversion Hall as [|? ? Sa Hl]; subst.
  destruct l as [|b l].
  - exists a. simpl. rewrite Sa. split; [reflexivity|].
    f_equal. unfold frames. rewrite Sa. simpl. lia.
  - destruct (IH ltac:(discriminate) Hl) as (m & Em & Sm).
    rewrite concatenate0_cons, Em. unfold concat2. rewrite Sa, Sm.
    rewrite decide_True by reflexivity.
    eexists. split; [reflexivity|]. reflexivity.
Qed.

Lemma bind_run {A B} (m : M A) (k : A -> M B) (st st1 : state) (x : A) :
  m st = (st1, inr x) -> bind m k st = k x st1.
Proof. intros H. unfold bind. rewrite H. reflexivity. Qed.

Lemma save_memmap_run (w : world) (o : order) (st : state)
    (mov : ndarray) (T d1 d2 : nat) :
  Forall (fun p => exists a, fs st !! p = Some (H5 a)) (saved_files st) ->
  concatenate0 (batches_of st (saved_files st)) = Some mov ->
  shape mov = [T; d1; d2] ->
  save_ok w (fs st) (mmap_name w) = true ->
  cm_save_memmap w [saved_files st] o st =
    (mk_state (<[mmap_name w := Mmap o [d1; d2] T (tofile o (mapped o mov T d1 d2))]> (fs st))
              (saved_files st) (trace st ++ [EvSaveMemmap]),
     inr (mmap_name w)).
Proof.
  intros Hall Ec S Hs. unfold cm_save_memmap.
  set (st1 := mk_state (fs st) (saved_files st) (trace st ++ [EvSaveMemmap])).
  rewrite (bind_run _ _ st st1 tt) by reflexivity.
  assert (read_all (concat [saved_files st]) st1
          = (st1, inr (batches_of st (saved_files st)))) as Hr.
  { simpl concat. rewrite app_nil_r.
    rewrite (read_all_run (saved_files st) st1) by exact Hall.
    rewrite (batches_of_fs st st1) by reflexivity. reflexivity. }
  rewrite (bind_run _ _ st1 st1 _ Hr).
  rewrite (bind_run _ _ st1 st1 mov) by (rewrite Ec; reflexivity).
  rewrite S.
  rewrite (bind_run _ _ st1 st1 (mapped o mov T d1 d2))
    by (rewrite (reshape_mapped o mov T d1 d2 S); reflexivity).
  unfold bind, write_file. subst st1. cbn [fs saved_files trace].
  rewrite Hs. reflexivity.
Qed.

Lemma materialize_returns (w : world) (o : order) (st : state)
    (mov : ndarray) (T d1 d2 : nat) :
  Forall (fun p => exists a, fs st !! p = Some (H5 a)) (saved_files st) ->
  concatenate0 (batches_of st (saved_files st)) = Some mov ->
  wf mov -> shape mov = [T; d1; d2] ->
  save_ok w (fs st) (mmap_name w) = true ->
  exists st2 Yr img, materialize w o st = (st2, inr (Yr, [d1; d2], T, img)).
Proof.
  intros Hall Ec W S Hs.
  destruct (readback_declared mov T d1 d2 o W S) as (E1 & _).
  unfold materialize.
  rewrite (bind_run _ _ st st (saved_files st)) by reflexivity.
  rewrite (bind_run _ _ _ _ _ (save_memmap_run w o st mov T d1 d2 Hall Ec S Hs)).
  unfold cm_load_memmap, bind, log. cbn [fs saved_files trace].
  rewrite lookup_insert_eq. rewrite E1.
  assert (exists img, reshape (T_ (mapped o mov T d1 d2)) (T :: [d1; d2]) F = Some img)
    as [img Ei].
  { unfold reshape.
    assert (shape (T_ (mapped o mov T d1 d2)) = [T; d1 * d2]) as ->.
    { unfold T_, transpose. cbn [shape]. rewrite !mapped_shape. reflexivity. }
    replace (size_of [T; d1; d2] =? size_of [T; d1 * d2]) with true
      by (symmetry; apply Nat.eqb_eq; simpl; lia).
    eexists. reflexivity. }
  rewrite Ei. unfold lift, ret.
  eexists. eexists. eexists. reflexivity.
Qed.

Theorem notebook_returns (w : world) (T R C : nat) (bl : Z) (st : state) :
  is_movie (source w) T R C -> model_ok w ->
  (forall x, is_Some (predict w x)) ->
  (forall i j, load_ok w i j = true) ->
  (forall f p, save_ok w f p = true) ->
  (1 <= T)%nat -> (2 <= R)%nat -> (2 <= C)%nat -> (1 <= bl)%Z ->
  exists st2 res, notebook w bl st = (st2, inr res).
Proof.
  intros HY HM HP HL HS HT HR HC Hbl.
  destruct (cell19_returns w T R C bl st HY HM HP HL HS HR HC Hbl) as [st1 H19].
  destruct (cell19_batches w bl st st1 ltac:(lia) H19) as (Es & Eb & Hsome).
  pose proof H19 as H19'.
  apply cell19_ok in H19' as [Hall Est]; [|lia].
  rewrite (T_total_movie w T R C HY) in *.
  set (l := starts (Z.of_nat T) bl) in *.
  assert (l <> []) as Hne.
  { intros E. apply (f_equal length) in E. unfold l in E.
    rewrite starts_length in E. simpl in E.
    destruct (ceil_div_bounds (Z.of_nat T) bl ltac:(lia) ltac:(lia)); lia. }
  assert (Forall (fun a => shape a = [frames a; R; C]) (omap (filtered w bl) l)) as Hsh.
  { clear Hne. assert (Forall (fun i => (0 <= i < Z.of_nat T)%Z) l) as Hr.
    { apply Forall_forall. intros i Hi. apply starts_in_range in Hi; lia. }
    clear Es Eb Hall Est H19. induction l as [|i l IH]; [constructor|].
    inversion Hsome as [|? ? [a Fa] Hs']; inversion Hr; subst.
    rewrite omap_cons, Fa. constructor; [|apply IH; assumption].
    destruct (filtered_items w T R C bl i a HY HM ltac:(assumption) Hbl Fa)
      as (images & y & d & _ & [Si _] & _ & _ & _ & _ & Hit).
    destruct (Hit HR HC) as [Sa _]. unfold frames. rewrite Sa, Si. reflexivity. }
  assert (omap (filtered w bl) l <> []) as Hne'.
  { intros E. apply (f_equal length) in E.
    rewrite length_omap_all in E by assumption.
    destruct l; [congruence|discriminate]. }
  destruct (concatenate0_movies R C _ Hne' Hsh) as (mov & Ec & Sm).
  assert (wf mov) as W.
  { destruct (concatenate0_spec _ _ Ec) as (_ & _ & Wm). apply Wm.
    apply omap_filtered_wf. }
  rewrite <- Eb in Ec.
  assert (Forall (fun p => exists a, fs st1 !! p = Some (H5 a)) (saved_files st1))
    as Hfiles.
  { rewrite Est. cbn [fs saved_files]. apply Forall_forall. intros p Hp.
    apply list_elem_of_fmap in Hp as (i & -> & Hi).
    rewrite Forall_forall in Hsome. destruct (Hsome i Hi) as [a Fa].
    exists a. apply written_lookup; try assumption.
    - apply starts_nonneg. lia.
    - apply starts_NoDup. lia. }
  destruct (materialize_returns w Np.C st1 mov _ R C Hfiles Ec W Sm (HS _ _))
    as (st2 & Yr & img & E20).
  exists st2. eexists. unfold notebook, bind. rewrite H19. exact E20.
Qed.

End MaterializeFacts.

Import MaterializeFacts.

(** ** The properties of the pipeline *)

Local Open Scope Z_scope.

(** C1: for every frame count T >= 1 and every batch_length >= 1, a run
    of the batch loop that returns leaves exactly ceil(T / batch_length)
    output files: that many paths, pairwise distinct, each holding a
    batch on disk, nothing else on disk changed; and the frame counts of
    the persisted batches add up to T. *)
Theorem C1_file_count_and_frame_sum
    (w : world) (T R C : nat) (bl : Z) (st st' : state) :
  is_movie (source w) T R C -> model_ok w ->
  1 <= Z.of_nat T -> 1 <= bl ->
  cell19 w bl st = (st', inr tt) ->
  Z.of_nat (length (saved_files st')) = ceil_div (Z.of_nat T) bl /\
  NoDup (saved_files st') /\
  Forall (fun p => exists a, fs st' !! p = Some (H5 a)) (saved_files st') /\
  (forall p, p ∉ saved_files st' -> fs st' !! p = fs st !! p) /\
  length (batches_of st' (saved_files st')) = length (saved_files st') /\
  Z.of_nat (sum_list (map frames (batches_of st' (saved_files st')))) = Z.of_nat T.
Proof.
  intros HY HM HT Hbl H.
  assert (0 < bl) as Hb by lia.
  apply cell19_ok in H as [Hall ->]; [|assumption].
  rewrite (T_total_movie w T R C HY) in *.
  set (l := starts (Z.of_nat T) bl) in *.
  pose proof (starts_nonneg (Z.of_nat T) bl Hb) as Hnn. fold l in Hnn.
  pose proof (starts_NoDup (Z.of_nat T) bl Hb) as Hnd. fold l in Hnd.
  assert (Forall (fun i => is_Some (filtered w bl i)) l) as Hs.
  { eapply Forall_impl; [exact Hall|]. simpl. tauto. }
  cbn [saved_files fs].
  split; [|split; [|split; [|split; [|split]]]].
  - rewrite length_map. unfold l. rewrite starts_length.
    rewrite Z2Nat.id; [reflexivity|]. apply ceil_div_nonneg; lia.
  - apply NoDup_fmap_2_strong; [|assumption].
    intros i j Hi Hj E. rewrite Forall_forall in Hnn.
    apply (temp_file_inj w); auto.
  - apply Forall_forall. intros p Hp.
    apply list_elem_of_fmap in Hp as (i & -> & Hi).
    rewrite Forall_forall in Hs. destruct (Hs i Hi) as [a Fa].
    exists a. apply written_lookup; assumption.
  - intros p Hp. apply written_other. assumption.
  - rewrite batches_written by assumption.
    rewrite length_omap_all by assumption. rewrite length_map. reflexivity.
  - rewrite batches_written by assumption.
    rewrite (frames_outputs w T R C bl l HY HM) by
      (try lia; try assumption;
       apply Forall_forall; intros i Hi;
       apply starts_in_range in Hi; lia).
    apply sum_batch_len_total; lia.
Qed.

Lemma C1_witness :
  let st' := fst (cell19 w_small 2 init_state) in
  Z.of_nat (length (saved_files st')) = ceil_div 3 2 /\
  NoDup (saved_files st') /\
  Forall (fun p => exists a, fs st' !! p = Some (H5 a)) (saved_files st') /\
  (forall p, p ∉ saved_files st' -> fs st' !! p = fs init_state !! p) /\
  length (batches_of st' (saved_files st')) = length (saved_files st') /\
  Z.of_nat (sum_list (map frames (batches_of st' (saved_files st')))) = 3.
Proof.
  apply (C1_file_count_and_frame_sum w_small 3 2 2 2 init_state).
  - split; reflexivity.
  - apply const_model_ok.
  - lia.
  - lia.
  - vm_compute. reflexivity.
Defined.

(** C2: for every batch of a completed run the persisted
    batch is [np.maximum(images - images_filt, 0)] of the frames loaded
    and the squeezed model output; every persisted value is NaN or not
    below zero; and for a movie with at least two rows and two columns
    the batch keeps its shape and each element is
    max(original - estimated background, 0), which is NaN exactly when
    the difference is. *)
Theorem C2_filtered_batch_clamped
    (w : world) (T R C : nat) (bl : Z) (st st' : state) (i : Z) :
  is_movie (source w) T R C -> model_ok w -> 1 <= bl ->
  cell19 w bl st = (st', inr tt) ->
  i ∈ starts (Z.of_nat T) bl ->
  exists images y d a,
    slice0 (source w) i (i + bl) = Some images /\
    predict w (expand_dims_last images) = Some y /\
    subtract images (squeeze y) = Some d /\
    maximum d (scalar fzero) = Some a /\
    fs st' !! temp_file w i = Some (H5 a) /\
    Forall (fun v => is_nan v = true \/ ge0 v = true) (data a) /\
    ((2 <= R)%nat -> (2 <= C)%nat ->
     shape a = shape images /\
     forall t r c, (t < batch_len (Z.of_nat T) bl i)%nat -> (r < R)%nat -> (c < C)%nat ->
       let x := fsub (item images [t; r; c]) (item y [t; r; c; 0%nat]) in
       item a [t; r; c] = fmax x fzero /\
       is_nan (item a [t; r; c]) = is_nan x).
Proof.
  intros HY HM Hbl H Hi.
  destruct (cell19_files w T R C bl st st' i HY ltac:(lia) H Hi) as (Hr & a & Fa & La).
  destruct (filtered_items w T R C bl i a HY HM Hr Hbl Fa)
    as (images & y & d & E1 & _ & E2 & E3 & E4 & Hpos & Hitem).
  exists images, y, d, a. repeat (split; [assumption|]).
  intros HR HC. destruct (Hitem HR HC) as [Sa It]. split; [assumption|].
  intros t r c Ht Hr' Hc. simpl. rewrite (It t r c Ht Hr' Hc).
  split; [reflexivity|apply fmax_zero_nan].
Qed.

Lemma C2_witness :
  exists images y d a,
    slice0 (source w_small) 2 (2 + 2) = Some images /\
    predict w_small (expand_dims_last images) = Some y /\
    subtract images (squeeze y) = Some d /\
    maximum d (scalar fzero) = Some a /\
    fs (fst (cell19 w_small 2 init_state)) !! temp_file w_small 2 = Some (H5 a) /\
    Forall (fun v => is_nan v = true \/ ge0 v = true) (data a) /\
    ((2 <= 2)%nat -> (2 <= 2)%nat ->
     shape a = shape images /\
     forall t r c, (t < batch_len 3 2 2)%nat -> (r < 2)%nat -> (c < 2)%nat ->
       let x := fsub (item images [t; r; c]) (item y [t; r; c; 0%nat]) in
       item a [t; r; c] = fmax x fzero /\
       is_nan (item a [t; r; c]) = is_nan x).
Proof.
  apply (C2_filtered_batch_clamped w_small 3 2 2 2 init_state
           (fst (cell19 w_small 2 init_state)) 2).
  - split; reflexivity.
  - apply const_model_ok.
  - lia.
  - vm_compute. reflexivity.
  - apply elem_of_starts; [lia..|split; [lia|reflexivity]].
Defined.

(** A NaN pixel stays NaN in the persisted batch, and NaN >= 0 is false. *)
Lemma C2_counterexample :
  exists st' a,
    cell19 w_nan 256 init_state = (st', inr tt) /\
    fs st' !! temp_file w_nan 0 = Some (H5 a) /\
    item a [0; 0; 0]%nat = S754_nan /\
    ge0 (item a [0; 0; 0]%nat) = false /\
    ~ Forall (fun v => ge0 v = true) (data a).
Proof.
  eexists. eexists.
  split; [vm_compute; reflexivity|].
  split; [vm_compute; reflexivity|].
  split; [reflexivity|]. split; [reflexivity|].
  intros H. inversion H as [|v l Hv _]. discriminate Hv.
Qed.

(** C3: round trip. For every run and every declared storage order of
    the memory map, reading back the composite that cell 20 produced,
    reshaping it by dims + (total_frames,) in the declared storage order
    and moving the frame axis to the front gives back, frame for frame
    and value for value, the concatenation of the per-batch filtered
    outputs. *)
Theorem C3_roundtrip
    (w : world) (bl : Z) (o : order) (st st1 st2 : state)
    (Yr : ndarray) (dims : list nat) (T : nat) (img : ndarray) :
  0 < bl ->
  cell19 w bl st = (st1, inr tt) ->
  materialize w o st1 = (st2, inr (Yr, dims, T, img)) ->
  exists mov,
    batches_of st1 (saved_files st1) = omap (filtered w bl) (starts (T_total w) bl) /\
    concatenate0 (batches_of st1 (saved_files st1)) = Some mov /\
    shape mov = T :: dims /\
    readback_spec Yr dims T o = Some mov.
Proof.
  intros Hbl H19 H20.
  destruct (cell19_batches w bl st st1 Hbl H19) as (_ & Eb & _).
  apply materialize_ok in H20
    as (mov & d1 & d2 & _ & Ec & S & -> & -> & Hre & _).
  assert (wf mov) as W.
  { destruct (concatenate0_spec _ _ Ec) as (_ & _ & Wm). apply Wm.
    rewrite Eb. apply omap_filtered_wf. }
  destruct (readback_declared mov T d1 d2 o W S) as (_ & E2).
  exists mov. repeat (split; [assumption|]). assumption.
Qed.

Lemma C3_witness :
  let st1 := fst (cell19 w_small 2 init_state) in
  let res := result_of no_result (materialize w_small C st1) in
  exists mov,
    batches_of st1 (saved_files st1)
      = omap (filtered w_small 2) (starts (T_total w_small) 2) /\
    concatenate0 (batches_of st1 (saved_files st1)) = Some mov /\
    shape mov = res.1.2 :: res.1.1.2 /\
    readback_spec res.1.1.1 res.1.1.2 res.1.2 C = Some mov.
Proof.
  intros st1 res.
  apply (C3_roundtrip w_small 2 C init_state st1
           (fst (materialize w_small C st1))
           res.1.1.1 res.1.1.2 res.1.2 res.2).
  - lia.
  - vm_compute. reflexivity.
  - vm_compute. reflexivity.
Defined.

(** C4: when T is not a multiple of batch_length the final batch has
    T mod batch_length frames, otherwise batch_length; every batch
    holds the frames from its start up to the next start or T; the
    composite has T frames. For T = 1000 and batch_length = 256 the
    batches start at 0, 256, 512, 768 and have 256, 256, 256, 232
    frames: four output files and a composite of 1000 frames. *)
Theorem C4_final_batch_and_scenario
    (w : world) (T R C : nat) (bl : Z) (st st2 : state)
    (Yr : ndarray) (dims : list nat) (T' : nat) (img : ndarray) :
  is_movie (source w) T R C -> model_ok w ->
  1 <= Z.of_nat T -> 1 <= bl ->
  notebook w bl st = (st2, inr (Yr, dims, T', img)) ->
  exists st1,
    cell19 w bl st = (st1, inr tt) /\
    saved_files st1 = map (temp_file w) (starts (Z.of_nat T) bl) /\
    map frames (batches_of st1 (saved_files st1))
      = map (batch_len (Z.of_nat T) bl) (starts (Z.of_nat T) bl) /\
    last (map frames (batches_of st1 (saved_files st1)))
      = Some (Z.to_nat (if Z.of_nat T mod bl =? 0 then bl else Z.of_nat T mod bl)) /\
    T' = T /\
    (T = 1000%nat -> bl = 256 ->
     starts (Z.of_nat T) bl = [0; 256; 512; 768] /\
     map frames (batches_of st1 (saved_files st1)) = [256; 256; 256; 232]%nat /\
     length (saved_files st1) = 4%nat /\
     T' = 1000%nat).
Proof.
  intros HY HM HT Hbl H.
  apply notebook_ok in H as (st1 & H19 & H20).
  assert (0 < bl) as Hb by lia.
  destruct (cell19_batches w bl st st1 Hb H19) as (Es & Eb & Hs).
  rewrite (T_total_movie w T R C HY) in *.
  assert (map frames (batches_of st1 (saved_files st1))
          = map (batch_len (Z.of_nat T) bl) (starts (Z.of_nat T) bl)) as Ef.
  { rewrite Eb. apply (frames_outputs w T R C); try assumption; [lia|].
    apply Forall_forall. intros i Hi. apply starts_in_range in Hi; lia. }
  assert (T' = T) as ET.
  { unfold cell20 in H20. apply materialize_ok in H20
      as (mov & d1 & d2 & _ & Ec & S & _).
    destruct (concatenate0_spec _ _ Ec) as (Fm & _).
    unfold frames at 1 in Fm. rewrite S in Fm. simpl in Fm.
    rewrite Ef in Fm.
    pose proof (sum_batch_len_total (Z.of_nat T) bl Hb ltac:(lia)). lia. }
  exists st1. split; [assumption|]. split; [assumption|]. split; [assumption|].
  split; [rewrite Ef; apply last_batch_len; assumption|].
  split; [assumption|].
  intros -> ->. rewrite Ef, Es, length_map. subst T'.
  repeat split; reflexivity.
Qed.

Lemma C4_witness :
  let res := result_of no_result (notebook w_1000 256 init_state) in
  exists st1,
    cell19 w_1000 256 init_state = (st1, inr tt) /\
    saved_files st1 = map (temp_file w_1000) (starts 1000 256) /\
    map frames (batches_of st1 (saved_files st1))
      = map (batch_len 1000 256) (starts 1000 256) /\
    last (map frames (batches_of st1 (saved_files st1)))
      = Some (Z.to_nat (if 1000 mod 256 =? 0 then 256 else 1000 mod 256)) /\
    res.1.2 = 1000%nat /\
    (1000%nat = 1000%nat -> 256 = 256 ->
     starts 1000 256 = [0; 256; 512; 768] /\
     map frames (batches_of st1 (saved_files st1)) = [256; 256; 256; 232]%nat /\
     length (saved_files st1) = 4%nat /\
     res.1.2 = 1000%nat).
Proof.
  intros res.
  apply (C4_final_batch_and_scenario w_1000 1000 2 2 256 init_state
           (fst (notebook w_1000 256 init_state))
           res.1.1.1 res.1.1.2 res.1.2 res.2).
  - split; reflexivity.
  - apply const_model_ok.
  - lia.
  - lia.
  - rewrite <- tuple4_eta. apply result_of_ok. vm_compute. reflexivity.
Defined.

(** C5: every run returns the output paths as an ordered
    list, one per batch, in ascending frame order; and for a movie of at
    most 100000 frames every name embeds the start index as exactly five
    zero-padded digits, so that the names compare lexicographically as
    the start indices compare. *)
Theorem C5_names_sorted_below_100000
    (w : world) (bl : Z) (st st' : state) :
  0 < bl ->
  cell19 w bl st = (st', inr tt) ->
  saved_files st' = map (temp_file w) (starts (T_total w) bl) /\
  (forall a b i j, (a < b)%nat ->
     starts (T_total w) bl !! a = Some i ->
     starts (T_total w) bl !! b = Some j -> i < j) /\
  (T_total w <= 100000 ->
   (forall i, i ∈ starts (T_total w) bl ->
      temp_file w i = name_prefix (fld_name w) +:+ fixed 5 i +:+ ".h5" /\
      String.length (format_05d i) = 5%nat) /\
   (forall i j, i ∈ starts (T_total w) bl -> j ∈ starts (T_total w) bl ->
      (String.ltb (temp_file w i) (temp_file w j) = true <-> i < j))).
Proof.
  intros Hbl H. apply cell19_ok in H as [_ ->]; [|assumption].
  split; [reflexivity|]. split.
  - intros a b i j. apply starts_ascending. assumption.
  - intros HT.
    assert (forall i, i ∈ starts (T_total w) bl -> 0 <= i < 10 ^ 5) as Hr.
    { intros i Hi. apply starts_in_range in Hi; auto using T_total_nonneg. lia. }
    split.
    + intros i Hi. specialize (Hr i Hi).
      rewrite temp_file_eq, format_05d_small by assumption.
      split; [reflexivity|apply length_fixed].
    + intros i j Hi Hj. pose proof (Hr i Hi). pose proof (Hr j Hj).
      split; [|intros; apply temp_file_ltb; lia].
      intros L. destruct (Z.lt_trichotomy i j) as [?|[->|G]]; [assumption| |].
      * unfold String.ltb in L. rewrite string_compare_refl in L. discriminate.
      * pose proof (temp_file_ltb w j i ltac:(lia) G ltac:(lia)) as L'.
        unfold String.ltb in *. rewrite String.compare_antisym in L.
        destruct (String.compare (temp_file w j) (temp_file w i)); discriminate.
Qed.

Lemma C5_witness :
  let w := w_small in
  let st' := fst (cell19 w 2 init_state) in
  saved_files st' = ["out/pfc_back_removed_00000.h5"; "out/pfc_back_removed_00002.h5"] /\
  (String.ltb (temp_file w 0) (temp_file w 2) = true <-> 0 < 2).
Proof.
  destruct (C5_names_sorted_below_100000 w_small 2 init_state
              (fst (cell19 w_small 2 init_state)))
    as (E & _ & H).
  - lia.
  - vm_compute. reflexivity.
  - split; [exact E|].
    assert (0 ∈ starts (T_total w_small) 2) as H0
      by (change (T_total w_small) with 3;
          apply elem_of_starts; [lia..|split; [lia|reflexivity]]).
    assert (2 ∈ starts (T_total w_small) 2) as H2
      by (change (T_total w_small) with 3;
          apply elem_of_starts; [lia..|split; [lia|reflexivity]]).
    exact (proj2 (H ltac:(vm_compute; discriminate)) 0 2 H0 H2).
Defined.

(** In a movie of 100097 frames cut into batches of 256, the batches
    starting at 99840 and 100096 get names that sort the wrong way
    round, and the second name has six digits. *)
Lemma C5_counterexample :
  99840 ∈ starts 100097 256 /\
  100096 ∈ starts 100097 256 /\
  String.ltb (batch_name "out" 100096) (batch_name "out" 99840) = true /\
  String.length (format_05d 100096) = 6%nat /\
  ~ names_sort_chronologically "out" 100097 256.
Proof.
  assert (99840 ∈ starts 100097 256) as H1
    by (apply elem_of_starts; [lia..|split; [lia|reflexivity]]).
  assert (100096 ∈ starts 100097 256) as H2
    by (apply elem_of_starts; [lia..|split; [lia|reflexivity]]).
  split; [exact H1|]. split; [exact H2|].
  split; [vm_compute; reflexivity|]. split; [vm_compute; reflexivity|].
  intros H. specialize (H 99840 100096 H1 H2 ltac:(lia)).
  vm_compute in H. discriminate.
Qed.

(** C6: fail-fast. A failure in any batch (reading the frames, the model,
    the subtraction, the write) ends cell 19 and with it the run: the
    failing iteration stops at its first failing statement, no statement
    is run twice, no later batch is started, cell 20 is not run; the
    files of the batches before it stay on disk and nothing else on disk
    has changed, so no composite file exists. In particular, when the
    model raises on batch [i] after the batches [l1] went through, the
    run ends in [ModelInferenceError] with the files of [l1] on disk. *)
Theorem C6_fail_fast (w : world) (bl : Z) (st : state) :
  0 < bl ->
  (forall st' e, cell19 w bl st = (st', inl e) ->
     notebook w bl st = (st', inl e) /\
     exists l1 i l2 evs,
       starts (T_total w) bl = l1 ++ i :: l2 /\
       trace st' = trace st ++ flat_map batch_events l1 ++ evs /\
       evs `prefix_of` batch_events i /\ evs <> [] /\
       Forall (fun j => exists a, filtered w bl j = Some a /\
                 fs st' !! temp_file w j = Some (H5 a)) l1 /\
       (forall p, p ∉ map (temp_file w) l1 -> fs st' !! p = fs st !! p)) /\
  (forall l1 i l2 images,
     starts (T_total w) bl = l1 ++ i :: l2 ->
     Forall (fun j => good_batch w bl j /\
               forall f, save_ok w f (temp_file w j) = true) l1 ->
     load_ok w i (i + bl) = true ->
     slice0 (source w) i (i + bl) = Some images ->
     predict w (expand_dims_last images) = None ->
     exists st',
       notebook w bl st = (st', inl ModelInferenceError) /\
       trace st' = trace st ++ flat_map batch_events l1 ++ [EvLoad i; EvPredict i] /\
       saved_files st' = map (temp_file w) l1 /\
       Forall (fun j => exists a, filtered w bl j = Some a /\
                 fs st' !! temp_file w j = Some (H5 a)) l1 /\
       (forall p, p ∉ map (temp_file w) l1 -> fs st' !! p = fs st !! p)).
Proof.
  intros Hbl.
  pose proof (starts_nonneg (T_total w) bl Hbl) as Hnn.
  pose proof (starts_NoDup (T_total w) bl Hbl) as Hnd.
  split.
  - intros st' e H. split; [apply notebook_fail; assumption|].
    apply cell19_fail in H as (l1 & i & l2 & evs & E & Hall & Hfs & _ & Htr & Hpre & Hne);
      [|assumption].
    exists l1, i, l2, evs. rewrite E in Hnn, Hnd.
    apply Forall_app in Hnn as [Hnn _]. apply NoDup_app in Hnd as [Hnd _].
    repeat (split; [assumption|]). rewrite Hfs. split.
    + apply written_files; assumption.
    + intros p Hp. apply written_other. assumption.
  - intros l1 i l2 images E Hall L S P.
    rewrite E in Hnn, Hnd.
    apply Forall_app in Hnn as [Hnn _]. apply NoDup_app in Hnd as [Hnd _].
    eexists. split.
    + apply notebook_fail. rewrite cell19_eq, E, for_app by assumption.
      rewrite (for_run' w bl l1) by assumption.
      cbn [for_]. unfold bind at 1.
      rewrite (body_predict_fails w bl i _ images L S P). reflexivity.
    + simpl. split; [rewrite <- app_assoc; reflexivity|]. split; [reflexivity|]. split.
      * apply written_files; [assumption..|].
        eapply Forall_impl; [exact Hall|]. simpl. tauto.
      * intros p Hp. apply written_other. assumption.
Qed.

Lemma C6_witness :
  exists st',
    notebook w_fail512 256 init_state = (st', inl ModelInferenceError) /\
    trace st' = [] ++ flat_map batch_events [0; 256] ++ [EvLoad 512; EvPredict 512] /\
    saved_files st' = map (temp_file w_fail512) [0; 256] /\
    Forall (fun j => exists a, filtered w_fail512 256 j = Some a /\
              fs st' !! temp_file w_fail512 j = Some (H5 a)) [0; 256] /\
    (forall p, p ∉ map (temp_file w_fail512) [0; 256] ->
       fs st' !! p = (∅ : gmap string file) !! p).
Proof.
  apply (proj2 (C6_fail_fast w_fail512 256 init_state ltac:(lia)) [0; 256] 512 [768]
           (default (scalar fzero) (slice0 (source w_fail512) 512 (512 + 256)))).
  - vm_compute. reflexivity.
  - repeat constructor; try (eexists; vm_compute; reflexivity).
  - reflexivity.
  - vm_compute. reflexivity.
  - vm_compute. reflexivity.
Defined.

(** C7: in every iteration the output path is put on the
    list before the batch is saved. After a run that returns, every path
    on the list names a batch file that was written. After a run that
    aborts in the batch starting at [i], the trace ends inside iteration
    [i]; when the failure came after the append (the subtraction, the
    maximum or the write raised: ValueError or PersistenceError), the list
    is the paths of the earlier batches followed by the path of batch
    [i], which is last on it; when it came before the append, the list is
    the paths of the earlier batches. In both cases the paths of the
    earlier batches name written files and no file, whole or partial,
    was written for batch [i]. *)
Theorem C7_path_recorded_before_save
    (w : world) (bl : Z) (st st' : state) (r : exn + unit) :
  0 < bl ->
  cell19 w bl st = (st', r) ->
  (forall j t1 t2,
     trace st' = trace st ++ t1 ++ EvSave j :: t2 -> EvRecord j ∈ t1) /\
  (r = inr tt ->
     Forall (fun p => exists a, fs st' !! p = Some (H5 a)) (saved_files st')) /\
  (forall e, r = inl e ->
     exists l1 i l2 evs,
       starts (T_total w) bl = l1 ++ i :: l2 /\
       trace st' = trace st ++ flat_map batch_events l1 ++ evs /\
       evs `prefix_of` batch_events i /\ evs <> [] /\
       (EvRecord i ∈ evs <-> e = ValueError \/ e = PersistenceError) /\
       (EvRecord i ∈ evs ->
          saved_files st' = map (temp_file w) l1 ++ [temp_file w i] /\
          last (saved_files st') = Some (temp_file w i)) /\
       (EvRecord i ∉ evs -> saved_files st' = map (temp_file w) l1) /\
       Forall (fun p => exists a, fs st' !! p = Some (H5 a)) (map (temp_file w) l1) /\
       fs st' !! temp_file w i = fs st !! temp_file w i /\
       (forall p, p ∉ map (temp_file w) l1 -> fs st' !! p = fs st !! p)).
Proof.
  intros Hbl H.
  pose proof (starts_nonneg (T_total w) bl Hbl) as Hnn.
  pose proof (starts_NoDup (T_total w) bl Hbl) as Hnd.
  destruct r as [e|[]].
  - apply cell19_fail_kind in H
      as (l1 & i & l2 & evs & E & Hall & Hfs & Hsv & Htr & Hpre & Hne & Hk);
      [|assumption].
    rewrite E in Hnn, Hnd.
    apply Forall_app in Hnn as [Hnn Hnn2]. apply NoDup_app in Hnd as (Hnd & Hdisj & _).
    split; [|split; [discriminate|]].
    + intros j t1 t2 Et. rewrite Htr in Et. apply app_inv_head in Et.
      eapply record_before_save; eassumption.
    + intros e' [= <-]. exists l1, i, l2, evs.
      split; [exact E|]. split; [exact Htr|]. split; [exact Hpre|].
      split; [exact Hne|]. split; [exact Hk|].
      split; [|split].
      { intros Hin. rewrite Hsv, decide_True by assumption.
        split; [reflexivity|]. apply last_snoc. }
      { intros Hout. rewrite Hsv, decide_False by assumption.
        apply app_nil_r. }
      rewrite Hfs. split; [|split].
      * apply Forall_forall. intros p Hp.
        apply list_elem_of_fmap in Hp as (j & -> & Hj).
        pose proof (written_files w bl l1 (fs st) Hnn Hnd Hall) as Hw.
        rewrite Forall_forall in Hw. destruct (Hw j Hj) as (a & _ & La). eauto.
      * apply written_other. intros Hin.
        apply list_elem_of_fmap in Hin as (j & Ej & Hj).
        apply temp_file_inj in Ej.
        -- subst j. apply (Hdisj i Hj). apply list_elem_of_here.
        -- inversion Hnn2; assumption.
        -- rewrite Forall_forall in Hnn. apply (Hnn j Hj).
      * intros p Hp. apply written_other. assumption.
  - apply cell19_ok in H as [Hall ->]; [|assumption].
    split; [|split; [|discriminate]].
    + simpl. intros j t1 t2 Et. apply app_inv_head in Et.
      apply (record_before_save (starts (T_total w) bl) 0 [] ltac:(by eexists) j t1 t2).
      rewrite app_nil_r. assumption.
    + intros _. simpl. apply Forall_forall. intros p Hp.
      apply list_elem_of_fmap in Hp as (j & -> & Hj).
      pose proof (written_files w bl _ (fs st) Hnn Hnd Hall) as Hw.
      rewrite Forall_forall in Hw. destruct (Hw j Hj) as (a & _ & La). eauto.
Qed.

Lemma C7_witness :
  let st' := fst (cell19 w_full 256 init_state) in
  (forall j t1 t2,
     trace st' = [] ++ t1 ++ EvSave j :: t2 -> EvRecord j ∈ t1) /\
  (inl PersistenceError = inr tt ->
     Forall (fun p => exists a, fs st' !! p = Some (H5 a)) (saved_files st')) /\
  (forall e, @inl exn unit PersistenceError = inl e ->
     exists l1 i l2 evs,
       starts (T_total w_full) 256 = l1 ++ i :: l2 /\
       trace st' = [] ++ flat_map batch_events l1 ++ evs /\
       evs `prefix_of` batch_events i /\ evs <> [] /\
       (EvRecord i ∈ evs <-> e = ValueError \/ e = PersistenceError) /\
       (EvRecord i ∈ evs ->
          saved_files st' = map (temp_file w_full) l1 ++ [temp_file w_full i] /\
          last (saved_files st') = Some (temp_file w_full i)) /\
       (EvRecord i ∉ evs -> saved_files st' = map (temp_file w_full) l1) /\
       Forall (fun p => exists a, fs st' !! p = Some (H5 a)) (map (temp_file w_full) l1) /\
       fs st' !! temp_file w_full i = (∅ : gmap string file) !! temp_file w_full i /\
       (forall p, p ∉ map (temp_file w_full) l1 ->
          fs st' !! p = (∅ : gmap string file) !! p)).
Proof.
  apply (C7_path_recorded_before_save w_full 256 init_state
           (fst (cell19 w_full 256 init_state)) (inl PersistenceError)).
  - lia.
  - vm_compute. reflexivity.
Defined.

(** The write of the only batch fails: its path is on the list, its file
    is not on disk, and the append ran before the save. *)
Lemma C7_counterexample :
  ~ recorded_paths_written w_full 256 init_state /\
  cell19 w_full 256 init_state =
    (mk_state ∅ ["out/pfc_back_removed_00000.h5"]
              [EvLoad 0; EvPredict 0; EvRecord 0; EvSave 0],
     inl PersistenceError).
Proof.
  split; [|vm_compute; reflexivity].
  intros H. destruct (H "out/pfc_back_removed_00000.h5") as [f Hf].
  - vm_compute. apply list_elem_of_here.
  - vm_compute in Hf. discriminate.
Qed.



(** C9: a source of zero frames: nothing is inferred (no statement of the
    loop runs, the trace is unchanged), no file is created, and the list
    of output paths is empty; the cell returns unless [batch_length] is 0
    (then [range] raises). *)
Theorem C9_empty_movie (w : world) (bl : Z) (st : state) :
  frames (source w) = 0%nat ->
  fst (cell19 w bl st) = mk_state (fs st) [] (trace st) /\
  (bl <> 0 -> snd (cell19 w bl st) = inr tt).
Proof.
  intros HT. unfold cell19, bind, set_saved_files, lift, T_total. rewrite HT.
  simpl Z.of_nat. cbn [fs saved_files trace].
  destruct (Z.lt_trichotomy bl 0) as [Hb|[->|Hb]].
  - rewrite range_down by lia. simpl. split; [reflexivity|]. reflexivity.
  - simpl. split; [reflexivity|]. intros; lia.
  - assert (starts 0 bl = []) as E.
    { unfold starts, ceil_div. rewrite Z.div_small by lia. reflexivity. }
    rewrite range_up by lia. change (Z.of_nat 0) with 0. rewrite E.
    simpl. split; reflexivity.
Qed.

Lemma C9_witness :
  fst (cell19 (demo_world (ramp 0 2 2) fzero) 256 init_state) = init_state /\
  (256 <> 0 -> snd (cell19 (demo_world (ramp 0 2 2) fzero) 256 init_state) = inr tt).
Proof.
  apply (C9_empty_movie (demo_world (ramp 0 2 2) fzero) 256 init_state).
  reflexivity.
Defined.

(** C10: for a movie with at least two rows and two columns
    and a model that returns the shape it is given, every persisted
    batch, a final batch of a single frame included, has the shape
    (batch_frames, rows, cols) of the batch loaded. *)
Theorem C10_shape_preserved
    (w : world) (T R C : nat) (bl : Z) (st st' : state) (i : Z) :
  is_movie (source w) T R C -> model_ok w -> 1 <= bl ->
  (2 <= R)%nat -> (2 <= C)%nat ->
  cell19 w bl st = (st', inr tt) ->
  i ∈ starts (Z.of_nat T) bl ->
  exists images a,
    slice0 (source w) i (i + bl) = Some images /\
    fs st' !! temp_file w i = Some (H5 a) /\
    shape images = [batch_len (Z.of_nat T) bl i; R; C] /\
    shape a = shape images.
Proof.
  intros HY HM Hbl HR HC H Hi.
  destruct (cell19_files w T R C bl st st' i HY ltac:(lia) H Hi) as (Hr & a & Fa & La).
  destruct (filtered_items w T R C bl i a HY HM Hr Hbl Fa)
    as (images & y & d & E1 & [S _] & _ & _ & _ & _ & Hitem).
  exists images, a. destruct (Hitem HR HC) as [Sa _]. auto.
Qed.

Lemma C10_witness :
  exists images a,
    slice0 (source w_small) 2 (2 + 2) = Some images /\
    fs (fst (cell19 w_small 2 init_state)) !! temp_file w_small 2 = Some (H5 a) /\
    shape images = [batch_len 3 2 2; 2; 2]%nat /\
    shape a = shape images.
Proof.
  apply (C10_shape_preserved w_small 3 2 2 2 init_state
           (fst (cell19 w_small 2 init_state)) 2).
  - split; reflexivity.
  - apply const_model_ok.
  - lia.
  - lia.
  - lia.
  - vm_compute. reflexivity.
  - apply elem_of_starts; [lia..|split; [lia|reflexivity]].
Defined.

(** Two frames of one row: the squeeze drops the row axis of the model
    output and the subtraction broadcasts to two rows. *)
Lemma C10_counterexample :
  exists st' images a,
    cell19 w_row 256 init_state = (st', inr tt) /\
    slice0 (source w_row) 0 (0 + 256) = Some images /\
    fs st' !! temp_file w_row 0 = Some (H5 a) /\
    shape images = [2; 1; 3]%nat /\
    shape a = [2; 2; 3]%nat.
Proof.
  eexists. eexists. eexists.
  split; [vm_compute; reflexivity|].
  split; [vm_compute; reflexivity|].
  split; [vm_compute; reflexivity|].
  split; reflexivity.
Qed.

(** ** Batches put end to end *)

Module ConcatFacts.
Local Open Scope Z_scope.

Lemma item3 (a : ndarray) (n R C t r c : nat) :
  shape a = [n; R; C] ->
  item a [t; r; c] = nth (t * (R * C) + (r * C + c)) (data a) S754_nan.
Proof.
  intros S. unfold item. rewrite S. cbn [ravel]. f_equal.
  rewrite !size_of_cons. change (size_of []) with 1%nat. lia.
Qed.

Lemma wf3 (a : ndarray) (n R C : nat) :
  shape a = [n; R; C] -> wf a -> length (data a) = (n * (R * C))%nat.
Proof.
  intros S W. unfold wf in W. rewrite W, S.
  rewrite !size_of_cons. change (size_of []) with 1%nat. lia.
Qed.

Lemma flat3_lt (n R C t r c : nat) :
  (t < n)%nat -> (r < R)%nat -> (c < C)%nat ->
  (t * (R * C) + (r * C + c) < n * (R * C))%nat.
Proof.
  intros Ht Hr Hc.
  assert (r * C + c < R * C)%nat as H1 by nia.
  assert ((t + 1) * (R * C) <= n * (R * C))%nat as H2
    by (apply Nat.mul_le_mono_r; lia).
  lia.
Qed.

(** Frame [t] of [a[lo:hi]] is frame [lo + t] of [a]. *)
Lemma slice0_item (Y a : ndarray) (T R C : nat) (i bl : Z) (t r c : nat) :
  is_movie Y T R C -> 0 <= i <= Z.of_nat T -> 0 <= bl ->
  slice0 Y i (i + bl) = Some a ->
  (t < batch_len (Z.of_nat T) bl i)%nat -> (r < R)%nat -> (c < C)%nat ->
  item a [t; r; c] = item Y [(Z.to_nat i + t)%nat; r; c].
Proof.
  intros [S W] Hi Hbl E Ht Hr Hc.
  unfold slice0 in E. rewrite S in E. injection E as <-.
  unfold slice_bound in *.
  replace (i <? 0) with false by (symmetry; apply Z.ltb_ge; lia).
  destruct (i + bl <? 0) eqn:E2; [apply Z.ltb_lt in E2; lia|].
  rewrite (Z.min_l i) by lia.
  unfold batch_len in Ht.
  set (n := Z.to_nat (Z.min (i + bl) (Z.of_nat T) - i)) in *.
  rewrite (item3 _ n R C) by reflexivity.
  rewrite (item3 Y T R C) by assumption.
  cbn [data].
  rewrite !nth_lookup. f_equal.
  pose proof (flat3_lt n R C t r c Ht Hr Hc) as Hlt.
  rewrite lookup_take_lt by lia.
  rewrite lookup_drop. f_equal. lia.
Qed.

(** [np.concatenate((a, b))[t]] is [a[t]] on the frames of [a] and
    [b[t - len(a)]] after them. *)
Lemma item_concat2 (a b m : ndarray) (na nb R C t r c : nat) :
  concat2 a b = Some m ->
  shape a = [na; R; C] -> wf a -> shape b = [nb; R; C] ->
  (r < R)%nat -> (c < C)%nat ->
  shape m = [(na + nb)%nat; R; C] /\
  item m [t; r; c] =
    if (t <? na)%nat then item a [t; r; c] else item b [(t - na)%nat; r; c].
Proof.
  intros E Sa Wa Sb Hr Hc. unfold concat2 in E. rewrite Sa, Sb in E.
  rewrite decide_True in E by reflexivity. injection E as <-.
  split; [reflexivity|].
  rewrite (item3 _ (na + nb) R C) by reflexivity. cbn [data].
  pose proof (wf3 a na R C Sa Wa) as La.
  destruct (t <? na)%nat eqn:Et.
  - apply Nat.ltb_lt in Et.
    pose proof (flat3_lt na R C t r c Et Hr Hc) as Hlt.
    rewrite app_nth1 by lia.
    rewrite (item3 a na R C) by assumption. reflexivity.
  - apply Nat.ltb_ge in Et.
    assert (na * (R * C) <= t * (R * C))%nat as Hge
      by (apply Nat.mul_le_mono_r; lia).
    rewrite app_nth2 by lia.
    rewrite (item3 b nb R C) by assumption. f_equal. rewrite La.
    rewrite Nat.mul_sub_distr_r. lia.
Qed.

Section Batches.
Variable B : Z -> option ndarray.
Variables (T R C : nat) (bl : Z).
Hypothesis Hbl : 1 <= bl.
Hypothesis HT : (1 <= T)%nat.
Hypothesis HB : forall i, i ∈ starts (Z.of_nat T) bl ->
  exists a, B i = Some a /\ shape a = [batch_len (Z.of_nat T) bl i; R; C] /\ wf a.

Local Abbreviation nb := (Z.to_nat (ceil_div (Z.of_nat T) bl)).

Lemma starts_bounds :
  (Z.of_nat nb - 1) * bl < Z.of_nat T <= Z.of_nat nb * bl /\ (1 <= nb)%nat.
Proof.
  pose proof (ceil_div_bounds (Z.of_nat T) bl ltac:(lia) ltac:(lia)) as Hc.
  pose proof (ceil_div_nonneg (Z.of_nat T) bl ltac:(lia) ltac:(lia)) as Hn.
  rewrite Z2Nat.id by assumption.
  destruct Hc as [Hc|[Hc _]]; [|lia].
  split; [assumption|]. nia.
Qed.

Lemma start_in (k : nat) : (k < nb)%nat -> Z.of_nat k * bl ∈ starts (Z.of_nat T) bl.
Proof.
  intros Hk. unfold starts. apply list_elem_of_fmap. exists k. split; [reflexivity|].
  apply elem_of_seq. lia.
Qed.

(** The batches from the [k]-th on, put end to end. *)
Lemma concat_suffix (m : nat) : forall k : nat,
  (k + S m = nb)%nat ->
  exists mk,
    concatenate0 (omap B (map (fun j => Z.of_nat j * bl) (seq k (S m)))) = Some mk /\
    shape mk = [Z.to_nat (Z.of_nat T - Z.of_nat k * bl); R; C] /\ wf mk /\
    forall t r c : nat,
      Z.of_nat k * bl <= Z.of_nat t < Z.of_nat T -> (r < R)%nat -> (c < C)%nat ->
      exists a, B (Z.of_nat t / bl * bl) = Some a /\
        item mk [Z.to_nat (Z.of_nat t - Z.of_nat k * bl); r; c] =
        item a [Z.to_nat (Z.of_nat t - Z.of_nat t / bl * bl); r; c].
Proof.
  destruct starts_bounds as [Hn Hn1].
  induction m as [|m IH]; intros k Hk.
  - destruct (HB _ (start_in k ltac:(lia))) as (a & Ea & Sa & Wa).
    cbn [seq map]. rewrite omap_cons, Ea. cbn [omap].
    assert (batch_len (Z.of_nat T) bl (Z.of_nat k * bl)
            = Z.to_nat (Z.of_nat T - Z.of_nat k * bl)) as El.
    { unfold batch_len. f_equal. nia. }
    exists a. cbn [concatenate0]. rewrite Sa.
    split; [reflexivity|]. split; [rewrite El; reflexivity|]. split; [assumption|].
    intros t r c Ht Hr Hc.
    assert (Z.of_nat t / bl = Z.of_nat k) as Eq.
    { symmetry. apply Z.div_unique with (r := Z.of_nat t - Z.of_nat k * bl); nia. }
    rewrite Eq. exists a. split; [assumption|reflexivity].
  - destruct (HB _ (start_in k ltac:(lia))) as (a & Ea & Sa & Wa).
    destruct (IH (S k) ltac:(lia)) as (b & Eb & Sb & Wb & Hitem).
    assert (batch_len (Z.of_nat T) bl (Z.of_nat k * bl) = Z.to_nat bl) as El.
    { unfold batch_len. f_equal. nia. }
    rewrite El in Sa.
    change (seq k (S (S m))) with (k :: seq (S k) (S m)).
    cbn [map]. rewrite omap_cons, Ea.
    remember (omap B (map (fun j => Z.of_nat j * bl) (seq (S k) (S m)))) as l eqn:El'.
    destruct l as [|b0 l].
    { cbn in Eb. discriminate. }
    rewrite concatenate0_cons, Eb.
    destruct (concat2 a b) as [mk|] eqn:Ec.
    2:{ unfold concat2 in Ec. rewrite Sa, Sb in Ec.
        rewrite decide_True in Ec by reflexivity. discriminate. }
    exists mk.
    destruct (concat2_spec a b mk Ec) as (_ & Wm).
    split; [reflexivity|].
    assert (shape mk = [Z.to_nat (Z.of_nat T - Z.of_nat k * bl); R; C]) as Sm.
    { unfold concat2 in Ec. rewrite Sa, Sb in Ec.
      rewrite decide_True in Ec by reflexivity. injection Ec as <-. cbn [shape].
      f_equal. nia. }
    split; [assumption|]. split; [auto|].
    intros t r c Ht Hr Hc.
    destruct (item_concat2 a b mk _ _ R C
                (Z.to_nat (Z.of_nat t - Z.of_nat k * bl)) r c Ec Sa Wa Sb Hr Hc)
      as (_ & Ei).
    rewrite Ei.
    destruct (Z.to_nat (Z.of_nat t - Z.of_nat k * bl) <? Z.to_nat bl)%nat eqn:Et.
    + apply Nat.ltb_lt in Et.
      assert (Z.of_nat t / bl = Z.of_nat k) as Eq.
      { symmetry. apply Z.div_unique with (r := Z.of_nat t - Z.of_nat k * bl); nia. }
      rewrite Eq. exists a. split; [assumption|reflexivity].
    + apply Nat.ltb_ge in Et.
      destruct (Hitem t r c ltac:(nia) Hr Hc) as (a' & Ea' & Ei').
      exists a'. split; [assumption|]. rewrite <- Ei'. do 3 f_equal. nia.
Qed.

(** All batches put end to end: a movie of [T] frames whose frame [t]
    is frame [t - i] of the batch that starts at [i = (t // bl) * bl]. *)
Lemma concat_batches :
  exists mov,
    concatenate0 (omap B (starts (Z.of_nat T) bl)) = Some mov /\
    is_movie mov T R C /\
    forall t r c : nat,
      (t < T)%nat -> (r < R)%nat -> (c < C)%nat ->
      exists a, B (Z.of_nat t / bl * bl) = Some a /\
        item mov [t; r; c] =
        item a [Z.to_nat (Z.of_nat t - Z.of_nat t / bl * bl); r; c].
Proof.
  destruct starts_bounds as [Hn Hn1].
  destruct (concat_suffix (nb - 1) 0 ltac:(lia)) as (mov & E & Sm & W & Hi).
  replace (S (nb - 1)) with nb in E by lia.
  exists mov. split; [exact E|]. split.
  - split; [|assumption]. rewrite Sm. f_equal. lia.
  - intros t r c Ht Hr Hc.
    destruct (Hi t r c ltac:(lia) Hr Hc) as (a & Ea & Ei).
    exists a. split; [assumption|]. rewrite <- Ei. do 3 f_equal. lia.
Qed.

End Batches.

(** The frames loaded by the loop, put end to end, are the source. *)
Lemma slices_cover (Y : ndarray) (T R C : nat) (bl : Z) :
  is_movie Y T R C -> (1 <= T)%nat -> 1 <= bl ->
  concatenate0 (omap (fun i => slice0 Y i (i + bl)) (starts (Z.of_nat T) bl))
  = Some Y.
Proof.
  intros HY HT Hbl.
  assert (forall i, i ∈ starts (Z.of_nat T) bl ->
    exists a, slice0 Y i (i + bl) = Some a /\
      shape a = [batch_len (Z.of_nat T) bl i; R; C] /\ wf a) as HB.
  { intros i Hi. apply starts_in_range in Hi; [|lia|lia].
    destruct (slice0_movie Y T R C i bl HY ltac:(lia) ltac:(lia)) as (a & Ea & Sa & Wa).
    exists a. auto. }
  destruct (concat_batches _ T R C bl Hbl HT HB) as (mov & E & [Sm Wm] & Hi).
  rewrite E. f_equal.
  destruct HY as [SY WY].
  apply ndarray_ext; [assumption|assumption|congruence|].
  intros j Hj. rewrite Sm in Hj.
  apply in_bounds3_inv in Hj as (t & r & c & -> & Ht & Hr & Hc).
  destruct (Hi t r c Ht Hr Hc) as (a & Ea & ->).
  assert (0 <= Z.of_nat t / bl * bl <= Z.of_nat t) as Hq.
  { pose proof (Z.mul_div_le (Z.of_nat t) bl ltac:(lia)).
    pose proof (Z.div_pos (Z.of_nat t) bl ltac:(lia) ltac:(lia)). nia. }
  pose proof (Z.mod_pos_bound (Z.of_nat t) bl ltac:(lia)) as Hm.
  pose proof (Z.div_mod (Z.of_nat t) bl ltac:(lia)) as Hd.
  assert (0 <= Z.of_nat t / bl * bl <= Z.of_nat T) as Hq' by lia.
  rewrite (slice0_item Y a T R C _ bl _ r c (conj SY WY) Hq' ltac:(lia) Ea);
    [| unfold batch_len; lia | assumption | assumption].
  do 3 f_equal. lia.
Qed.

End ConcatFacts.

Import ConcatFacts.

(** ** Degenerate frame shapes and repeated runs *)

Module EdgeFacts.
Local Open Scope Z_scope.

(** The subtraction raises: the path is on the list, nothing is saved. *)
Lemma body_subtract_fails (w : world) (bl i : Z) (st : state) (images y : ndarray) :
  load_ok w i (i + bl) = true ->
  slice0 (source w) i (i + bl) = Some images ->
  predict w (expand_dims_last images) = Some y ->
  subtract images (squeeze y) = None ->
  body w bl i st =
    (mk_state (fs st) (saved_files st ++ [temp_file w i])
              (trace st ++ [EvLoad i; EvPredict i; EvRecord i]),
     inl ValueError).
Proof.
  intros Hl Hs Hp Hd. unfold_body. rewrite Hl, Hs. simpl. rewrite Hp. simpl.
  rewrite Hd. simpl. rewrite <- !app_assoc. reflexivity.
Qed.

(** Saving the batches of [l] twice is saving them once. *)
Lemma written_idem (w : world) (bl : Z) (l : list Z) fs0 :
  Forall (fun i => 0 <= i) l -> NoDup l ->
  Forall (fun i => is_Some (filtered w bl i)) l ->
  written w bl l (written w bl l fs0) = written w bl l fs0.
Proof.
  intros Hnn Hnd Hs. apply map_eq. intros p.
  destruct (decide (p ∈ map (temp_file w) l)) as [Hp|Hp].
  - apply list_elem_of_fmap in Hp as (i & -> & Hi).
    rewrite Forall_forall in Hs. destruct (Hs i Hi) as [a Fa].
    rewrite !(written_lookup w bl l _ i a) by assumption. reflexivity.
  - rewrite !written_other by assumption. reflexivity.
Qed.

(** The squeezed output of the model for a batch of one-row frames. *)
Lemma item_squeeze_row (y : ndarray) (n C u c : nat) :
  shape y = [n; 1%nat; C; 1%nat] -> (2 <= n)%nat -> (2 <= C)%nat ->
  shape (squeeze y) = [n; C] /\
  item (squeeze y) [u; c] = item y [u; 0%nat; c; 0%nat].
Proof.
  intros S Hn Hc. unfold squeeze, item. cbn [shape data]. rewrite S.
  cbn [List.filter].
  destruct (n =? 1)%nat eqn:E1; [apply Nat.eqb_eq in E1; lia|].
  destruct (C =? 1)%nat eqn:E2; [apply Nat.eqb_eq in E2; lia|].
  cbn [negb Nat.eqb]. split; [reflexivity|].
  f_equal. cbn [ravel]. rewrite !size_of_cons. change (size_of []) with 1%nat. lia.
Qed.

Lemma rev3 (a b c : nat) : reverse [a; b; c] = [c; b; a].
Proof. reflexivity. Qed.

Lemma rev2 (a b : nat) : reverse [a; b] = [b; a].
Proof. reflexivity. Qed.

(** Frames of one row against the squeezed output: (n, 1, C) with (n, C). *)
Lemma broadcast_row (n C : nat) :
  (2 <= n)%nat -> broadcast_shapes [n; 1%nat; C] [n; C] = Some [n; n; C].
Proof.
  intros Hn. unfold broadcast_shapes. rewrite rev3, rev2.
  cbn [broadcast_rev]. rewrite Nat.eqb_refl.
  destruct (1 =? n)%nat eqn:E1; [apply Nat.eqb_eq in E1; lia|].
  cbn [Nat.eqb fmap option_fmap option_map]. reflexivity.
Qed.

(** Frames of one column against the squeezed output: (n, R, 1) with (n, R). *)
Lemma broadcast_column (n R : nat) :
  (2 <= n)%nat -> (2 <= R)%nat -> n <> R ->
  broadcast_shapes [n; R; 1%nat] [n; R] = None.
Proof.
  intros Hn HR Hne. unfold broadcast_shapes. rewrite rev3, rev2.
  cbn [broadcast_rev].
  destruct (1 =? R)%nat eqn:E1; [apply Nat.eqb_eq in E1; lia|].
  cbn [Nat.eqb].
  destruct (R =? n)%nat eqn:E2; [apply Nat.eqb_eq in E2; lia|].
  destruct (R =? 1)%nat eqn:E3; [apply Nat.eqb_eq in E3; lia|].
  destruct (n =? 1)%nat eqn:E4; [apply Nat.eqb_eq in E4; lia|].
  reflexivity.
Qed.

Lemma squeeze_column (y : ndarray) (n R : nat) :
  shape y = [n; R; 1%nat; 1%nat] -> (2 <= n)%nat -> (2 <= R)%nat ->
  shape (squeeze y) = [n; R].
Proof.
  intros S Hn HR. unfold squeeze. cbn [shape]. rewrite S. cbn [List.filter].
  destruct (n =? 1)%nat eqn:E1; [apply Nat.eqb_eq in E1; lia|].
  destruct (R =? 1)%nat eqn:E2; [apply Nat.eqb_eq in E2; lia|].
  reflexivity.
Qed.

End EdgeFacts.

Import EdgeFacts.

Import Listing.

(** ** Paths, directory listings and sorting *)

Module ListingFacts.
Local Open Scope Z_scope.

Lemma strip_prefix_Some (a : string) : forall s r,
  strip_prefix a s = Some r <-> s = a +:+ r.
Proof.
  induction a as [|x a IH]; intros s r.
  - rewrite append_nil. cbn. split; [intros [= ->]; reflexivity|intros ->; reflexivity].
  - rewrite append_cons. destruct s as [|y s]; cbn.
    + split; discriminate.
    + destruct (Ascii.eqb x y) eqn:E.
      * apply Ascii.eqb_eq in E as ->. rewrite IH.
        split; [intros ->; reflexivity|intros [= ->]; reflexivity].
      * split; [discriminate|]. intros [= -> _].
        rewrite Ascii.eqb_refl in E. discriminate.
Qed.

Lemma strip_prefix_app (a b r : string) : strip_prefix a (a +:+ r) = Some r.
Proof. apply strip_prefix_Some. reflexivity. Qed.

Lemma prefix_strip (a : string) : forall s,
  String.prefix a s = true <-> is_Some (strip_prefix a s).
Proof.
  induction a as [|x a IH]; intros s.
  - destruct s; cbn; (split; [eauto|reflexivity]).
  - destruct s as [|y s]; cbn.
    + split; [discriminate|intros [? [=]]].
    + destruct (ascii_dec x y) as [->|Hne].
      * rewrite Ascii.eqb_refl. apply IH.
      * destruct (Ascii.eqb x y) eqn:E.
        { apply Ascii.eqb_eq in E. contradiction. }
        split; [discriminate|intros [? [=]]].
Qed.

Lemma has_sep_app (a b : string) : has_sep (a +:+ b) = has_sep a || has_sep b.
Proof.
  induction a as [|x a IH].
  - rewrite append_nil. reflexivity.
  - rewrite append_cons. cbn. rewrite IH. apply orb_assoc.
Qed.

Lemma upto_sep_id (s : string) : has_sep s = false -> upto_sep s = s.
Proof.
  induction s as [|x s IH]; cbn; [reflexivity|].
  intros H. apply orb_false_iff in H as [-> H]. rewrite IH by assumption.
  reflexivity.
Qed.

Lemma upto_sep_app (a r : string) :
  has_sep a = false -> upto_sep (a +:+ r) = a +:+ upto_sep r.
Proof.
  induction a as [|x a IH]; intros H.
  - rewrite !append_nil. reflexivity.
  - cbn in H. apply orb_false_iff in H as [E H].
    rewrite !append_cons. cbn. rewrite E, IH by assumption. reflexivity.
Qed.

(** A name that starts with [a] is the first component of a path that
    starts with [a]. *)
Lemma upto_sep_prefix (a : string) : forall r x,
  upto_sep r = a +:+ x ->
  exists r', r = a +:+ r' /\ upto_sep r' = x.
Proof.
  induction a as [|c a IH]; intros r x E.
  - rewrite append_nil in *. exists r. rewrite append_nil. auto.
  - rewrite append_cons in E. destruct r as [|y r]; [discriminate|].
    cbn in E. destruct (Ascii.eqb y "/"%char); [discriminate|].
    injection E as -> E. destruct (IH r x E) as (r' & -> & Er).
    exists r'. rewrite append_cons. auto.
Qed.

Lemma string_app_inv_head (a : string) : forall x y : string,
  a +:+ x = a +:+ y -> x = y.
Proof.
  induction a as [|c a IH]; intros x y E.
  - rewrite !append_nil in E. assumption.
  - rewrite !append_cons in E. injection E as E. auto.
Qed.

Lemma has_sep_fixed (k : nat) : forall n,
  0 <= n < 10 ^ Z.of_nat k -> has_sep (fixed k n) = false.
Proof.
  induction k as [|k IH]; intros n Hn; [reflexivity|].
  cbn [fixed has_sep]. rewrite pow10_succ in Hn.
  pose proof (pow10_pos k) as Hp.
  rewrite IH by (apply Z.mod_pos_bound; lia).
  rewrite orb_false_r.
  assert (0 <= n / 10 ^ Z.of_nat k < 10) as Hd.
  { split; [apply Z.div_pos; lia|]. apply Z.div_lt_upper_bound; lia. }
  apply Ascii.eqb_neq. intros E.
  apply (f_equal nat_of_ascii) in E.
  change (nat_of_ascii "/") with 47%nat in E.
  pose proof (digit_val _ Hd) as Hv. rewrite E in Hv. lia.
Qed.

(** The part of a batch file name after the folder's prefix has no
    separator. *)
Lemma has_sep_index (i : Z) : 0 <= i -> has_sep (format_05d i +:+ ".h5") = false.
Proof.
  intros Hi. destruct (format_05d_nonneg i Hi) as (k & _ & Hk & ->).
  rewrite has_sep_app, has_sep_fixed by lia. reflexivity.
Qed.

(** *** [os.path.split] of a joined path *)

Lemma head_of_join (a b : string) :
  has_sep b = false -> head_of (a +:+ String "/" b) = a +:+ "/".
Proof.
  intros Hb. induction a as [|c a IH].
  - rewrite !append_nil. cbn. rewrite Hb. reflexivity.
  - rewrite !append_cons. cbn [head_of].
    rewrite has_sep_app. cbn [has_sep]. rewrite Ascii.eqb_refl.
    rewrite orb_true_r. rewrite IH. reflexivity.
Qed.

Lemma tail_of_join (a b : string) :
  has_sep b = false -> tail_of (a +:+ String "/" b) = b.
Proof.
  intros Hb. induction a as [|c a IH].
  - rewrite !append_nil. cbn. rewrite Hb. reflexivity.
  - rewrite !append_cons. cbn [tail_of].
    rewrite has_sep_app. cbn [has_sep]. rewrite Ascii.eqb_refl.
    rewrite orb_true_r. exact IH.
Qed.

Lemma rstrip_sep_join (a : string) :
  a <> "" -> endswith_sep a = false -> rstrip_sep (a +:+ "/") = a.
Proof.
  induction a as [|c a IH]; intros Hne He; [contradiction|].
  rewrite append_cons. cbn [rstrip_sep].
  destruct a as [|c' a].
  - rewrite append_nil. cbn. cbn in He. rewrite He. reflexivity.
  - rewrite IH; [reflexivity|discriminate|exact He].
Qed.

Lemma head_of_nosep (b : string) : has_sep b = false -> head_of b = "".
Proof.
  destruct b as [|c b]; [reflexivity|]. cbn.
  intros H. apply orb_false_iff in H as [-> ->]. reflexivity.
Qed.

Lemma tail_of_nosep (b : string) : has_sep b = false -> tail_of b = b.
Proof.
  destruct b as [|c b]; [reflexivity|]. cbn.
  intros H. apply orb_false_iff in H as [-> ->]. reflexivity.
Qed.

(** A folder name as [os.path.dirname] returns it, joined with a name. *)
Lemma join_plain (fld b : string) :
  endswith_sep fld = false -> startswith_sep b = false ->
  os_path_join fld b = dir_prefix fld +:+ b.
Proof.
  intros He Hb. unfold os_path_join, dir_prefix. rewrite Hb, He.
  destruct (String.eqb fld ""); cbn [orb]; [reflexivity|].
  rewrite string_app_assoc. reflexivity.
Qed.

Lemma split_join (fld b : string) :
  endswith_sep fld = false -> has_sep b = false -> startswith_sep b = false ->
  os_path_split (os_path_join fld b) = (fld, b).
Proof.
  intros He Hb Hs. rewrite join_plain by assumption. unfold dir_prefix, os_path_split.
  rewrite He. destruct (String.eqb fld "") eqn:E; cbn [orb].
  - apply String.eqb_eq in E as ->. rewrite append_nil.
    rewrite head_of_nosep, tail_of_nosep by assumption. reflexivity.
  - apply String.eqb_neq in E.
    rewrite string_app_assoc.
    change ("/" +:+ b) with (String "/" b).
    rewrite head_of_join, tail_of_join by assumption.
    rewrite rstrip_sep_join by assumption.
    apply String.eqb_neq in E. rewrite E. reflexivity.
Qed.

Lemma name_prefix_dir (fld : string) :
  name_prefix fld = dir_prefix fld +:+ "pfc_back_removed_".
Proof.
  unfold name_prefix, dir_prefix.
  destruct (String.eqb fld "" || endswith_sep fld); [reflexivity|].
  rewrite string_app_assoc. reflexivity.
Qed.

(** *** The listing of the batch files *)

Lemma elem_of_keys (disk : gmap string file) (k : string) :
  k ∈ map fst (map_to_list disk) <-> is_Some (disk !! k).
Proof.
  rewrite list_elem_of_fmap. split.
  - intros ([k' v] & -> & H). apply elem_of_map_to_list in H. eauto.
  - intros [v H]. exists (k, v). split; [reflexivity|].
    apply elem_of_map_to_list. assumption.
Qed.

Lemma elem_of_listdir (disk : gmap string file) (dirname n : string) :
  n ∈ listdir disk dirname <->
  exists k, is_Some (disk !! k) /\ entry dirname k = Some n.
Proof.
  unfold listdir. rewrite elem_of_remove_dups, list_elem_of_omap.
  split; intros (k & H1 & H2); exists k.
  - apply elem_of_keys in H1. auto.
  - split; [apply elem_of_keys|]; assumption.
Qed.

(** The entries that continue the literal part of the pattern. *)
Lemma entry_batch (fld k x : string) :
  entry fld k = Some ("pfc_back_removed_" +:+ x) <->
  exists rest, k = name_prefix fld +:+ rest /\ upto_sep rest = x.
Proof.
  rewrite name_prefix_dir. unfold entry. split.
  - destruct (String.eqb fld "" && startswith_sep k); [discriminate|].
    destruct (strip_prefix (dir_prefix fld) k) as [rest'|] eqn:E; [|discriminate].
    apply strip_prefix_Some in E as ->.
    destruct (String.eqb (upto_sep rest') ""); [discriminate|].
    intros [= E]. apply upto_sep_prefix in E as (r' & -> & E).
    exists r'. rewrite string_app_assoc. auto.
  - intros (rest & -> & <-).
    rewrite string_app_assoc.
    assert (String.eqb fld "" &&
            startswith_sep (dir_prefix fld +:+ "pfc_back_removed_" +:+ rest) = false)
      as ->.
    { unfold dir_prefix. destruct (String.eqb fld "") eqn:E; [|reflexivity].
      apply String.eqb_eq in E as ->. reflexivity. }
    rewrite strip_prefix_app by exact "".
    rewrite upto_sep_app by reflexivity. reflexivity.
Qed.

Lemma prefix_batch (n : string) :
  String.prefix "pfc_back_removed_" n = true <->
  exists x, n = "pfc_back_removed_" +:+ x.
Proof.
  rewrite prefix_strip. split.
  - intros [x E]. exists x. apply strip_prefix_Some. assumption.
  - intros [x ->]. exists x. apply strip_prefix_app. exact "".
Qed.

Lemma glob_eq (disk : gmap string file) (fld : string) :
  endswith_sep fld = false ->
  glob disk (os_path_join fld "pfc_back_removed_*") =
  map (fun n => dir_prefix fld +:+ n)
      (List.filter (String.prefix "pfc_back_removed_") (listdir disk fld)).
Proof.
  intros He. unfold glob. rewrite split_join by (assumption || reflexivity).
  cbn [fst snd].
  change (init "pfc_back_removed_*") with "pfc_back_removed_".
  change (ishidden "pfc_back_removed_*") with false. cbn [orb].
  rewrite (List.filter_ext
             (fun n => String.prefix "pfc_back_removed_" n && negb (ishidden n))
             (String.prefix "pfc_back_removed_")).
  2:{ intros n. destruct (String.prefix "pfc_back_removed_" n) eqn:E; [|reflexivity].
      apply prefix_batch in E as [x ->]. reflexivity. }
  destruct (String.eqb fld "") eqn:E.
  - apply String.eqb_eq in E as ->.
    change (dir_prefix "") with "".
    rewrite <- (map_id (List.filter _ _)) at 1.
    apply map_ext. intros n. rewrite append_nil. reflexivity.
  - apply map_ext_in. intros n Hn.
    apply filter_In in Hn as [_ Hn]. apply prefix_batch in Hn as [x ->].
    apply join_plain; [assumption|reflexivity].
Qed.

Lemma elem_of_glob (disk : gmap string file) (fld p : string) :
  endswith_sep fld = false ->
  p ∈ glob disk (os_path_join fld "pfc_back_removed_*") <->
  exists k rest, is_Some (disk !! k) /\ k = name_prefix fld +:+ rest /\
                 p = name_prefix fld +:+ upto_sep rest.
Proof.
  intros He. rewrite glob_eq by assumption.
  rewrite list_elem_of_fmap. split.
  - intros (n & -> & Hn). apply list_elem_of_In, filter_In in Hn as [Hn Hp].
    apply prefix_batch in Hp as [x ->].
    apply list_elem_of_In, elem_of_listdir in Hn as (k & Hk & Ek).
    apply entry_batch in Ek as (rest & -> & <-).
    exists (name_prefix fld +:+ rest), rest.
    split; [assumption|]. split; [reflexivity|].
    rewrite name_prefix_dir, string_app_assoc. reflexivity.
  - intros (k & rest & Hk & -> & ->).
    exists ("pfc_back_removed_" +:+ upto_sep rest). split.
    + rewrite name_prefix_dir, string_app_assoc. reflexivity.
    + apply list_elem_of_In, filter_In. split.
      * apply list_elem_of_In, elem_of_listdir.
        exists (name_prefix fld +:+ rest). split; [assumption|].
        apply entry_batch. eauto.
      * apply prefix_batch. eauto.
Qed.

Lemma NoDup_glob (disk : gmap string file) (fld : string) :
  endswith_sep fld = false ->
  NoDup (glob disk (os_path_join fld "pfc_back_removed_*")).
Proof.
  intros He. rewrite glob_eq by assumption.
  apply NoDup_fmap_2.
  - intros x y E. apply string_app_inv_head in E. assumption.
  - apply NoDup_ListNoDup, List.NoDup_filter, NoDup_ListNoDup.
    apply NoDup_remove_dups.
Qed.

(** *** Sorting *)

Lemma insert_sorted_perm {A} (leb : A -> A -> bool) (x : A) (l : list A) :
  insert_sorted leb x l ≡ₚ x :: l.
Proof.
  induction l as [|y l IH]; cbn; [reflexivity|].
  destruct (leb x y); [reflexivity|].
  rewrite IH. apply Permutation_swap.
Qed.

Lemma sort_by_perm {A} (leb : A -> A -> bool) (l : list A) : sort_by leb l ≡ₚ l.
Proof.
  induction l as [|x l IH]; [reflexivity|].
  change (insert_sorted leb x (sort_by leb l) ≡ₚ x :: l).
  rewrite insert_sorted_perm. rewrite IH. reflexivity.
Qed.

Lemma insert_sorted_map {A B} (f : A -> B) (leA : A -> A -> bool)
    (leB : B -> B -> bool) (x : A) (l : list A) :
  (forall y, y ∈ l -> leB (f x) (f y) = leA x y) ->
  insert_sorted leB (f x) (map f l) = map f (insert_sorted leA x l).
Proof.
  induction l as [|y l IH]; intros H; cbn; [reflexivity|].
  rewrite H by apply list_elem_of_here.
  destruct (leA x y); [reflexivity|].
  cbn. rewrite IH; [reflexivity|].
  intros z Hz. apply H. apply list_elem_of_further. assumption.
Qed.

(** Sorting commutes with a map that carries one order to the other. *)
Lemma sort_by_map {A B} (f : A -> B) (leA : A -> A -> bool)
    (leB : B -> B -> bool) (l : list A) :
  (forall x y, x ∈ l -> y ∈ l -> leB (f x) (f y) = leA x y) ->
  sort_by leB (map f l) = map f (sort_by leA l).
Proof.
  induction l as [|x l IH]; intros H; [reflexivity|].
  change (insert_sorted leB (f x) (sort_by leB (map f l)) =
          map f (insert_sorted leA x (sort_by leA l))).
  rewrite IH.
  2:{ intros a b Ha Hb. apply H; apply list_elem_of_further; assumption. }
  apply insert_sorted_map. intros y Hy.
  apply H; [apply list_elem_of_here|].
  apply list_elem_of_further.
  rewrite <- (sort_by_perm leA l). assumption.
Qed.

Lemma insert_sorted_Z (x : Z) (l : list Z) :
  Sorted Z.le l -> Sorted Z.le (insert_sorted Z.leb x l).
Proof.
  induction 1 as [|y l Hs IH Hd]; cbn.
  - repeat constructor.
  - destruct (x <=? y) eqn:E.
    + apply Z.leb_le in E. repeat constructor; assumption.
    + apply Z.leb_gt in E. constructor; [assumption|].
      destruct Hd as [|z l Hz]; cbn.
      * constructor. lia.
      * destruct (x <=? z); constructor; lia.
Qed.

Lemma sort_by_Z_sorted (l : list Z) : Sorted Z.le (sort_by Z.leb l).
Proof.
  induction l as [|x l IH]; [constructor|].
  change (Sorted Z.le (insert_sorted Z.leb x (sort_by Z.leb l))).
  apply insert_sorted_Z. assumption.
Qed.

(** Sorting a rearrangement of an ascending list gives the list back. *)
Lemma sort_by_Z_unique (l l0 : list Z) :
  l ≡ₚ l0 -> Sorted Z.le l0 -> sort_by Z.leb l = l0.
Proof.
  intros Hp Hs.
  apply (Sorted_unique Z.le).
  - apply sort_by_Z_sorted.
  - assumption.
  - rewrite sort_by_perm. assumption.
Qed.

Lemma starts_sorted (T bl : Z) : 0 < bl -> Sorted Z.le (starts T bl).
Proof.
  intros Hbl. unfold starts. generalize (Z.to_nat (ceil_div T bl)). intros n.
  generalize 0%nat. induction n as [|n IH]; intros a; cbn; [constructor|].
  constructor; [apply IH|].
  destruct n; cbn; constructor. nia.
Qed.

(** Below 100000 the file names compare as their indices do. *)
Lemma temp_file_leb (w : world) (i j : Z) :
  0 <= i < 10 ^ 5 -> 0 <= j < 10 ^ 5 ->
  String.leb (temp_file w i) (temp_file w j) = (i <=? j).
Proof.
  intros Hi Hj. unfold String.leb.
  destruct (Z.compare_spec i j) as [->|Hlt|Hgt].
  - rewrite string_compare_refl. symmetry. apply Z.leb_le. lia.
  - pose proof (temp_file_ltb w i j ltac:(lia) Hlt ltac:(lia)) as H.
    unfold String.ltb in H.
    destruct (String.compare (temp_file w i) (temp_file w j)); try discriminate.
    symmetry. apply Z.leb_le. lia.
  - pose proof (temp_file_ltb w j i ltac:(lia) Hgt ltac:(lia)) as H.
    unfold String.ltb in H. rewrite String.compare_antisym.
    destruct (String.compare (temp_file w j) (temp_file w i)); try discriminate.
    cbn. symmetry. apply Z.leb_gt. lia.
Qed.

(** The listing after a run into a folder that held no batch files. *)
Lemma glob_written (w : world) (bl : Z) (l : list Z) fs0 :
  endswith_sep (fld_name w) = false ->
  Forall (fun i => 0 <= i) l -> NoDup l ->
  Forall (fun i => is_Some (filtered w bl i)) l ->
  no_batch_files fs0 (fld_name w) ->
  glob (written w bl l fs0) (os_path_join (fld_name w) "pfc_back_removed_*")
  ≡ₚ map (temp_file w) l.
Proof.
  intros He Hnn Hnd Hs Hclean.
  apply NoDup_Permutation.
  - apply NoDup_glob. assumption.
  - apply NoDup_fmap_2_strong; [|assumption].
    intros i j Hi Hj E. rewrite Forall_forall in Hnn.
    apply (temp_file_inj w); auto.
  - intros p. rewrite elem_of_glob by assumption. split.
    + intros (k & rest & Hk & -> & ->).
      destruct (decide (name_prefix (fld_name w) +:+ rest ∈ map (temp_file w) l))
        as [Hin|Hout].
      * apply list_elem_of_fmap in Hin as (i & E & Hi).
        rewrite temp_file_eq in E. apply string_app_inv_head in E as ->.
        rewrite Forall_forall in Hnn.
        rewrite upto_sep_id by (apply has_sep_index; auto).
        rewrite <- temp_file_eq. apply list_elem_of_fmap. eauto.
      * rewrite written_other in Hk by assumption.
        apply Hclean in Hk. rewrite strip_prefix_app in Hk by exact "".
        discriminate.
    + intros Hp. apply list_elem_of_fmap in Hp as (i & -> & Hi).
      rewrite Forall_forall in Hs, Hnn. destruct (Hs i Hi) as [a Fa].
      exists (temp_file w i), (format_05d i +:+ ".h5").
      split; [|split].
      * rewrite (written_lookup w bl l fs0 i a); eauto.
        apply Forall_forall. assumption.
      * apply temp_file_eq.
      * rewrite upto_sep_id by (apply has_sep_index; auto).
        apply temp_file_eq.
Qed.

(** The listing only depends on the paths that continue the prefix. *)
Lemma glob_agree (d1 d2 : gmap string file) (fld : string) :
  endswith_sep fld = false ->
  (forall rest, d1 !! (name_prefix fld +:+ rest) = d2 !! (name_prefix fld +:+ rest)) ->
  glob d1 (os_path_join fld "pfc_back_removed_*")
  ≡ₚ glob d2 (os_path_join fld "pfc_back_removed_*").
Proof.
  intros He Hag.
  apply NoDup_Permutation; [apply NoDup_glob; assumption..|].
  intros p. rewrite !elem_of_glob by assumption.
  split; intros (k & rest & Hk & -> & ->); exists (name_prefix fld +:+ rest), rest;
    (split; [|split; reflexivity]).
  - rewrite <- Hag. assumption.
  - rewrite Hag. assumption.
Qed.

Lemma elem_of_sort (l : list string) (p : string) : p ∈ sort l <-> p ∈ l.
Proof. unfold sort. rewrite (sort_by_perm String.leb l). reflexivity. Qed.

(** *** What [os.path.dirname] returns *)

Lemma endswith_has_sep (h : string) : endswith_sep h = true -> has_sep h = true.
Proof.
  induction h as [|c h IH]; [discriminate|].
  intros H. destruct h as [|c' h].
  - cbn in *. rewrite H. reflexivity.
  - change (Ascii.eqb c "/"%char || has_sep (String c' h) = true).
    rewrite IH; [apply orb_true_r|exact H].
Qed.

Lemma head_of_app_end (h name : string) :
  endswith_sep h = true -> has_sep name = false -> head_of (h +:+ name) = h.
Proof.
  intros He Hn. induction h as [|c h IH]; [discriminate|].
  rewrite append_cons. cbn [head_of]. destruct h as [|c' h].
  - rewrite append_nil, Hn. cbn in He. rewrite He.
    apply Ascii.eqb_eq in He as ->. reflexivity.
  - rewrite has_sep_app, (endswith_has_sep (String c' h) He). cbn [orb].
    rewrite IH by exact He. reflexivity.
Qed.

Lemma tail_of_app_end (h name : string) :
  endswith_sep h = true -> has_sep name = false -> tail_of (h +:+ name) = name.
Proof.
  intros He Hn. induction h as [|c h IH]; [discriminate|].
  rewrite append_cons. cbn [tail_of]. destruct h as [|c' h].
  - rewrite append_nil, Hn. cbn in He. rewrite He. reflexivity.
  - rewrite has_sep_app, (endswith_has_sep (String c' h) He). cbn [orb].
    apply IH. exact He.
Qed.

Lemma rstrip_sep_end (s : string) :
  rstrip_sep s <> "" -> endswith_sep (rstrip_sep s) = false.
Proof.
  induction s as [|c s IH]; [contradiction|].
  cbn [rstrip_sep]. destruct (rstrip_sep s) as [|c' r] eqn:E.
  - destruct (Ascii.eqb c "/"%char) eqn:Ec; [contradiction|].
    intros _. cbn. exact Ec.
  - intros _. apply IH. discriminate.
Qed.

Lemma rstrip_sep_idem (s : string) : rstrip_sep (rstrip_sep s) = rstrip_sep s.
Proof.
  induction s as [|c s IH]; [reflexivity|].
  cbn [rstrip_sep]. destruct (rstrip_sep s) as [|c' r] eqn:E.
  - destruct (Ascii.eqb c "/"%char) eqn:Ec; [reflexivity|].
    cbn. rewrite Ec. reflexivity.
  - cbn [rstrip_sep]. cbn [rstrip_sep] in IH. rewrite IH. reflexivity.
Qed.

Lemma startswith_has_sep (s : string) : has_sep s = false -> startswith_sep s = false.
Proof.
  destruct s as [|c s]; [reflexivity|]. cbn.
  intros H. apply orb_false_iff in H as [-> _]. reflexivity.
Qed.

(** Joining a name to a folder that [os.path.dirname] returned and
    taking the directory part again gives the folder back. *)
Lemma dirname_join (path name : string) :
  has_sep name = false ->
  os_path_split (os_path_join (os_path_dirname path) name)
  = (os_path_dirname path, name).
Proof.
  intros Hn. pose proof (startswith_has_sep name Hn) as Hs.
  unfold os_path_dirname at 1 2. unfold os_path_split at 2 3. cbn [fst].
  set (h := head_of path).
  destruct (String.eqb (rstrip_sep h) "") eqn:E.
  - apply String.eqb_eq in E.
    destruct (endswith_sep h) eqn:He.
    + unfold os_path_join. rewrite Hs, He, orb_true_r.
      unfold os_path_split.
      rewrite head_of_app_end, tail_of_app_end by assumption.
      rewrite E. reflexivity.
    + apply split_join; assumption.
  - apply String.eqb_neq in E.
    apply split_join; [|assumption|assumption].
    apply rstrip_sep_end. assumption.
Qed.

(** *** Names of six digits *)

Lemma insert_sorted_leb (x : string) (l : list string) :
  Sorted leb_rel l -> Sorted leb_rel (insert_sorted String.leb x l).
Proof.
  induction 1 as [|y l Hs IH Hd]; cbn.
  - repeat constructor.
  - destruct (String.leb x y) eqn:E.
    + repeat constructor; assumption.
    + assert (leb_rel y x) as Hyx.
      { destruct (String.leb_total x y) as [H|H]; [congruence|exact H]. }
      constructor; [assumption|].
      destruct Hd as [|z l Hz]; cbn.
      * constructor. assumption.
      * destruct (String.leb x z); constructor; assumption.
Qed.

(** A sorted list of names is ascending from each name to the next. *)
Lemma sort_sorted (l : list string) : Sorted leb_rel (sort l).
Proof.
  induction l as [|x l IH]; [constructor|].
  change (Sorted leb_rel (insert_sorted String.leb x (sort l))).
  apply insert_sorted_leb. assumption.
Qed.

Lemma Sorted_adjacent {A} (R : A -> A -> Prop) (l : list A) : forall (k : nat) a b,
  Sorted R l -> l !! k = Some a -> l !! S k = Some b -> R a b.
Proof.
  induction l as [|x l IH]; intros k a b Hs Ha Hb; [discriminate|].
  apply Sorted_inv in Hs as [Hs Hd].
  destruct k as [|k].
  - cbn in Ha, Hb. injection Ha as ->.
    destruct l as [|y l]; [discriminate|]. cbn in Hb. injection Hb as ->.
    apply HdRel_inv in Hd. assumption.
  - cbn in Ha, Hb. eapply IH; eassumption.
Qed.

(** A name of five digits that starts with 2 or more sorts after every
    name of six digits that starts with 1. *)
Lemma temp_file_six_digits (w : world) (i j : Z) :
  20000 <= i < 100000 -> 100000 <= j < 200000 ->
  String.leb (temp_file w i) (temp_file w j) = false.
Proof.
  intros Hi Hj. unfold String.leb. rewrite !temp_file_eq.
  rewrite string_compare_app.
  rewrite (format_05d_small i) by lia.
  destruct (format_05d_nonneg j ltac:(lia)) as (k & Hk & Hlt & ->).
  destruct k as [|k]; [lia|].
  assert (5 <= k)%nat as Hk5.
  { destruct (decide (5 <= k)%nat) as [|Hn]; [assumption|].
    assert (k = 4)%nat as -> by lia. cbn in Hlt. lia. }
  change (fixed 5 i) with
    (String (digit (i / 10 ^ Z.of_nat 4)) (fixed 4 (i mod 10 ^ Z.of_nat 4))).
  cbn [fixed]. rewrite !append_cons. cbn [String.compare].
  assert (2 <= i / 10 ^ Z.of_nat 4 < 10) as Hdi.
  { change (10 ^ Z.of_nat 4) with 10000.
    split; [apply Z.div_le_lower_bound; lia|apply Z.div_lt_upper_bound; lia]. }
  assert (0 <= j / 10 ^ Z.of_nat k < 2) as Hdj.
  { pose proof (pow10_mono 5 k Hk5) as Hm. change (10 ^ Z.of_nat 5) with 100000 in Hm.
    split; [apply Z.div_pos; lia|]. apply Z.div_lt_upper_bound; lia. }
  rewrite digit_compare by lia.
  destruct (Z.compare_spec (i / 10 ^ Z.of_nat 4) (j / 10 ^ Z.of_nat k));
    [exfalso; lia|exfalso; lia|reflexivity].
Qed.

Lemma ramp_is_movie (T R C : nat) : is_movie (ramp T R C) T R C.
Proof.
  split; [reflexivity|]. unfold wf, ramp. cbn [data shape].
  rewrite length_map, length_seq, !size_of_cons.
  change (size_of []) with 1%nat. lia.
Qed.

End ListingFacts.

Import ListingFacts.

Import Movie.

(** ** Pixel vectors read as images *)

Module MovieFacts.
Local Open Scope nat_scope.

Lemma item_transpose_021 (a : ndarray) (T d1 d2 r c t : nat) :
  shape a = [T; d1; d2] -> r < d1 -> c < d2 -> t < T ->
  item (transpose a [0; 2; 1]) [t; c; r] = item a [t; r; c].
Proof.
  intros S Hr Hc Ht. unfold transpose. rewrite S. simpl map at 1.
  rewrite item_build by (repeat constructor; assumption). reflexivity.
Qed.

Lemma item2 (a : ndarray) (P K p k : nat) :
  shape a = [P; K] -> item a [p; k] = nth (p * K + k) (data a) S754_nan.
Proof.
  intros S. unfold item. rewrite S. cbn [ravel]. f_equal.
  rewrite !size_of_cons. change (size_of []) with 1. lia.
Qed.

Lemma infer_last_pixels (d1 d2 K : nat) :
  1 <= d1 -> 1 <= d2 ->
  infer_last (size_of [d1 * d2; K]) [d1; d2] = Some K.
Proof.
  intros H1 H2. unfold infer_last.
  assert (size_of [d1; d2] = d1 * d2) as -> by (simpl; lia).
  assert (size_of [d1 * d2; K] = K * (d1 * d2)) as -> by (simpl; lia).
  assert (d1 * d2 <> 0) as Hp by nia.
  destruct (d1 * d2 =? 0) eqn:E; [apply Nat.eqb_eq in E; contradiction|].
  rewrite Nat.Div0.mod_mul. cbn [Nat.eqb].
  rewrite Nat.div_mul by assumption. reflexivity.
Qed.

(** The columns of a (pixels, K) array as K images, pixel [r + d1 * c] of
    a column at row [r] and column [c]. *)
Lemma footprints_items (A : ndarray) (d1 d2 K : nat) :
  wf A -> shape A = [d1 * d2; K] -> 1 <= d1 -> 1 <= d2 ->
  exists imgs,
    footprints A [d1; d2] = Some imgs /\
    shape imgs = [K; d1; d2] /\ wf imgs /\
    forall k r c, k < K -> r < d1 -> c < d2 ->
      item imgs [k; r; c] = item A [r + d1 * c; k].
Proof.
  intros W S H1 H2. unfold footprints. rewrite S.
  rewrite infer_last_pixels by assumption.
  unfold reshape. rewrite S. cbn [app].
  replace (size_of [d1; d2; K] =? size_of [d1 * d2; K]) with true
    by (symmetry; apply Nat.eqb_eq; simpl; lia).
  eexists. split; [reflexivity|]. split; [reflexivity|]. split; [apply wf_build|].
  intros k r c Hk Hr Hc.
  pose proof (pixel_lt d1 d2 r c Hr Hc).
  rewrite (item_transpose_201 _ K d1 d2) by (try reflexivity; assumption).
  rewrite item_build by (repeat constructor; assumption).
  replace (ravel_F [d1; d2; K] [r; c; k])
    with (ravel_F [d1 * d2; K] [r + d1 * c; k]) by (simpl; nia).
  rewrite unravel_F_ravel_F by (repeat constructor; assumption).
  reflexivity.
Qed.

(** The same array reshaped in the default order: row [r * d2 + c] of a
    column at row [r] and column [c]. *)
Lemma components_movie_items (AC : ndarray) (d1 d2 T : nat) :
  wf AC -> shape AC = [d1 * d2; T] ->
  exists m4,
    components_movie AC [d1; d2] T = Some m4 /\
    shape m4 = [T; d1; d2] /\ wf m4 /\
    forall t r c, t < T -> r < d1 -> c < d2 ->
      item m4 [t; r; c] = item AC [r * d2 + c; t].
Proof.
  intros W S. unfold components_movie, cm_movie, reshape. rewrite S. cbn [app].
  replace (size_of [d1; d2; T] =? size_of [d1 * d2; T]) with true
    by (symmetry; apply Nat.eqb_eq; simpl; lia).
  eexists. split; [reflexivity|]. split; [reflexivity|]. split; [apply wf_build|].
  intros t r c Ht Hr Hc.
  rewrite (item_transpose_201 _ T d1 d2) by (try reflexivity; assumption).
  rewrite (item2 AC (d1 * d2) T) by assumption.
  unfold item. cbn [shape data ravel]. f_equal.
  rewrite !size_of_cons. change (size_of []) with 1. lia.
Qed.

End MovieFacts.

Import MovieFacts.

Import Timing.

(** ** Arrays of timings *)

Module TimingFacts.
Local Open Scope Z_scope.

Lemma item1 (a : ndarray) (n k : nat) :
  shape a = [n] -> item a [k] = nth k (data a) S754_nan.
Proof.
  intros S. unfold item. rewrite S. cbn [ravel]. f_equal.
  change (size_of []) with 1%nat. lia.
Qed.

Lemma getitem_exn (a : ndarray) (k : Z) (e : exn) :
  getitem a k = inl e -> e = IndexError.
Proof.
  unfold getitem.
  destruct ((0 <=? k) && (k <? Z.of_nat (length (data a)))); [discriminate|].
  destruct ((- Z.of_nat (length (data a)) <=? k) && (k <? 0)); [discriminate|].
  intros [= <-]. reflexivity.
Qed.

(** An index from the length of the array on is out of range. *)
Lemma getitem_out (a : ndarray) (k : Z) :
  Z.of_nat (length (data a)) <= k -> getitem a k = inl IndexError.
Proof.
  intros H. unfold getitem.
  replace (k <? Z.of_nat (length (data a))) with false
    by (symmetry; apply Z.ltb_ge; lia).
  replace (k <? 0) with false by (symmetry; apply Z.ltb_ge; lia).
  rewrite !andb_false_r. reflexivity.
Qed.

Lemma length_tc_init (t_init : f64) (n : Z) (a : ndarray) :
  tc_init t_init n = Some a -> 0 <= n /\ Z.of_nat (length (data a)) = n.
Proof.
  unfold tc_init. destruct (n <? 0) eqn:E; [discriminate|].
  apply Z.ltb_ge in E. intros [= <-]. cbn [array1 data].
  rewrite length_map, length_replicate. lia.
Qed.

(** The padded arrays start with [init_batch] zeros. *)
Lemma padded_ms_data (init_batch : nat) (t : list f64) :
  data (padded_ms init_batch t) =
  replicate init_batch zero64 ++ map (mul64 (of_int 1000)) t.
Proof.
  unfold padded_ms, array1. cbn [data]. rewrite map_app. f_equal.
  induction init_batch as [|n IH]; [reflexivity|].
  cbn [replicate map]. rewrite IH. reflexivity.
Qed.

Lemma padded_ms_shape (init_batch : nat) (t : list f64) :
  shape (padded_ms init_batch t) = [(init_batch + length t)%nat].
Proof.
  unfold padded_ms, array1. cbn [shape].
  rewrite length_map, length_app, length_replicate. reflexivity.
Qed.

Lemma padded_ms_zero (init_batch : nat) (t : list f64) (k : nat) :
  (k < init_batch)%nat -> item (padded_ms init_batch t) [k] = zero64.
Proof.
  intros Hk. rewrite (item1 _ _ k (padded_ms_shape init_batch t)).
  rewrite padded_ms_data, app_nth1 by (rewrite length_replicate; lia).
  rewrite nth_lookup, lookup_replicate_2 by lia. reflexivity.
Qed.

Lemma length_cumsum_from (l : list f64) : forall acc,
  length (cumsum_from acc l) = length l.
Proof. induction l as [|x l IH]; intros acc; cbn; [|rewrite IH]; reflexivity. Qed.

Lemma length_cumsum (l : list f64) : length (cumsum l) = length l.
Proof. destruct l; cbn; [|rewrite length_cumsum_from]; reflexivity. Qed.

(** The running sums of a sequence that starts with zeros start with as
    many zeros. *)
Lemma cumsum_from_zero (l : list f64) : forall k : nat,
  (k < length l)%nat ->
  (forall j : nat, (j <= k)%nat -> nth j l S754_nan = zero64) ->
  nth k (cumsum_from zero64 l) S754_nan = zero64.
Proof.
  induction l as [|x l IH]; intros k Hk Hz; [cbn in Hk; lia|].
  pose proof (Hz 0%nat ltac:(lia)) as H0. cbn in H0. subst x.
  cbn [cumsum_from]. change (add64 zero64 zero64) with zero64.
  destruct k as [|k]; [reflexivity|].
  cbn [nth]. apply IH; [cbn in Hk; lia|].
  intros j Hj. apply (Hz (S j)). lia.
Qed.

Lemma cumsum_zero (l : list f64) (k : nat) :
  (k < length l)%nat ->
  (forall j : nat, (j <= k)%nat -> nth j l S754_nan = zero64) ->
  nth k (cumsum l) S754_nan = zero64.
Proof.
  intros Hk Hz. destruct l as [|x l]; [cbn in Hk; lia|].
  pose proof (Hz 0%nat ltac:(lia)) as H0. cbn in H0. subst x.
  cbn [cumsum]. destruct k as [|k]; [reflexivity|].
  cbn [nth]. apply cumsum_from_zero; [cbn in Hk; lia|].
  intros j Hj. apply (Hz (S j)). lia.
Qed.

Lemma cumulative_s_zero (a : ndarray) (n k : nat) :
  shape a = [n] -> wf a -> (k < n)%nat ->
  (forall j : nat, (j <= k)%nat -> item a [j] = zero64) ->
  item (cumulative_s a) [k] = zero64.
Proof.
  intros S W Hk Hz.
  assert (length (data a) = n) as L.
  { unfold wf in W. rewrite W, S. cbn. lia. }
  unfold cumulative_s. rewrite (item1 _ (length _) k) by reflexivity.
  cbn [array1 data].
  rewrite nth_lookup, list_lookup_fmap.
  destruct (cumsum (data a) !! k) as [x|] eqn:E.
  2:{ apply lookup_ge_None in E. rewrite length_cumsum in E.
      unfold f64, pixel in *. exfalso. lia. }
  pose proof (cumsum_zero (data a) k ltac:(unfold f64, pixel in *; lia)) as Hc.
  rewrite nth_lookup, E in Hc. cbn in Hc. rewrite Hc.
  - reflexivity.
  - intros j Hj. rewrite <- (Hz j Hj). symmetry. apply (item1 a n j S).
Qed.

(** Subtraction of two 1-d arrays of the same length. *)
Lemma sub_same_length (a b : ndarray) (n : nat) :
  shape a = [n] -> shape b = [n] ->
  exists c, broadcast2 sub64 a b = Some c /\ shape c = [n] /\ wf c /\
    forall k : nat, (k < n)%nat -> item c [k] = sub64 (item a [k]) (item b [k]).
Proof.
  intros Sa Sb.
  destruct (broadcast2 sub64 a b) as [c|] eqn:E.
  2:{ unfold broadcast2 in E. rewrite Sa, Sb, broadcast_shapes_same in E.
      discriminate. }
  destruct (shape_broadcast2 _ _ _ _ E) as [Sc Wc].
  rewrite Sa, Sb, broadcast_shapes_same in Sc. injection Sc as Sc.
  exists c. split; [reflexivity|]. split; [congruence|]. split; [assumption|].
  intros k Hk.
  assert (in_bounds [n] [k]) as Hin by (repeat constructor; assumption).
  rewrite (item_broadcast2 _ _ _ _ [k] E) by (rewrite <- Sc; assumption).
  rewrite Sa, Sb, bidx_self by assumption. reflexivity.
Qed.

(** *** Slices with a step *)

Lemma lookup_omap_all {A B} (f : A -> option B) (l : list A) : forall k : nat,
  Forall (fun x => is_Some (f x)) l ->
  omap f l !! k = l !! k ≫= f.
Proof.
  induction l as [|x l IH]; intros k H; [reflexivity|].
  apply Forall_cons in H as [[y Hy] H].
  rewrite omap_cons, Hy. destruct k as [|k]; cbn; [auto|].
  apply IH. assumption.
Qed.

Lemma slice_step_up {A} (l : list A) (ds : Z) :
  0 < ds ->
  exists ys, slice_step l ds = Some ys /\
    Z.of_nat (length ys) = ceil_div (Z.of_nat (length l)) ds /\
    forall k : nat, (k < length ys)%nat ->
      (k * Z.to_nat ds < length l)%nat /\ ys !! k = l !! (k * Z.to_nat ds)%nat.
Proof.
  intros Hds. unfold slice_step.
  replace (ds =? 0) with false by (symmetry; apply Z.eqb_neq; lia).
  replace (0 <? ds) with true by (symmetry; apply Z.ltb_lt; lia).
  set (n := Z.of_nat (length l)).
  pose proof (ceil_div_nonneg n ds Hds ltac:(lia)) as Hm.
  pose proof (ceil_div_bounds n ds Hds ltac:(lia)) as Hb.
  set (m := Z.to_nat (ceil_div n ds)) in *.
  assert (forall k : nat, (k < m)%nat -> (k * Z.to_nat ds < length l)%nat) as Hlt.
  { intros k Hk. destruct Hb as [Hb|[_ Hb]]; [|lia].
    assert (Z.of_nat k * ds < n) by nia. unfold n in *. nia. }
  assert (Forall (fun k => is_Some (l !! (k * Z.to_nat ds)%nat)) (seq 0 m)) as Hall.
  { apply Forall_forall. intros k Hk. apply elem_of_seq in Hk.
    apply lookup_lt_is_Some. apply Hlt. lia. }
  eexists. split; [reflexivity|].
  rewrite length_omap_all by assumption. rewrite length_seq.
  split; [unfold m; lia|].
  intros k Hk. split; [auto|].
  rewrite lookup_omap_all by assumption.
  rewrite lookup_seq_lt by assumption. reflexivity.
Qed.

Lemma lookup_arange (n k : nat) :
  (k < n)%nat -> arange n !! k = Some (Z.of_nat k).
Proof.
  intros H. unfold arange. rewrite list_lookup_fmap, lookup_seq_lt by assumption.
  reflexivity.
Qed.

Lemma length_arange (n : nat) : length (arange n) = n.
Proof. unfold arange. rewrite length_map, length_seq. reflexivity. Qed.

End TimingFacts.

Import TimingFacts.

(** ** Further properties of the two cells *)

Local Open Scope Z_scope.

(** X1: the loop of cell 19 reads the movie without gap or overlap. For a
    movie of T >= 1 frames and batch_length >= 1, [range(0, T,
    batch_length)] yields the multiples of batch_length below T, and the
    slices [i : i + batch_length] loaded at these indices, put end to end
    in loop order, are the source movie itself. *)
Theorem X1_batches_cover_source (w : world) (T R C : nat) (bl : Z) :
  is_movie (source w) T R C -> (1 <= T)%nat -> 1 <= bl ->
  range 0 (T_total w) bl = Some (starts (Z.of_nat T) bl) /\
  concatenate0
    (omap (fun i => slice0 (source w) i (i + bl)) (starts (Z.of_nat T) bl))
  = Some (source w).
Proof.
  intros HY HT Hbl. split.
  - rewrite (T_total_movie w T R C HY). apply range_up; lia.
  - apply (slices_cover (source w) T R C bl); assumption.
Qed.

Lemma X1_witness :
  range 0 (T_total w_small) 2 = Some (starts (Z.of_nat 3) 2) /\
  concatenate0
    (omap (fun i => slice0 (source w_small) i (i + 2)) (starts (Z.of_nat 3) 2))
  = Some (source w_small).
Proof.
  apply (X1_batches_cover_source w_small 3 2 2 2).
  - split; reflexivity.
  - lia.
  - lia.
Defined.

(** X2: the two cells end to end. For a movie with at least 2 rows and 2
    columns, when the notebook returns, [dims] is (rows, cols), [T] is the
    frame count of the source, and the batch files that cell 20 reads,
    concatenated in the order of [saved_files], form a movie of the shape
    of the source whose pixel (t, r, c) is
    max(Y[t, r, c] - y[t - i, r, c, 0], 0), where i = (t // batch_length)
    * batch_length is the start of the batch holding frame t and y is the
    model's output for that batch; the mapped array, read back in the
    declared order, is this movie. *)
Theorem X2_end_to_end
    (w : world) (T R C : nat) (bl : Z) (st st2 : state)
    (Yr : ndarray) (dims : list nat) (T' : nat) (img : ndarray) :
  is_movie (source w) T R C -> model_ok w ->
  (1 <= T)%nat -> (2 <= R)%nat -> (2 <= C)%nat -> 1 <= bl ->
  notebook w bl st = (st2, inr (Yr, dims, T', img)) ->
  dims = [R; C] /\ T' = T /\
  exists st1 mov,
    cell19 w bl st = (st1, inr tt) /\
    concatenate0 (batches_of st1 (saved_files st1)) = Some mov /\
    is_movie mov T R C /\
    readback_spec Yr dims T' Np.C = Some mov /\
    forall t r c : nat, (t < T)%nat -> (r < R)%nat -> (c < C)%nat ->
      let i := Z.of_nat t / bl * bl in
      exists images y,
        slice0 (source w) i (i + bl) = Some images /\
        predict w (expand_dims_last images) = Some y /\
        item mov [t; r; c] =
          fmax (fsub (item (source w) [t; r; c])
                     (item y [Z.to_nat (Z.of_nat t - i); r; c; 0%nat])) fzero.
Proof.
  intros HY HM HT HR HC Hbl H.
  apply notebook_ok in H as (st1 & H19 & H20).
  destruct (cell19_batches w bl st st1 ltac:(lia) H19) as (_ & Eb & Hs).
  unfold cell20 in H20.
  apply materialize_ok in H20
    as (mov & d1 & d2 & _ & Ec & Sm & -> & -> & _ & _).
  rewrite (T_total_movie w T R C HY) in *.
  assert (forall i, i ∈ starts (Z.of_nat T) bl ->
    exists a, filtered w bl i = Some a /\
      shape a = [batch_len (Z.of_nat T) bl i; R; C] /\ wf a) as HB.
  { intros i Hi. rewrite Forall_forall in Hs. destruct (Hs i Hi) as [a Fa].
    apply starts_in_range in Hi; [|lia|lia].
    destruct (filtered_items w T R C bl i a HY HM Hi Hbl Fa)
      as (images & y & d & _ & [Si _] & _ & _ & _ & _ & Hsh).
    destruct (Hsh HR HC) as [Sa _].
    exists a. split; [assumption|]. split; [congruence|].
    apply (filtered_wf w bl i). assumption. }
  destruct (concat_batches (filtered w bl) T R C bl Hbl HT HB)
    as (mov' & E' & [Sm' Wm] & Hi).
  pose proof Ec as Ec'. rewrite Eb, E' in Ec'. injection Ec' as ->.
  rewrite Sm' in Sm. injection Sm as <- <- <-.
  destruct (readback_declared mov T R C Np.C Wm Sm') as (_ & E1).
  split; [reflexivity|]. split; [reflexivity|].
  exists st1, mov. split; [assumption|]. split; [assumption|].
  split; [split; assumption|]. split; [assumption|].
  intros t r c Ht Hr Hc i.
  destruct (Hi t r c Ht Hr Hc) as (a & Fa & Ei). fold i in Fa, Ei.
  assert (0 <= i <= Z.of_nat t /\ Z.of_nat t - i < bl) as Hq.
  { unfold i.
    pose proof (Z.mod_pos_bound (Z.of_nat t) bl ltac:(lia)) as Hm.
    pose proof (Z.div_mod (Z.of_nat t) bl ltac:(lia)) as Hd.
    pose proof (Z.div_pos (Z.of_nat t) bl ltac:(lia) ltac:(lia)) as Hp. nia. }
  destruct (filtered_items w T R C bl i a HY HM ltac:(lia) Hbl Fa)
    as (images & y & d & Es & Him & Ep & _ & _ & _ & Hsh).
  destruct (Hsh HR HC) as [_ Hit].
  assert (Z.to_nat (Z.of_nat t - i) < batch_len (Z.of_nat T) bl i)%nat as Hlt
    by (unfold batch_len; lia).
  exists images, y. split; [assumption|]. split; [assumption|].
  rewrite Ei, (Hit _ r c Hlt Hr Hc).
  rewrite (slice0_item (source w) images T R C i bl _ r c HY ltac:(lia) ltac:(lia) Es Hlt Hr Hc).
  do 5 f_equal. lia.
Qed.

Lemma X2_witness :
  let res := result_of no_result (notebook w_small 2 init_state) in
  res.1.1.2 = [2; 2]%nat /\ res.1.2 = 3%nat /\
  exists st1 mov,
    cell19 w_small 2 init_state = (st1, inr tt) /\
    concatenate0 (batches_of st1 (saved_files st1)) = Some mov /\
    is_movie mov 3 2 2 /\
    readback_spec res.1.1.1 res.1.1.2 res.1.2 Np.C = Some mov /\
    forall t r c : nat, (t < 3)%nat -> (r < 2)%nat -> (c < 2)%nat ->
      let i := Z.of_nat t / 2 * 2 in
      exists images y,
        slice0 (source w_small) i (i + 2) = Some images /\
        predict w_small (expand_dims_last images) = Some y /\
        item mov [t; r; c] =
          fmax (fsub (item (source w_small) [t; r; c])
                     (item y [Z.to_nat (Z.of_nat t - i); r; c; 0%nat])) fzero.
Proof.
  intros res.
  apply (X2_end_to_end w_small 3 2 2 2 init_state
           (fst (notebook w_small 2 init_state))
           res.1.1.1 res.1.1.2 res.1.2 res.2).
  - split; reflexivity.
  - apply const_model_ok.
  - lia.
  - lia.
  - lia.
  - lia.
  - rewrite <- tuple4_eta. apply result_of_ok. vm_compute. reflexivity.
Defined.

(** X3: running cell 19 a second time changes neither the disk nor the
    list. The list is reset before the loop, not appended to, and every
    batch file is rewritten with the content it already has. *)
Theorem X3_rerun_idempotent (w : world) (bl : Z) (st st1 st2 : state) :
  0 < bl ->
  cell19 w bl st = (st1, inr tt) ->
  cell19 w bl st1 = (st2, inr tt) ->
  fs st2 = fs st1 /\ saved_files st2 = saved_files st1.
Proof.
  intros Hbl H1 H2.
  apply cell19_ok in H1 as [Hall ->]; [|assumption].
  apply cell19_ok in H2 as [_ ->]; [|assumption].
  cbn [fs saved_files]. split; [|reflexivity].
  apply written_idem.
  - apply starts_nonneg. assumption.
  - apply starts_NoDup. assumption.
  - eapply Forall_impl; [exact Hall|]. simpl. tauto.
Qed.

Lemma X3_witness :
  let st1 := fst (cell19 w_small 2 init_state) in
  let st2 := fst (cell19 w_small 2 st1) in
  fs st2 = fs st1 /\ saved_files st2 = saved_files st1.
Proof.
  intros st1 st2.
  apply (X3_rerun_idempotent w_small 2 init_state st1 st2).
  - lia.
  - vm_compute. reflexivity.
  - vm_compute. reflexivity.
Defined.

(** X4: a batch_length that is not positive processes nothing. With
    batch_length = 0 cell 19 raises ValueError (range's zero step); with a
    negative batch_length it returns with an empty list, no frame loaded
    and no file written, and the failure only shows in cell 20, which
    raises on the empty list and leaves the disk as it was. *)
Theorem X4_nonpositive_batch_length (w : world) (bl : Z) (st : state) :
  bl <= 0 ->
  let reset := mk_state (fs st) [] (trace st) in
  (bl = 0 -> cell19 w bl st = (reset, inl ValueError)) /\
  (bl < 0 ->
   cell19 w bl st = (reset, inr tt) /\
   exists e,
     notebook w bl st =
       (mk_state (fs st) [] (trace st ++ [EvSaveMemmap]), inl e)).
Proof.
  intros Hbl reset. split.
  - intros ->. reflexivity.
  - intros Hneg.
    assert (cell19 w bl st = (reset, inr tt)) as E.
    { unfold cell19, bind, set_saved_files, lift.
      rewrite range_down; [reflexivity|assumption|apply T_total_nonneg]. }
    split; [assumption|].
    exists ShapeMismatchError.
    unfold notebook, bind. rewrite E. reflexivity.
Qed.

Lemma X4_witness :
  let reset := mk_state (fs init_state) [] (trace init_state) in
  (-256 = 0 -> cell19 w_small (-256) init_state = (reset, inl ValueError)) /\
  (-256 < 0 ->
   cell19 w_small (-256) init_state = (reset, inr tt) /\
   exists e,
     notebook w_small (-256) init_state =
       (mk_state (fs init_state) [] (trace init_state ++ [EvSaveMemmap]), inl e)).
Proof.
  apply (X4_nonpositive_batch_length w_small (-256) init_state). lia.
Defined.

(** X5: two batches never get the same file name, whatever their start
    indices, also from 100000 on where the name grows to six digits: no
    batch file overwrites another. *)
Theorem X5_names_distinct (fld : string) (i j : Z) :
  0 <= i -> 0 <= j -> i <> j -> batch_name fld i <> batch_name fld j.
Proof.
  intros Hi Hj Hne E. apply Hne.
  apply (temp_file_inj (mk_world (scalar fzero) fld (fun _ => None)
                          (fun _ _ => true) (fun _ _ => true) "") i j Hi Hj).
  exact E.
Qed.

Lemma X5_witness :
  batch_name "out" 99840 <> batch_name "out" 100096.
Proof.
  apply (X5_names_distinct "out" 99840 100096); lia.
Defined.

(** X6: frames of a single column. For a movie of cols = 1 and rows >= 2,
    [np.squeeze] drops the column axis of the model's output and the
    subtraction of the (n, rows) array from the (n, rows, 1) batch cannot
    be broadcast when the first batch has n >= 2 frames, n <> rows: cell 19
    raises ValueError in its first iteration, with the first path on the
    list and nothing written. *)
Theorem X6_column_movie_aborts (w : world) (T R : nat) (bl : Z) (st : state) :
  is_movie (source w) T R 1 -> model_ok w ->
  (forall x, is_Some (predict w x)) ->
  load_ok w 0 (0 + bl) = true ->
  (2 <= R)%nat -> 1 <= bl ->
  (2 <= batch_len (Z.of_nat T) bl 0)%nat ->
  batch_len (Z.of_nat T) bl 0 <> R ->
  cell19 w bl st =
    (mk_state (fs st) [temp_file w 0]
              (trace st ++ [EvLoad 0; EvPredict 0; EvRecord 0]),
     inl ValueError).
Proof.
  intros HY HM HP HL HR Hbl Hn Hne.
  assert (1 <= Z.of_nat T) as HT by (unfold batch_len in Hn; lia).
  rewrite cell19_eq by lia. rewrite (T_total_movie w T R 1 HY).
  assert (exists l, starts (Z.of_nat T) bl = 0 :: l) as [l El].
  { unfold starts.
    pose proof (ceil_div_bounds (Z.of_nat T) bl ltac:(lia) ltac:(lia)) as Hc.
    destruct (Z.to_nat (ceil_div (Z.of_nat T) bl)) as [|k] eqn:Ek.
    - exfalso. destruct Hc as [Hc|[Hc _]]; [|lia].
      pose proof (ceil_div_nonneg (Z.of_nat T) bl ltac:(lia) ltac:(lia)). nia.
    - cbn [seq map]. eexists. reflexivity. }
  rewrite El. cbn [for_]. unfold bind at 1.
  destruct (slice0_movie (source w) T R 1 0 bl HY ltac:(lia) ltac:(lia))
    as (images & Es & [Si Wi]).
  destruct (HP (expand_dims_last images)) as [y Ey].
  pose proof (HM _ _ Ey) as Sy. cbn [expand_dims_last shape] in Sy.
  rewrite Si in Sy. cbn [app] in Sy.
  assert (subtract images (squeeze y) = None) as Ed.
  { unfold subtract, broadcast2.
    rewrite Si, (squeeze_column y _ R Sy Hn HR).
    rewrite broadcast_column by assumption. reflexivity. }
  rewrite (body_subtract_fails w bl 0 _ images y HL Es Ey Ed).
  reflexivity.
Qed.

Lemma X6_witness :
  cell19 (demo_world (ramp 2 3 1) fzero) 256 init_state =
    (mk_state (fs init_state) [temp_file (demo_world (ramp 2 3 1) fzero) 0]
              (trace init_state ++ [EvLoad 0; EvPredict 0; EvRecord 0]),
     inl ValueError).
Proof.
  apply (X6_column_movie_aborts (demo_world (ramp 2 3 1) fzero) 2 3 256 init_state).
  - split; reflexivity.
  - apply const_model_ok.
  - intros x. eexists. reflexivity.
  - reflexivity.
  - lia.
  - lia.
  - vm_compute. lia.
  - vm_compute. lia.
Defined.

(** X7: frames of a single row. For a movie of rows = 1 and cols >= 2,
    [np.squeeze] drops the row axis of the model's output, and for a batch
    of n >= 2 frames the subtraction broadcasts the (n, 1, cols) batch
    against the (n, cols) output: the batch is saved with shape
    (n, n, cols), and its entry (t, u, c) is max(Y[i + t, 0, c] -
    y[u, 0, c, 0], 0), frame t of the batch against the background of
    frame u. *)
Theorem X7_row_movie_cross_frames
    (w : world) (T C : nat) (bl i : Z) (a : ndarray) :
  is_movie (source w) T 1 C -> model_ok w ->
  (2 <= C)%nat -> 0 <= i < Z.of_nat T -> 1 <= bl ->
  (2 <= batch_len (Z.of_nat T) bl i)%nat ->
  filtered w bl i = Some a ->
  let n := batch_len (Z.of_nat T) bl i in
  exists images y,
    slice0 (source w) i (i + bl) = Some images /\
    predict w (expand_dims_last images) = Some y /\
    shape a = [n; n; C] /\
    forall t u c : nat, (t < n)%nat -> (u < n)%nat -> (c < C)%nat ->
      item a [t; u; c] =
      fmax (fsub (item (source w) [(Z.to_nat i + t)%nat; 0%nat; c])
                 (item y [u; 0%nat; c; 0%nat])) fzero.
Proof.
  intros HY HM HC Hi Hbl Hn Fa n.
  destruct (filtered_items w T 1 C bl i a HY HM Hi Hbl Fa)
    as (images & y & d & Es & Him & Ep & Ed & Em & _ & _).
  fold n in Him. destruct Him as [Si Wi].
  pose proof (HM _ _ Ep) as Sy. cbn [expand_dims_last shape] in Sy.
  rewrite Si in Sy. cbn [app] in Sy.
  destruct (item_squeeze_row y n C 0 0 Sy Hn HC) as [Ss _].
  destruct (shape_broadcast2 _ _ _ _ Ed) as [Sd _].
  rewrite Si, Ss, (broadcast_row n C Hn) in Sd. injection Sd as Sd.
  exists images, y. split; [assumption|]. split; [assumption|].
  assert (forall t u c : nat, (t < n)%nat -> (u < n)%nat -> (c < C)%nat ->
            in_bounds [n; n; C] [t; u; c]) as Hin.
  { intros t u c Ht Hu Hc. apply in_bounds3; assumption. }
  split.
  - destruct (item_maximum_scalar d fzero a [0; 0; 0]%nat Em) as [Sa _].
    + rewrite <- Sd. apply Hin; lia.
    + congruence.
  - intros t u c Ht Hu Hc.
    destruct (item_maximum_scalar d fzero a [t; u; c] Em) as [_ ->].
    { rewrite <- Sd. apply Hin; assumption. }
    rewrite (item_broadcast2 _ _ _ _ [t; u; c] Ed)
      by (rewrite <- Sd; apply Hin; assumption).
    rewrite Si, Ss.
    destruct (item_squeeze_row y n C u c Sy Hn HC) as [_ Eu].
    assert (bidx [n; 1%nat; C] [t; u; c] = [t; 0%nat; c]) as B1.
    { unfold bidx. cbn [length drop zip_with Nat.sub Nat.eqb].
      destruct (n =? 1)%nat eqn:E1; [apply Nat.eqb_eq in E1; lia|].
      destruct (C =? 1)%nat eqn:E2; [apply Nat.eqb_eq in E2; lia|].
      reflexivity. }
    assert (bidx [n; C] [t; u; c] = [u; c]) as B2.
    { unfold bidx. cbn [length drop zip_with Nat.sub].
      destruct (n =? 1)%nat eqn:E1; [apply Nat.eqb_eq in E1; lia|].
      destruct (C =? 1)%nat eqn:E2; [apply Nat.eqb_eq in E2; lia|].
      reflexivity. }
    rewrite B1, B2, Eu.
    rewrite (slice0_item (source w) images T 1 C i bl t 0 c HY
               ltac:(lia) ltac:(lia) Es Ht ltac:(lia) Hc).
    reflexivity.
Qed.

Lemma X7_witness :
  let a := default (scalar fzero) (filtered w_row 256 0) in
  let n := batch_len (Z.of_nat 2) 256 0 in
  exists images y,
    slice0 (source w_row) 0 (0 + 256) = Some images /\
    predict w_row (expand_dims_last images) = Some y /\
    shape a = [n; n; 3%nat] /\
    forall t u c : nat, (t < n)%nat -> (u < n)%nat -> (c < 3)%nat ->
      item a [t; u; c] =
      fmax (fsub (item (source w_row) [(Z.to_nat 0 + t)%nat; 0%nat; c])
                 (item y [u; 0%nat; c; 0%nat])) fzero.
Proof.
  intros a.
  apply (X7_row_movie_cross_frames w_row 2 3 256 0 a).
  - split; reflexivity.
  - apply const_model_ok.
  - lia.
  - lia.
  - lia.
  - vm_compute. lia.
  - vm_compute. reflexivity.
Defined.

(** X8: the branch [save_file = False] of cell 19. After a run of the
    loop (T <= 100000) into a folder that held no file whose name
    continues [pfc_back_removed_], listing the folder with
    [glob.glob(os.path.join(fld_name, 'pfc_back_removed_*'))] and sorting
    the names gives exactly the list the loop built, in the same order.
    This holds on the disk as the run left it and on every later disk on
    which the paths that continue this prefix are unchanged. The folder
    name is one without glob metacharacters and without a trailing
    separator. *)
Theorem X8_listing_recovers_list (w : world) (bl : Z) (st st1 st' : state) :
  has_magic (fld_name w) = false ->
  endswith_sep (fld_name w) = false ->
  0 < bl -> T_total w <= 100000 ->
  no_batch_files (fs st) (fld_name w) ->
  cell19 w bl st = (st1, inr tt) ->
  (forall rest,
     fs st' !! (name_prefix (fld_name w) +:+ rest)
     = fs st1 !! (name_prefix (fld_name w) +:+ rest)) ->
  cell19_reuse w st' = (mk_state (fs st') (saved_files st1) (trace st'), inr tt).
Proof.
  intros _ He Hbl HT Hclean H Hag.
  apply cell19_ok in H as [Hall ->]; [|assumption].
  set (l := starts (T_total w) bl) in *.
  pose proof (starts_nonneg (T_total w) bl Hbl) as Hnn. fold l in Hnn.
  pose proof (starts_NoDup (T_total w) bl Hbl) as Hnd. fold l in Hnd.
  assert (Forall (fun i => is_Some (filtered w bl i)) l) as Hs.
  { eapply Forall_impl; [exact Hall|]. simpl. tauto. }
  cbn [fs saved_files] in *.
  unfold cell19_reuse, set_saved_files.
  do 2 f_equal.
  pose proof (glob_agree _ _ (fld_name w) He Hag) as Hp.
  rewrite (glob_written w bl l (fs st) He Hnn Hnd Hs Hclean) in Hp.
  apply Permutation_map_inv in Hp as (l3 & -> & Hp).
  unfold sort.
  rewrite (sort_by_map (temp_file w) Z.leb String.leb l3).
  - f_equal. apply sort_by_Z_unique.
    + symmetry. assumption.
    + apply starts_sorted. assumption.
  - intros i j Hi Hj. rewrite <- Hp in Hi, Hj.
    apply starts_in_range in Hi; [|assumption|apply T_total_nonneg].
    apply starts_in_range in Hj; [|assumption|apply T_total_nonneg].
    apply temp_file_leb; lia.
Qed.

Lemma X8_witness :
  let st1 := fst (cell19 w_small 2 init_state) in
  cell19_reuse w_small st1
  = (mk_state (fs st1) (saved_files st1) (trace st1), inr tt).
Proof.
  intros st1.
  apply (X8_listing_recovers_list w_small 2 init_state st1 st1).
  - reflexivity.
  - reflexivity.
  - lia.
  - vm_compute. discriminate.
  - intros p [f Hf]. cbn in Hf. rewrite lookup_empty in Hf. discriminate.
  - vm_compute. reflexivity.
  - intros rest. reflexivity.
Defined.

(** X9: the listing takes every file of the folder whose name continues
    [pfc_back_removed_]. A batch file left by an earlier run for a start
    index that the present run does not have is not on the list the loop
    builds, but it is on the list that the branch [save_file = False]
    builds afterwards. *)
Theorem X9_listing_takes_stale_files
    (w : world) (bl : Z) (st st1 : state) (j : Z) :
  has_magic (fld_name w) = false ->
  endswith_sep (fld_name w) = false ->
  0 < bl -> 0 <= j -> j ∉ starts (T_total w) bl ->
  is_Some (fs st !! temp_file w j) ->
  cell19 w bl st = (st1, inr tt) ->
  (temp_file w j ∉ saved_files st1) /\
  (temp_file w j ∈ saved_files (fst (cell19_reuse w st1))).
Proof.
  intros _ He Hbl Hj Hout Hstale H.
  apply cell19_ok in H as [_ ->]; [|assumption].
  pose proof (starts_nonneg (T_total w) bl Hbl) as Hnn.
  assert (temp_file w j ∉ map (temp_file w) (starts (T_total w) bl)) as Hno.
  { intros Hin. apply list_elem_of_fmap in Hin as (i & E & Hi).
    rewrite Forall_forall in Hnn.
    apply (temp_file_inj w) in E; auto. subst i. contradiction. }
  cbn [saved_files]. split; [assumption|].
  unfold cell19_reuse, set_saved_files. cbn [fst fs saved_files].
  apply elem_of_sort, elem_of_glob; [assumption|].
  exists (temp_file w j), (format_05d j +:+ ".h5").
  split; [|split].
  - rewrite written_other by assumption. assumption.
  - apply temp_file_eq.
  - rewrite upto_sep_id by (apply has_sep_index; assumption).
    apply temp_file_eq.
Qed.

Lemma X9_witness :
  let st := mk_state {[ temp_file w_small 4 := H5 (scalar fzero) ]} [] [] in
  let st1 := fst (cell19 w_small 2 st) in
  (temp_file w_small 4 ∉ saved_files st1) /\
  (temp_file w_small 4 ∈ saved_files (fst (cell19_reuse w_small st1))).
Proof.
  intros st st1.
  apply (X9_listing_takes_stale_files w_small 2 st st1 4).
  - reflexivity.
  - reflexivity.
  - lia.
  - lia.
  - intros H. apply elem_of_starts in H; [|lia|apply T_total_nonneg].
    destruct H as [H _]. vm_compute in H. destruct H as [_ H]. discriminate.
  - cbn [fs st]. rewrite lookup_singleton_eq. eauto.
  - vm_compute. reflexivity.
Defined.

(** X10: the results file and the batch files lie in the folder of the
    model. For [fld_name = os.path.dirname(path)] and a file name without
    separator, [os.path.join(fld_name, name)] splits back into
    [fld_name] and [name]; in particular its directory part is
    [fld_name], whatever [path] is. *)
Theorem X10_join_stays_in_folder (path name : string) :
  has_sep name = false ->
  let fld_name := os_path_dirname path in
  os_path_split (os_path_join fld_name name) = (fld_name, name) /\
  os_path_dirname (os_path_join fld_name name) = fld_name.
Proof.
  intros Hn fld. pose proof (dirname_join path name Hn) as E. fold fld in E.
  split; [assumption|]. unfold os_path_dirname at 1. rewrite E. reflexivity.
Qed.

Lemma X10_witness :
  let fld_name := os_path_dirname "models//ring/model.h5" in
  os_path_split (os_path_join fld_name "onacid_results.hdf5")
    = (fld_name, "onacid_results.hdf5") /\
  os_path_dirname (os_path_join fld_name "onacid_results.hdf5") = fld_name.
Proof.
  apply (X10_join_stays_in_folder "models//ring/model.h5" "onacid_results.hdf5").
  reflexivity.
Defined.

(** X11: the component images drawn as contours. For a (pixels, K) array
    with pixels = d1 * d2 and d1, d2 >= 1,
    [A.reshape(dims + (-1,), order='F').transpose(2, 0, 1)] infers K for
    the last axis and returns K images of shape (d1, d2); pixel (r, c) of
    image k is entry (r + d1 * c, k) of [A]. Applied to the
    (pixels, frames) array that numbers the pixels of each frame of a
    movie column-major, it returns the movie. *)
Theorem X11_footprint_images (A : ndarray) (d1 d2 K : nat) :
  wf A -> shape A = [d1 * d2; K]%nat -> (1 <= d1)%nat -> (1 <= d2)%nat ->
  exists imgs,
    footprints A [d1; d2] = Some imgs /\
    shape imgs = [K; d1; d2] /\
    (forall k r c : nat, (k < K)%nat -> (r < d1)%nat -> (c < d2)%nat ->
       item imgs [k; r; c] = item A [(r + d1 * c)%nat; k]) /\
    (forall mov, wf mov -> shape mov = [K; d1; d2] ->
       A = Yr_of mov K d1 d2 -> imgs = mov).
Proof.
  intros W S H1 H2.
  destruct (footprints_items A d1 d2 K W S H1 H2) as (imgs & E & Si & Wi & Hi).
  exists imgs. split; [assumption|]. split; [assumption|]. split; [assumption|].
  intros mov Wm Sm ->.
  apply ndarray_ext; [assumption|assumption|congruence|].
  rewrite Si. intros j Hj.
  apply in_bounds3_inv in Hj as (k & r & c & -> & Hk & Hr & Hc).
  rewrite Hi by assumption. apply item_Yr_of; assumption.
Qed.

Lemma X11_witness :
  exists imgs,
    footprints (Yr_of (ramp 3 2 2) 3 2 2) [2; 2]%nat = Some imgs /\
    shape imgs = [3; 2; 2]%nat /\
    (forall k r c : nat, (k < 3)%nat -> (r < 2)%nat -> (c < 2)%nat ->
       item imgs [k; r; c] = item (Yr_of (ramp 3 2 2) 3 2 2) [(r + 2 * c)%nat; k]) /\
    (forall mov, wf mov -> shape mov = [3; 2; 2]%nat ->
       Yr_of (ramp 3 2 2) 3 2 2 = Yr_of mov 3 2 2 -> imgs = mov).
Proof.
  apply (X11_footprint_images (Yr_of (ramp 3 2 2) 3 2 2) 2 2 3).
  - apply wf_build.
  - reflexivity.
  - lia.
  - lia.
Defined.

(** X12: the movie of the estimated components is built with
    [reshape(dims + (T,))] in the default order 'C', not in order 'F' as
    the component images are. For a square field of view (d x d, d >= 1)
    the result is the movie read in order 'F' with rows and columns
    interchanged, that is, its [transpose(0, 2, 1)]: the orientation the
    other three movies are brought into before the four are put side by
    side. *)
Theorem X12_components_movie_transposed (AC : ndarray) (d T : nat) :
  wf AC -> shape AC = [d * d; T]%nat -> (1 <= d)%nat ->
  exists m4 mov,
    components_movie AC [d; d] T = Some m4 /\
    footprints AC [d; d] = Some mov /\
    shape m4 = [T; d; d] /\
    m4 = transpose mov [0; 2; 1]%nat.
Proof.
  intros W S Hd.
  destruct (components_movie_items AC d d T W S) as (m4 & E4 & S4 & W4 & H4).
  destruct (footprints_items AC d d T W S Hd Hd) as (mov & Em & Sm & Wm & Hm).
  exists m4, mov. repeat (split; [assumption|]).
  apply ndarray_ext; [assumption|apply wf_build| |].
  - rewrite S4. unfold transpose. rewrite Sm. reflexivity.
  - rewrite S4. intros j Hj.
    apply in_bounds3_inv in Hj as (t & r & c & -> & Ht & Hr & Hc).
    rewrite H4 by assumption.
    rewrite (item_transpose_021 mov T d d c r t) by assumption.
    rewrite Hm by assumption. do 2 f_equal. lia.
Qed.

Lemma X12_witness :
  exists m4 mov,
    components_movie (Yr_of (ramp 3 2 2) 3 2 2) [2; 2]%nat 3 = Some m4 /\
    footprints (Yr_of (ramp 3 2 2) 3 2 2) [2; 2]%nat = Some mov /\
    shape m4 = [3; 2; 2]%nat /\
    m4 = transpose mov [0; 2; 1]%nat.
Proof.
  apply (X12_components_movie_transposed (Yr_of (ramp 3 2 2) 3 2 2) 2 3).
  - apply wf_build.
  - reflexivity.
  - lia.
Defined.

(** X13: the cell that prints the cost of the first epoch indexes the
    four cumulative arrays at [T]. [tc_init] is built with
    [np.ones(T * n_epochs)], so with a single epoch (n_epochs <= 1) it
    has at most T entries and the cell raises IndexError, whatever the
    other three arrays hold. *)
Theorem X13_single_epoch_cost_raises
    (t_init : f64) (T n_epochs : Z) (tc_prc tc_det tc_shp tc_ini : ndarray) :
  0 <= T -> n_epochs <= 1 ->
  tc_init t_init (T * n_epochs) = Some tc_ini ->
  first_epoch_cost tc_prc tc_det tc_shp tc_ini T = inl IndexError.
Proof.
  intros HT Hn Hi. apply length_tc_init in Hi as [H0 Hl].
  assert (getitem tc_ini T = inl IndexError) as E4.
  { apply getitem_out. rewrite Hl. nia. }
  unfold first_epoch_cost.
  destruct (getitem tc_prc T) as [e|x] eqn:E1.
  { apply getitem_exn in E1 as ->. reflexivity. }
  destruct (getitem tc_det T) as [e|y] eqn:E2.
  { apply getitem_exn in E2 as ->. reflexivity. }
  destruct (getitem tc_shp T) as [e|z] eqn:E3.
  { apply getitem_exn in E3 as ->. reflexivity. }
  rewrite E4. reflexivity.
Qed.

Lemma X13_witness :
  first_epoch_cost (array1 (replicate 4 zero64)) (array1 (replicate 4 zero64))
    (array1 (replicate 4 zero64))
    (array1 (map (mul64 (of_int 2)) (replicate 3 (of_int 1)))) 3
  = inl IndexError.
Proof.
  apply (X13_single_epoch_cost_raises (of_int 2) 3 1).
  - lia.
  - lia.
  - reflexivity.
Defined.

(** X14: no processing time is attributed to the frames of the
    initialisation. When the three lists of timings have the same
    length, [T_online] is defined and has init_batch more entries than
    they have, and on the first init_batch frames [T_detect], [T_shapes]
    and [T_online] are 0, and so are the cumulative arrays [tc_det],
    [tc_shp] and [tc_prc] computed from them. *)
Theorem X14_no_time_before_init
    (init_batch : nat) (t_detect t_shapes t_online : list f64) (k : nat) :
  length t_detect = length t_online ->
  length t_shapes = length t_online ->
  (k < init_batch)%nat ->
  exists To,
    T_online init_batch t_detect t_shapes t_online = Some To /\
    shape To = [(init_batch + length t_online)%nat] /\
    item (T_detect init_batch t_detect) [k] = zero64 /\
    item (T_shapes init_batch t_shapes) [k] = zero64 /\
    item To [k] = zero64 /\
    item (cumulative_s (T_detect init_batch t_detect)) [k] = zero64 /\
    item (cumulative_s (T_shapes init_batch t_shapes)) [k] = zero64 /\
    item (cumulative_s To) [k] = zero64.
Proof.
  intros Ld Ls Hk. unfold T_online, T_detect, T_shapes.
  set (n := (init_batch + length t_online)%nat).
  pose proof (padded_ms_shape init_batch t_online) as So. fold n in So.
  pose proof (padded_ms_shape init_batch t_detect) as Sd.
  rewrite Ld in Sd. fold n in Sd.
  pose proof (padded_ms_shape init_batch t_shapes) as Ss.
  rewrite Ls in Ss. fold n in Ss.
  destruct (sub_same_length _ _ n So Sd) as (d & Ed & Sd' & Wd & Hd).
  destruct (sub_same_length _ _ n Sd' Ss) as (To & Eo & So' & Wo & Ho).
  rewrite Ed, Eo. exists To.
  assert (forall j : nat, (j <= k)%nat -> item To [j] = zero64) as Hz.
  { intros j Hj. rewrite Ho, Hd by lia.
    rewrite !padded_ms_zero by lia. reflexivity. }
  assert (forall t, wf (padded_ms init_batch t)) as Wp.
  { intros t. unfold wf. rewrite padded_ms_shape. cbn [size_of foldr].
    unfold padded_ms, array1. cbn [data].
    rewrite length_map, length_app, length_replicate. lia. }
  split; [reflexivity|]. split; [assumption|].
  split; [apply padded_ms_zero; assumption|].
  split; [apply padded_ms_zero; assumption|].
  split; [apply Hz; lia|].
  split; [|split].
  - apply (cumulative_s_zero _ n); [assumption|apply Wp|lia|].
    intros j Hj. apply padded_ms_zero. lia.
  - apply (cumulative_s_zero _ n); [assumption|apply Wp|lia|].
    intros j Hj. apply padded_ms_zero. lia.
  - apply (cumulative_s_zero _ n); [assumption|assumption|lia|assumption].
Qed.

Lemma X14_witness :
  exists To,
    T_online 2 [of_int 3] [of_int 4] [of_int 9] = Some To /\
    shape To = [(2 + length [of_int 9])%nat] /\
    item (T_detect 2 [of_int 3]) [1%nat] = zero64 /\
    item (T_shapes 2 [of_int 4]) [1%nat] = zero64 /\
    item To [1%nat] = zero64 /\
    item (cumulative_s (T_detect 2 [of_int 3])) [1%nat] = zero64 /\
    item (cumulative_s (T_shapes 2 [of_int 4])) [1%nat] = zero64 /\
    item (cumulative_s To) [1%nat] = zero64.
Proof.
  apply (X14_no_time_before_init 2 [of_int 3] [of_int 4] [of_int 9] 1).
  - reflexivity.
  - reflexivity.
  - lia.
Defined.

(** X15: the plots show every ds-th frame at its own frame number. For a
    step ds > 0, [np.arange(len(a))[::ds]] and [a[::ds]] have the same
    length, ceil(len(a) / ds), and their k-th entries are k * ds and
    a[k * ds]. *)
Theorem X15_downsampled_points (a : list f64) (ds : Z) :
  0 < ds ->
  exists xs ys,
    slice_step (arange (length a)) ds = Some xs /\
    slice_step a ds = Some ys /\
    length xs = length ys /\
    Z.of_nat (length ys) = ceil_div (Z.of_nat (length a)) ds /\
    forall k : nat, (k < length ys)%nat ->
      xs !! k = Some (Z.of_nat k * ds) /\
      ys !! k = a !! (k * Z.to_nat ds)%nat /\
      is_Some (ys !! k).
Proof.
  intros Hds.
  destruct (slice_step_up (arange (length a)) ds Hds) as (xs & Ex & Lx & Hx).
  destruct (slice_step_up a ds Hds) as (ys & Ey & Ly & Hy).
  rewrite length_arange in *.
  exists xs, ys. split; [assumption|]. split; [assumption|].
  assert (length xs = length ys) as L by lia.
  split; [assumption|]. split; [assumption|].
  intros k Hk.
  destruct (Hx k ltac:(lia)) as [Hlt Hxk].
  destruct (Hy k Hk) as [_ Hyk].
  split; [|split].
  - rewrite Hxk, lookup_arange by assumption. f_equal. lia.
  - assumption.
  - apply lookup_lt_is_Some. assumption.
Qed.

Lemma X15_witness :
  exists xs ys,
    slice_step (arange (length (replicate 25 zero64))) 10 = Some xs /\
    slice_step (replicate 25 zero64) 10 = Some ys /\
    length xs = length ys /\
    Z.of_nat (length ys) = ceil_div (Z.of_nat (length (replicate 25 zero64))) 10 /\
    forall k : nat, (k < length ys)%nat ->
      xs !! k = Some (Z.of_nat k * 10) /\
      ys !! k = replicate 25 zero64 !! (k * Z.to_nat 10)%nat /\
      is_Some (ys !! k).
Proof.
  apply (X15_downsampled_points (replicate 25 zero64) 10). lia.
Defined.

(** X16: cell 20 keeps the batch files. When the two cells return and the
    memory-mapped file has a name of its own, the list still names the
    batch files in loop order, every batch file still holds its filtered
    batch, the memory-mapped file is on disk, and no other path has
    changed since before the run. *)
Theorem X16_batch_files_kept
    (w : world) (bl : Z) (st st2 : state)
    (res : ndarray * list nat * nat * ndarray) :
  0 < bl ->
  notebook w bl st = (st2, inr res) ->
  mmap_name w ∉ map (temp_file w) (starts (T_total w) bl) ->
  saved_files st2 = map (temp_file w) (starts (T_total w) bl) /\
  (forall i, i ∈ starts (T_total w) bl ->
     exists a, filtered w bl i = Some a /\
               fs st2 !! temp_file w i = Some (H5 a)) /\
  (exists o dims T raw, fs st2 !! mmap_name w = Some (Mmap o dims T raw)) /\
  (forall p, p <> mmap_name w -> p ∉ saved_files st2 ->
     fs st2 !! p = fs st !! p).
Proof.
  intros Hbl H Hname.
  apply notebook_ok in H as (st1 & H19 & H20).
  destruct res as [[[Yr dims] T] img]. unfold cell20 in H20.
  apply materialize_ok in H20
    as (mov & d1 & d2 & _ & _ & _ & _ & _ & _ & Efs & Esf).
  apply cell19_ok in H19 as [Hall ->]; [|assumption].
  cbn [fs saved_files] in *.
  set (l := starts (T_total w) bl) in *.
  pose proof (starts_nonneg (T_total w) bl Hbl) as Hnn. fold l in Hnn.
  pose proof (starts_NoDup (T_total w) bl Hbl) as Hnd. fold l in Hnd.
  split; [assumption|]. split; [|split].
  - intros i Hi. rewrite Forall_forall in Hall.
    destruct (Hall i Hi) as [[a Fa] _]. exists a. split; [assumption|].
    rewrite Efs, lookup_insert_ne.
    + apply written_lookup; assumption.
    + intros E. apply Hname. rewrite E. apply list_elem_of_fmap. eauto.
  - rewrite Efs, lookup_insert_eq. eauto.
  - intros p Hp Hout. rewrite Esf in Hout.
    rewrite Efs, lookup_insert_ne by congruence.
    apply written_other. assumption.
Qed.

Lemma X16_witness :
  let st2 := fst (notebook w_small 2 init_state) in
  saved_files st2 = map (temp_file w_small) (starts (T_total w_small) 2) /\
  (forall i, i ∈ starts (T_total w_small) 2 ->
     exists a, filtered w_small 2 i = Some a /\
               fs st2 !! temp_file w_small i = Some (H5 a)) /\
  (exists o dims T raw,
     fs st2 !! mmap_name w_small = Some (Mmap o dims T raw)) /\
  (forall p, p <> mmap_name w_small -> p ∉ saved_files st2 ->
     fs st2 !! p = fs init_state !! p).
Proof.
  intros st2.
  apply (X16_batch_files_kept w_small 2 init_state st2
           (result_of no_result (notebook w_small 2 init_state))).
  - lia.
  - apply result_of_ok. vm_compute. reflexivity.
  - vm_compute. elem_absurd.
Defined.

(** X17: from 100000 frames on, the branch [save_file = False] does not
    give the batches in the order of the movie. When a batch starts at
    an index j with 100000 <= j < 200000 and the batch before it starts
    at 20000 or later (for batch_length = 256: as soon as T > 100096),
    the sorted listing differs from the list that the loop builds,
    whatever else the folder holds: in the loop's list the six-digit
    name follows a five-digit name that sorts after it. *)
Theorem X17_listing_misorders_long_movies
    (w : world) (bl : Z) (st st1 : state) (j : Z) :
  0 < bl ->
  cell19 w bl st = (st1, inr tt) ->
  j ∈ starts (T_total w) bl ->
  100000 <= j < 200000 -> 20000 <= j - bl < 100000 ->
  saved_files (fst (cell19_reuse w st1)) <> saved_files st1.
Proof.
  intros Hbl H Hj Hjr Hir E.
  apply cell19_ok in H as [_ ->]; [|assumption].
  unfold cell19_reuse, set_saved_files in E. cbn [fst saved_files fs] in E.
  pose proof (sort_sorted
    (glob (written w bl (starts (T_total w) bl) (fs st))
          (os_path_join (fld_name w) "pfc_back_removed_*"))) as Hs.
  rewrite E in Hs.
  apply list_elem_of_lookup_1 in Hj as [k Hk].
  pose proof (starts_lookup _ _ _ _ Hk) as [Ej Hkn].
  destruct k as [|k]; [lia|].
  assert (starts (T_total w) bl !! k = Some (j - bl)) as Hk'.
  { unfold starts. rewrite list_lookup_fmap, lookup_seq_lt by lia.
    cbn. f_equal. lia. }
  pose proof (Sorted_adjacent leb_rel _ k (temp_file w (j - bl)) (temp_file w j) Hs)
    as Hadj.
  rewrite !list_lookup_fmap, Hk, Hk' in Hadj.
  specialize (Hadj eq_refl eq_refl). unfold leb_rel in Hadj.
  rewrite temp_file_six_digits in Hadj by lia. discriminate.
Qed.

Lemma X17_witness :
  saved_files
    (fst (cell19_reuse w_long (fst (cell19 w_long 256 init_state))))
  <> saved_files (fst (cell19 w_long 256 init_state)).
Proof.
  apply (X17_listing_misorders_long_movies w_long 256 init_state
           (fst (cell19 w_long 256 init_state)) 100096).
  - lia.
  - destruct (cell19_returns w_long (Z.to_nat 100097) 2 2 256 init_state)
      as [st' E].
    + apply ramp_is_movie.
    + apply const_model_ok.
    + intros x. eexists. reflexivity.
    + reflexivity.
    + reflexivity.
    + lia.
    + lia.
    + lia.
    + rewrite E. reflexivity.
  - rewrite (T_total_movie w_long (Z.to_nat 100097) 2 2 (ramp_is_movie _ _ _)).
    apply elem_of_starts; [lia|lia|]. rewrite Z2Nat.id by lia.
    split; [lia|reflexivity].
  - lia.
  - lia.
Defined.
